(* ===== verification/_CoqProject ===== *)
-Q . S2P
Prelude.v
Stock.v
Transfer.v
Score.v
Exchange.v
Osa.v
Strconv.v
Parser.v
Orchestrator.v
Phases.v
Race.v
Int64.v
Cli.v
Run.v
Terminal.v
