(* ===== verification/Prelude.v ===== *)
(** * dstock: a verification development of the stock-transfer optimiser

    The program (Go, under [src/]) rebalances per-product stock between
    stores.  The command [opti] ([src/cmd/opti.go]) reads a CSV file
    with [ParseFromCSV] ([src/stockparser/stockparser.go]) into a
    snapshot [store -> product -> {Has; Needs}], calls [RunOpti]
    ([src/opti/opti.go]), which repeatedly evaluates every eligible
    store pair concurrently, keeps the best candidate and commits it,
    and writes the committed transfers as CSV rows.

    ** Files, in dependency order, and the code they model

    - [Prelude] (this file): Go's nested maps [map[string]map[string]T]
      with zero-value reads as stdpp [gmap string (gmap string T)]
      ([lookup2_total], [lookup2], and [insert2] for [m[i][j] = v]);
      sums of Go [int]s over a map ([map_zsum]) with the lemmas the
      conservation and cell-count proofs share; the hint databases
      [dstock] and [dstock_rw].
    - [Stock] ([stockparser.StockItem], [StockMatrix]): the cell, the
      zero-default read [item_at], the write [set_item], the deep copy
      of [RunOpti] (lines 29-37), the per-product total [stock_sum] and
      the well-formedness predicate [stock_wf] (no negative number).
    - [Transfer] ([opti/transfer.go], [opti/settings.go]): the records,
      and the interface [PairEvaluator] that the orchestrator needs from
      the pair evaluation (it names the stores it was given, reads only
      without commit, reports the same counts with and without commit,
      conserves every product, keeps stock well formed, keeps the stores
      and the cells), and [PairMonotone] (the OSA gain is never
      negative and a commit never raises another pair's count).  Module
      [Selector]: [determineBestTransfer] with
      the float64 weights [0.99, 0.01] scaled to [99, 1], the key
      [From + "-" + To], and the reducer goroutine as a fold over the
      arrival order ([reduce_candidates], opti.go 99-106).
    - [Score]: the same selector and reducer computed in float64 as Go
      computes them ([determineBestTransfer_f64], [reduce_candidates_f64],
      with the kernel's primitive binary64 floats), an exhaustive
      check, by evaluation, of the float comparison of every pair of
      score points of a bounded grid, and the float tie-break.
    - [Exchange] ([doExchangeItems], [min]): the loop over
      [range stock[store1]] as a fold over an enumeration order given
      as a parameter ([doExchangeItems_in]), with the in-place writes
      of the commit; [doExchangeItems] uses stdpp's order.  The
      instances [doExchangeItems_evaluator] and
      [doExchangeItems_monotone] discharge the two interfaces (a commit
      lowers no cell's spare stock and no cell's lack).
    - [Osa] ([computeOSA]): the in-stock and total cell counts and the
      percentage-point difference as an exact rational.
    - [Strconv]: [strings.TrimSpace] (every rune [unicode.IsSpace]
      accepts, ASCII and multi-byte, matched on its UTF-8 bytes),
      [strconv.Atoi] (sign, digits, [ErrSyntax], [ErrRange] on 64
      bits) and [strconv.Itoa], the library functions the parser and
      the writer call.
    - [Int64]: [doExchangeItems] with every [+] and [-] wrapped to Go's
      64-bit [int] ([doExchangeItems_w]), and the whole loop of
      [RunOpti] with its guard [len(mystock)*maxTo], counters and
      progress value on 64 bits ([RunOpti_w]).
    - [Parser] ([ParseFromCSV]): the loop over the CSV reader's results
      ([ReadRecord], [ReadError], [ReadEOF]); the tokenizer is a
      library and its output is the model's input.
    - [Orchestrator] ([RunOpti]): settings defaults, the availability
      and counter matrices, the eligibility filter of the two phases,
      one iteration ([round_with]: reduction, phase switch, break or
      commit with the progress report), the loop on fuel ([run_loop]),
      and [round_step], the iteration as a relation in which a round's
      candidates reach the reducer in any order (a permutation).  The
      theorems of its [Props] section hold for any [PairEvaluator].
    - [Phases]: the phase argument for any evaluator meeting both
      interfaces: the switch leaves every open priority pair below
      [minProducts], and commits keep it so ([phase_inv]).
    - [Race]: the round as the code really runs it, where each of the
      reads of the winner (lines 116, 128, 129, 132) may see the
      reducer's value before or after its last fold ([racy_round],
      [racy_step]; the reducer lags by at most one result because each
      send completes only when it is received), including the panic
      on the nil row of the empty store name.
    - [Cli] ([optiCmd]'s [Run]): flags and their defaults, the output
      path, the rows, the write loop, and the command as a function of
      its file system (read result, create success, per-write success).
    - [Terminal] (the goroutines of [optiCmd]'s [Run], lines 51-69):
      the [RunOpti] goroutine, the progress printer and the main
      goroutine as a step relation with the unbuffered hand-offs, and
      the strings they print ([%d], [%.2f]).
    - [Run]: the theorems about whole runs of [RunOpti] with
      [doExchangeItems] and the concrete runs.

    ** What the theorems show

    - Whole runs ([Run]): stock is conserved; a well-formed input stays
      well formed; every committed transfer is between distinct stores
      and has at least [minProducts] items; no store sends more than
      [maxTo] transfers; no pair is used twice; at most
      [len(stock)*maxTo] transfers; progress values are one per commit,
      non-decreasing, in [0, 100]; the reported OSA lies in
      [-100, 100] because no cell is created or removed; the loop always
      ends within its fuel; in every interleaving the priority-phase
      transfers come first and satisfy the priority filter, and every
      later transfer fails the filter (the spec's phase property); and,
      when
      no store name contains ['-'], every interleaving that ends gives
      the result of the executable model (rounds are deterministic).
      These rest on the invariant [run_inv] of [Orchestrator], proved
      by induction on [round_step] from the start state.  Each round
      commits the winner Go's float64 reducer picks when the admitted
      candidates lie in the [Score] grid without cross ties.  With torn
      reads of the winner ([Race]) only the stock part of the invariant
      survives: stock stays conserved and well formed and runs still end
      within [len(stock)*maxTo + 1] rounds, but a round can panic,
      commit a pair other than the one it marks (a store then exceeds
      [maxTo], example [racy_dup_commit]) or end the run early.  Liveness: under every scheduler a run of
      rounds lasts at most [len(stock)*maxTo + 1] rounds and every
      state it reaches is final or has a next round.
    - Pair evaluation ([Exchange]): the committed transfer lists each
      product with [min(surplus, deficit)] read before it, moves
      exactly that much, and carries the evaluation's counts; the
      evaluation is a dry run; the result does not depend on Go's map
      iteration order.
    - Selection ([Transfer]): the winner is the seed or an admitted
      candidate and no admitted candidate beats it.  In float64
      ([Score]): when the float scores compare equal the smaller key
      wins whichever comes first; when the admitted candidates lie in
      the grid and no two tie exactly at different score points, the
      float64 reducer returns what the exact one returns; on such a tie
      rounding, not the key, decides.
    - Machine integers ([Int64]): on an input whose cells are
      non-negative Go [int]s, with at most [B] items of a product over
      all stores, at most [max_int64 / B] products per store and
      [len(stock)*maxTo*100 <= max_int64], [RunOpti] with every [int]
      operation on 64 bits equals the unbounded model; when
      [len(stock)*maxTo] wraps to a non-positive value the loop never
      runs, and past the item bound [totalCount] wraps negative.
    - Input and output ([Strconv], [Parser], [Cli]): parsing the CSV
      form of a snapshot gives it back; a bad number aborts the read
      with no stock; a short record panics and a header row is skipped
      at any position; the command writes only after a successful parse,
      reports [RunOpti]'s OSA, and writes one row per transferred
      product in commit order; a row reads back as its four fields; a
      failed row write stops the output there, a failed header write is
      not reported; the terminal output is
      exactly one of the listed interleavings: every progress line but
      the last in order before ["Progress: 100%"], the last one
      anywhere after that or lost when the process exits.
    - Concrete behaviours, each an [Example] evaluated by [vm_compute]
      and documenting a finding: the spec's example run and command;
      the tie key collision with ['-'] that makes the winner depend on
      arrival order; an exact tie decided by float64 rounding; a run
      whose OSA decreases; a negative target that drives [Has] negative
      and that the parser accepts; [totalCount] and the loop bound
      wrapping; torn racy rounds; a progress line printed after
      ["Progress: 100%"]; ["OSA increased: +-50.00%"].

    ** Bounds and fuel

    - [run_loop] runs on the fuel [len(stock)*maxTo + 2]: each commit
      raises [loopCounter], which the guard bounds by
      [len(stock)*maxTo], one more iteration switches phase, and the
      last one leaves.  [run_measure] decreases at every round and
      [run_loop_total] proves the fuel is enough for every input.
    - Go [int] is [Z] in the main model.  [Atoi] models the 64-bit
      range, and [Int64] writes the evaluator and the loop with 64-bit
      wrap-around and proves that a run does not overflow under the
      bounds above, which the conserved per-product sums and the loop
      invariant make hold at every round.  [RunOpti_w] uses the same
      fuel: its wrapped guard bound is never above the unbounded one.
    - [TrimSpace] runs on [length s] fuel: each step removes at least
      one byte ([trim_left_enough], [trim_right_enough]).
    - The float64 check of [Score] covers [0 <= OsaImprouve <= 4] and
      [0 <= TotaItemsCount <= 250] (1255 score points, every ordered
      pair compared by [vm_compute]); beyond the grid the agreement is
      not claimed.
    - [utoa] runs on [log2 m + 1] fuel, proved enough.

    ** Modelling choices and what is left out

    - The score of the main model uses the exact weights [99, 1] and
      [Score] relates it to Go's float64 computation (binary64, round
      to nearest, no fused multiply-add, as Go compiles it on amd64;
      arm64 may fuse the multiply-add, which is not modelled);
      [computeOSA] is an exact rational (its float64 value is only
      printed).  Strings are byte strings; [TrimSpace] works on their
      UTF-8 bytes.
    - Concurrency: a round's goroutines only read the stock and their
      results reach the reducer in some order; [round_step] takes every
      order and assumes the reducer has folded every result before the
      winner is read, [racy_step] lets each read of the winner see the
      value before or after the last fold, which is what [time.Sleep]
      without a join allows (a string field is read whole).
    - Not modelled: logging (logrus, also the level set from the
      flag), cobra's flag parsing (the flags are an input), [f.Sync]
      (its result is ignored) and [main.go] (logger set-up and [cmd.Execute] of a root command that
      is not under [src/]).  The dead [exchangeCounterMat] is a
      definition that no iteration reads. *)

From stdpp Require Export base gmap strings list sorting.
From Stdlib Require Export ZArith Lia.

Declare Scope dstock_scope.
Delimit Scope dstock_scope with dstock.
Open Scope Z_scope.

Create HintDb dstock.
Create Rewrite HintDb dstock_rw.

(** Decide the [decide]s of the goal and of the hypotheses, then close
    by arithmetic or first-order reasoning. *)
Ltac dstock_decide :=
  repeat (case_decide; simplify_eq/=); try (by naive_solver lia); try lia.

(** ** Nested maps with Go's zero-value reads *)

Section Nested.
  Context {V : Type} `{Inhabited V}.

  (** [m[i][j]] in Go: the zero value when either key is absent. *)
Definition lookup2_total (i j : string) (m : gmap string (gmap string V)) : V :=
    (m !!! i) !!! j.

  (** The partial read, which distinguishes an absent cell. *)
Definition lookup2 (i j : string) (m : gmap string (gmap string V)) : option V :=
    m !! i ≫= lookup j.

  (** [m[i][j] = v] in Go (the inner map [m[i]] already exists in every
      use the program makes of it). *)
Definition insert2 (i j : string) (v : V) (m : gmap string (gmap string V))
    : gmap string (gmap string V) :=
    <[i := <[j := v]> (m !!! i)]> m.
End Nested.

Notation "m ⟦ i , j ⟧" := (lookup2_total i j m)
  (at level 1, format "m ⟦ i ,  j ⟧") : dstock_scope.
Open Scope dstock_scope.

(** ** Sums of Go integers *)

Definition zsum {A} (f : A → Z) (l : list A) : Z :=
  foldr (λ x acc, f x + acc) 0 l.

(** The sum of [f k v] over the entries of a map (Go's
    [for k, v := range m { acc += f(k, v) }], whatever the order). *)
Definition map_zsum {V} (f : string → V → Z) (m : gmap string V) : Z :=
  zsum (λ kv, f kv.1 kv.2) (map_to_list m).

(** ** Generic lemmas *)

Section Lemmas.
  Context {V : Type} `{Inhabited V}.
  Implicit Types (m : gmap string (gmap string V)).

Lemma lookup2_total_insert2 m i j i' j' v :
    (insert2 i j v m) ⟦ i', j' ⟧ =
      if decide (i = i' ∧ j = j') then v else m ⟦ i', j' ⟧.
  Proof.
    unfold lookup2_total, insert2. rewrite lookup_total_insert.
    destruct (decide (i = i')) as [<-|]; [|case_decide; naive_solver].
    rewrite lookup_total_insert. dstock_decide.
  Qed.

Lemma lookup2_insert2 m i j i' j' v :
    is_Some (m !! i) →
    lookup2 i' j' (insert2 i j v m) =
      if decide (i = i' ∧ j = j') then Some v else lookup2 i' j' m.
  Proof.
    intros [mi Hi]. unfold lookup2, insert2.
    destruct (decide (i = i')) as [<-|Hne].
    - rewrite lookup_insert_eq, Hi. simpl.
      rewrite (lookup_total_correct _ _ _ Hi), lookup_insert.
      dstock_decide.
    - rewrite lookup_insert_ne by done. case_decide; naive_solver.
  Qed.

  (** The same read without knowing that row [i] exists (Go would
      panic on a [nil] row; [insert2] creates it). *)
Lemma lookup2_insert2_any m i j i' j' v :
    lookup2 i' j' (insert2 i j v m) =
      if decide (i = i' ∧ j = j') then Some v else lookup2 i' j' m.
  Proof.
    unfold lookup2, insert2. rewrite lookup_insert.
    destruct (decide (i = i')) as [<-|Hne]; simpl.
    - rewrite lookup_total_alt, lookup_insert.
      destruct (m !! i); simpl; dstock_decide.
    - case_decide; naive_solver.
  Qed.

Lemma insert2_outer_dom m i j v i' :
    is_Some (m !! i) → is_Some (insert2 i j v m !! i') ↔ is_Some (m !! i').
  Proof.
    intros Hi. unfold insert2. rewrite lookup_insert.
    case_decide; subst; naive_solver.
  Qed.

  (** Two nested maps with the same outer keys and the same cells are
      equal (stdpp maps are extensional). *)
Lemma nested_map_eq m1 m2 :
    (∀ i, is_Some (m1 !! i) ↔ is_Some (m2 !! i)) →
    (∀ i j, lookup2 i j m1 = lookup2 i j m2) →
    m1 = m2.
  Proof.
    intros Hdom Hcell. apply map_eq. intros i.
    specialize (Hdom i). unfold lookup2 in Hcell.
    destruct (m1 !! i) as [a|] eqn:E1, (m2 !! i) as [b|] eqn:E2.
    - f_equal. apply map_eq. intros j. specialize (Hcell i j).
      rewrite E1, E2 in Hcell. exact Hcell.
    - destruct Hdom as [Hd _]. destruct Hd; eauto; discriminate.
    - destruct Hdom as [_ Hd]. destruct Hd; eauto; discriminate.
    - reflexivity.
  Qed.
End Lemmas.

Lemma zsum_app {A} (f : A → Z) l1 l2 : zsum f (l1 ++ l2) = zsum f l1 + zsum f l2.
Proof. induction l1; simpl; lia. Qed.

#[export] Instance zsum_perm {A} (f : A → Z) : Proper ((≡ₚ) ==> (=)) (zsum f).
Proof. intros l1 l2 Hp. induction Hp; simpl; lia. Qed.

Lemma zsum_ext {A} (f g : A → Z) l :
  (∀ x, x ∈ l → f x = g x) → zsum f l = zsum g l.
Proof. induction l as [|x l IH]; intros Hfg; simpl; [done|]. rewrite Hfg, IH; set_solver. Qed.

Lemma zsum_nonneg {A} (f : A → Z) l : (∀ x, x ∈ l → 0 <= f x) → 0 <= zsum f l.
Proof.
  induction l as [|x l IH]; intros Hf; simpl; [lia|].
  assert (0 <= f x) by (apply Hf; left).
  assert (0 <= zsum f l) by (apply IH; intros y Hy; apply Hf; by right). lia.
Qed.

(** Overwriting one entry of a map changes its sum by the difference. *)
Lemma map_zsum_insert {V} (f : string → V → Z) (m : gmap string V) k v :
  map_zsum f (<[k := v]> m) =
    map_zsum f m - default 0 (f k <$> m !! k) + f k v.
Proof.
  unfold map_zsum. destruct (m !! k) as [old|] eqn:Hk; simpl.
  - rewrite <- insert_delete_eq.
    rewrite (map_to_list_insert (delete k m)) by apply lookup_delete_eq.
    rewrite <- (map_to_list_delete m k old Hk). simpl. lia.
  - rewrite map_to_list_insert by done. simpl. lia.
Qed.

Lemma map_zsum_ext {V} (f g : string → V → Z) (m : gmap string V) :
  (∀ k v, m !! k = Some v → f k v = g k v) → map_zsum f m = map_zsum g m.
Proof.
  intros Hfg. apply zsum_ext. intros [k v] Hin.
  apply elem_of_map_to_list in Hin. by apply Hfg.
Qed.

Lemma map_zsum_nonneg {V} (f : string → V → Z) (m : gmap string V) :
  (∀ k v, m !! k = Some v → 0 <= f k v) → 0 <= map_zsum f m.
Proof.
  intros Hf. apply zsum_nonneg. intros [k v] Hin.
  apply elem_of_map_to_list in Hin. by apply Hf.
Qed.

(** In a list whose images are pairwise distinct, equal images come
    from equal elements. *)
Lemma NoDup_fmap_eq {A B} (f : A → B) (l : list A) x y :
  NoDup (f <$> l) → x ∈ l → y ∈ l → f x = f y → x = y.
Proof.
  induction l as [|z l IH]; intros Hnd Hx Hy Hf; [set_solver|].
  rewrite fmap_cons, NoDup_cons in Hnd. destruct Hnd as [Hz Hnd].
  apply elem_of_cons in Hx as [->|Hx], Hy as [->|Hy]; auto.
  - destruct Hz. rewrite Hf. apply list_elem_of_fmap. eauto.
  - destruct Hz. rewrite <- Hf. apply list_elem_of_fmap. eauto.
Qed.

(** Along [n] steps of a relation that keeps an invariant and lowers a
    measure on [nat], the invariant holds and [n] plus the measure left
    is at most the measure at the start. *)
Lemma nsteps_measure {A} (R : relation A) (I : A → Prop) (m : A → nat) :
  (∀ x y, I x → R x y → I y ∧ (m y < m x)%nat) →
  ∀ n x y, I x → nsteps R n x y → I y ∧ (n + m y <= m x)%nat.
Proof.
  intros Hstep n x y Hx Hn. revert Hx. induction Hn as [x|n x y z Hxy _ IH]; intros Hx; [split; [done|lia]|].
  destruct (Hstep x y Hx Hxy) as [Hy Hm]. destruct (IH Hy). split; [done|lia].
Qed.

(** A boolean check of every pair of a list, evaluated by computation,
    gives the property of every pair of its members. *)
Lemma forallb_pairs {A} (f : A → A → bool) (l : list A) :
  forallb (λ p, forallb (f p) l) l = true → ∀ p q, p ∈ l → q ∈ l → f p q = true.
Proof.
  rewrite forallb_forall. intros H p q Hp%list_elem_of_In Hq%list_elem_of_In.
  specialize (H p Hp). rewrite forallb_forall in H. by apply H.
Qed.

Lemma zsum_le {A} (f g : A → Z) l : (∀ x, x ∈ l → f x <= g x) → zsum f l <= zsum g l.
Proof.
  induction l as [|x l IH]; intros Hfg; simpl; [lia|].
  assert (f x <= g x) by (apply Hfg; left).
  assert (zsum f l <= zsum g l) by (apply IH; intros y Hy; apply Hfg; by right). lia.
Qed.

Lemma map_zsum_le {V} (f g : string → V → Z) (m : gmap string V) :
  (∀ k v, m !! k = Some v → f k v <= g k v) → map_zsum f m <= map_zsum g m.
Proof.
  intros Hfg. apply zsum_le. intros [k v] Hin.
  apply elem_of_map_to_list in Hin. by apply Hfg.
Qed.

(** Two maps with the same keys whose entries contribute pairwise the
    same amount have the same sum. *)
Lemma map_zsum_same_dom {A B} (f : string → A → Z) (g : string → B → Z)
    (m1 : gmap string A) (m2 : gmap string B) :
  (∀ k, is_Some (m1 !! k) ↔ is_Some (m2 !! k)) →
  (∀ k x y, m1 !! k = Some x → m2 !! k = Some y → f k x = g k y) →
  map_zsum f m1 = map_zsum g m2.
Proof.
  revert m2. induction m1 as [|k x m1 Hk IH] using map_ind; intros m2 Hdom Hfg.
  - assert (m2 = ∅) as ->; [|done].
    apply map_empty. intros k. apply eq_None_not_Some. rewrite <- Hdom, lookup_empty.
    by intros [? ?].
  - destruct (proj1 (Hdom k)) as [y Hy]; [by rewrite lookup_insert_eq|].
    rewrite <- (insert_delete_id m2 k y Hy), !map_zsum_insert, Hk, lookup_delete_eq. simpl.
    rewrite (Hfg k x y), (IH (delete k m2)); [lia| | |by rewrite lookup_insert_eq|done].
    + intros k'. destruct (decide (k = k')) as [<-|Hne].
      * rewrite Hk, lookup_delete_eq. split; by intros [? ?].
      * rewrite lookup_delete_ne, <- Hdom, lookup_insert_ne; done.
    + intros k' x' y' H1 H2. destruct (decide (k = k')) as [<-|Hne]; [congruence|].
      apply Hfg; [by rewrite lookup_insert_ne|]. by rewrite lookup_delete_ne in H2.
Qed.

(** One entry of a map of non-negative terms is at most their sum. *)
Lemma map_zsum_elem_le {V} (f : string → V → Z) (m : gmap string V) k v :
  (∀ k' v', m !! k' = Some v' → 0 <= f k' v') → m !! k = Some v → f k v <= map_zsum f m.
Proof.
  intros Hf Hk. rewrite <- (insert_delete_id m k v Hk), map_zsum_insert, lookup_delete_eq. simpl.
  assert (0 <= map_zsum f (delete k m)); [|lia].
  apply map_zsum_nonneg. intros k' v' Hk'. apply (Hf k'). by apply lookup_delete_Some in Hk' as [_ ?].
Qed.

(** A sum of terms each at most [b]. *)
Lemma zsum_le_const {A} (f : A → Z) l b : (∀ x, x ∈ l → f x <= b) → zsum f l <= Z.of_nat (length l) * b.
Proof.
  intros Hf. transitivity (zsum (λ _, b) l); [by apply zsum_le|].
  clear Hf. induction l as [|x l IH]; simpl; [lia|]. rewrite Nat2Z.inj_succ. nia.
Qed.

#[export] Hint Resolve zsum_nonneg map_zsum_nonneg : dstock.
#[export] Hint Rewrite @zsum_app @lookup2_total_insert2 : dstock_rw.

