(* ===== verification/Stock.v ===== *)
(** * Stock: the inventory snapshot ([src/stockparser/stockparser.go])

    [StockItem {Has; Needs}] and [StockMatrix = map[store]map[product]
    StockItem], Go's zero-value read [stock[store][product]], the write
    [stock[store][product] = item], the total of a product over all
    stores, the well-formedness invariant and the deep copy made at the
    start of [RunOpti]. *)

From S2P Require Import Prelude.

Module Stock.

  (** [type StockItem struct { Has int; Needs int }] *)
Record StockItem := mkStockItem { Has : Z; Needs : Z }.

  (** Go's zero value [StockItem{}]. *)
#[export] Instance StockItem_inhabited : Inhabited StockItem :=
    populate (mkStockItem 0 0).

#[export] Instance StockItem_eq_dec : EqDecision StockItem.
  Proof. solve_decision. Qed.

  (** [type StockMatrix map[string]map[string]StockItem] *)
Abbreviation StockMatrix := (gmap string (gmap string StockItem)).

  (** [stock[store][product]]: the zero item when absent. *)
Definition item_at (s : StockMatrix) (store product : string) : StockItem :=
    s ⟦ store, product ⟧.

  (** [Has - Needs]: positive is a surplus, negative a deficit. *)
Definition surplus (it : StockItem) : Z := Has it - Needs it.

  (** [stock[store][product] = item]. *)
Definition set_item (s : StockMatrix) (store product : string) (it : StockItem)
    : StockMatrix := insert2 store product it s.

  (** The quantity of [product] held over all stores. *)
Definition stock_sum (product : string) (s : StockMatrix) : Z :=
    map_zsum (λ _ inner, Has (inner !!! product)) s.

  (** Every recorded [Has] and [Needs] is non-negative (the snapshot
      the spec describes; the parser does not enforce it). *)
Definition stock_wf (s : StockMatrix) : Prop :=
    map_Forall (λ _ inner, map_Forall (λ _ it, 0 <= Has it ∧ 0 <= Needs it) inner) s.

#[export] Instance stock_wf_dec s : Decision (stock_wf s).
  Proof. unfold stock_wf. apply _. Defined.

  (** The deep copy of [RunOpti] ([mystock[k][kk] = StockItem{Has:
      vv.Has, Needs: vv.Needs}]). *)
Definition copy_stock (s : StockMatrix) : StockMatrix :=
    (λ inner : gmap string StockItem, (λ vv, mkStockItem (Has vv) (Needs vv)) <$> inner) <$> s.

  (** ** Lemmas *)

Lemma item_at_set_item s st p st' p' it :
    item_at (set_item s st p it) st' p' =
      if decide (st = st' ∧ p = p') then it else item_at s st' p'.
  Proof. apply lookup2_total_insert2. Qed.

Lemma item_at_lookup2 s st p it :
    lookup2 st p s = Some it → item_at s st p = it.
  Proof.
    unfold item_at, lookup2, lookup2_total. intros H.
    destruct (s !! st) as [inner|] eqn:E; [|discriminate]. simpl in H.
    by rewrite (lookup_total_correct _ _ _ E), (lookup_total_correct _ _ _ H).
  Qed.

Lemma item_at_absent s st p :
    lookup2 st p s = None → item_at s st p = mkStockItem 0 0.
  Proof.
    unfold item_at, lookup2, lookup2_total. intros H.
    destruct (s !! st) as [inner|] eqn:E; simpl in H.
    - by rewrite (lookup_total_correct _ _ _ E), lookup_total_alt, H.
    - rewrite !lookup_total_alt, E. simpl. by rewrite lookup_empty.
  Qed.

Lemma stock_sum_set_item s st p p' it :
    is_Some (s !! st) →
    stock_sum p' (set_item s st p it) =
      stock_sum p' s - Has (item_at s st p') +
      Has (item_at (set_item s st p it) st p').
  Proof.
    intros [inner Hin]. unfold stock_sum, set_item, insert2.
    rewrite map_zsum_insert, Hin. simpl.
    unfold item_at, lookup2_total.
    rewrite (lookup_total_correct _ _ _ Hin), lookup_total_insert_eq.
    reflexivity.
  Qed.

Lemma stock_wf_lookup2 s st p it :
    stock_wf s → lookup2 st p s = Some it → 0 <= Has it ∧ 0 <= Needs it.
  Proof.
    unfold stock_wf, lookup2. intros Hwf H.
    destruct (s !! st) as [inner|] eqn:E; [|discriminate]. simpl in H.
    exact (Hwf st inner E p it H).
  Qed.

Lemma stock_wf_item_at s st p :
    stock_wf s → 0 <= Has (item_at s st p) ∧ 0 <= Needs (item_at s st p).
  Proof.
    intros Hwf. destruct (lookup2 st p s) as [it|] eqn:E.
    - rewrite (item_at_lookup2 _ _ _ _ E). by eapply stock_wf_lookup2.
    - rewrite (item_at_absent _ _ _ E). simpl. lia.
  Qed.

Lemma stock_wf_set_item s st p it :
    stock_wf s → 0 <= Has it → 0 <= Needs it → stock_wf (set_item s st p it).
  Proof.
    unfold stock_wf, set_item, insert2, lookup2_total. intros Hwf Hh Hn.
    apply map_Forall_insert_2; [|done].
    apply map_Forall_insert_2; [done|].
    rewrite lookup_total_alt. destruct (s !! st) as [inner|] eqn:E; simpl.
    - exact (Hwf st inner E).
    - apply map_Forall_empty.
  Qed.

Lemma set_item_outer_dom s st p it st' :
    is_Some (s !! st) → is_Some (set_item s st p it !! st') ↔ is_Some (s !! st').
  Proof. apply insert2_outer_dom. Qed.

Lemma lookup2_set_item s st p it st' p' :
    is_Some (s !! st) →
    lookup2 st' p' (set_item s st p it) =
      if decide (st = st' ∧ p = p') then Some it else lookup2 st' p' s.
  Proof. apply lookup2_insert2. Qed.

Lemma copy_stock_id s : copy_stock s = s.
  Proof.
    unfold copy_stock. rewrite <- (map_fmap_id s) at 2. apply map_fmap_ext.
    intros st inner _. rewrite <- (map_fmap_id inner) at 2. apply map_fmap_ext.
    by intros ? [] _.
  Qed.

End Stock.

Export Stock.
#[export] Hint Resolve stock_wf_set_item stock_wf_item_at : dstock.
