(* ===== verification/Transfer.v ===== *)
(** * Transfer: the transfer records, the settings and the selector

    [src/opti/transfer.go] and [src/opti/settings.go] give the records;
    [determineBestTransfer] ([src/opti/opti.go]) picks the better of two
    transfers; the reducer goroutine of a round of [RunOpti] folds it
    over the candidates that arrive on the channel.  The theorems show
    that the fold returns a best candidate, that ties go to the smaller
    key, and that the arrival order does not matter when the keys of
    the candidates are pairwise distinct (and that it does matter when
    two pairs share a key). *)

From Stdlib Require Import Ascii.
From S2P Require Import Prelude Stock.

(** [type TransferedProduct struct { Product string; Quant int }] *)
Record TransferedProduct := mkTransferedProduct { Product : string; Quant : Z }.

(** [type Transfer struct {...}] *)
Record Transfer := mkTransfer {
  FromStore : string;
  ToStore : string;
  Products : list TransferedProduct;
  TotaItemsCount : Z;
  OsaImprouve : Z
}.

(** [type Settings struct {...}] *)
Record Settings := mkSettings {
  MaxTo : Z;
  MinProducts : Z;
  SecureStockIn : list string;
  DeStockIn : list string
}.

#[export] Instance TransferedProduct_eq_dec : EqDecision TransferedProduct.
Proof. solve_decision. Defined.
#[export] Instance Transfer_eq_dec : EqDecision Transfer.
Proof. solve_decision. Defined.

(** Go's zero value [Transfer{}], the seed of the reducer. *)
Definition zero_transfer : Transfer := mkTransfer "" "" [] 0 0.

(** ** The contract of the pair evaluator

    [RunOpti] calls [doExchangeItems(stock, settings, store1, store2,
    alterStock)] to evaluate a pair and to commit the winner.  Its
    results are a new stock (Go mutates the map in place) and a
    [Transfer].  The orchestrator is proved against this contract;
    [Exchange] proves that [doExchangeItems] meets it. *)

Abbreviation Evaluator :=
  (StockMatrix → Settings → string → string → bool → StockMatrix * Transfer).

Class PairEvaluator (ev : Evaluator) := {
  pe_ends σ set a b alt :
    FromStore (ev σ set a b alt).2 = a ∧ ToStore (ev σ set a b alt).2 = b;
  pe_read_only σ set a b : (ev σ set a b false).1 = σ;
  pe_commit_counts σ set a b : a ≠ b →
    TotaItemsCount (ev σ set a b true).2 = TotaItemsCount (ev σ set a b false).2;
  pe_conserves σ set a b p : a ≠ b →
    stock_sum p (ev σ set a b true).1 = stock_sum p σ;
  pe_wf σ set a b : a ≠ b → stock_wf σ → stock_wf (ev σ set a b true).1;
  pe_stores σ set a b st : a ≠ b →
    is_Some ((ev σ set a b true).1 !! st) ↔ is_Some (σ !! st);
  pe_cells σ set a b st p : a ≠ b →
    is_Some (lookup2 st p (ev σ set a b true).1) ↔ is_Some (lookup2 st p σ)
}.

  (** What the phase argument needs besides [PairEvaluator]: an
      evaluation never reports a negative OSA gain, and a commit never
      makes another evaluation count more items (the surpluses and
      deficits it leaves are at most those it found). *)
Class PairMonotone (ev : Evaluator) := {
  pm_osa_nonneg σ set a b : 0 <= OsaImprouve (ev σ set a b false).2;
  pm_counts σ set a b s1 s2 : a ≠ b →
    TotaItemsCount (ev (ev σ set a b true).1 set s1 s2 false).2 <=
    TotaItemsCount (ev σ set s1 s2 false).2
}.

Module Selector.

  (** The weights [[]float64{0.99, 0.01}] scaled by 100. *)
Definition best_order : Z * Z := (99, 1).

  (** [float64(t.OsaImprouve)*order[0] + float64(t.TotaItemsCount)*order[1]] *)
Definition score (order : Z * Z) (t : Transfer) : Z :=
    OsaImprouve t * order.1 + TotaItemsCount t * order.2.

  (** [t.FromStore + "-" + t.ToStore] *)
Definition transfer_key (t : Transfer) : string :=
    (FromStore t +:+ "-" +:+ ToStore t)%string.

  (** [determineBestTransfer old new order] (opti.go 161-173). *)
Definition determineBestTransfer (old new : Transfer) (order : Z * Z) : Transfer :=
    let oldScore := score order old in
    let newScore := score order new in
    if newScore >? oldScore then new
    else if newScore =? oldScore then
      if negb (String.leb (transfer_key old) (transfer_key new)) then new else old
    else old.

  (** The body of the reducer goroutine for one received transfer. *)
Definition reduce_step (minProducts : Z) (order : Z * Z) (acc t : Transfer) : Transfer :=
    if minProducts <=? TotaItemsCount t then determineBestTransfer acc t order else acc.

  (** The reducer goroutine of a round (opti.go 99-106): the fold, in
      arrival order, seeded with [Transfer{}]. *)
Definition reduce_candidates (minProducts : Z) (order : Z * Z) (arrivals : list Transfer)
    : Transfer :=
    fold_left (reduce_step minProducts order) arrivals zero_transfer.

  (** The candidates the reducer folds (those with enough items). *)
Definition admitted (minProducts : Z) (arrivals : list Transfer) : list Transfer :=
    filter (λ t, minProducts <= TotaItemsCount t) arrivals.

  (** ** The preference behind [determineBestTransfer] *)

  Section Preference.
    Context (order : Z * Z).

    (** [a] is strictly preferred to [b]. *)
Definition better (a b : Transfer) : Prop :=
      score order b < score order a ∨
      (score order a = score order b ∧ ¬ String.le (transfer_key b) (transfer_key a)).

#[local] Instance better_dec a b : Decision (better a b).
    Proof. unfold better. apply _. Defined.

Lemma determineBestTransfer_better old new :
      determineBestTransfer old new order = if decide (better new old) then new else old.
    Proof.
      unfold determineBestTransfer. case_decide as Hb; unfold better, String.le in Hb;
        destruct (Z.gtb_spec (score order new) (score order old));
        destruct (Z.eqb_spec (score order new) (score order old));
        destruct (String.leb (transfer_key old) (transfer_key new)) eqn:E;
        simpl; naive_solver lia.
    Qed.

Lemma better_irrefl a : ¬ better a a.
    Proof. unfold better. intros [H|[_ H]]; [lia|]. apply H. reflexivity. Qed.

Lemma better_trans a b c : better a b → better b c → better a c.
    Proof.
      unfold better. intros [H1|[H1 H1']] [H2|[H2 H2']]; [lia|lia|lia|].
      right. split; [lia|]. intros Hle. apply H2'.
      etrans; [exact Hle|]. by destruct (String.le_total (transfer_key b) (transfer_key a)).
    Qed.

    (** Two transfers neither of which is preferred have the same score
        and the same key. *)
Lemma not_better_both a b :
      ¬ better a b → ¬ better b a →
      score order a = score order b ∧ transfer_key a = transfer_key b.
    Proof.
      unfold better. intros Hab Hba. split; [lia|].
      destruct (decide (String.le (transfer_key b) (transfer_key a)));
        [|exfalso; apply Hab; right; split; [lia|done]].
      destruct (decide (String.le (transfer_key a) (transfer_key b)));
        [|exfalso; apply Hba; right; split; [lia|done]].
      by apply (anti_symm String.le).
    Qed.
  End Preference.

#[export] Hint Resolve better_irrefl better_trans : dstock.

  (** The invariant of the fold: the accumulator belongs to the seen
      transfers and none of them is preferred to it. *)
Lemma fold_reduce_step_max minP order arrivals acc seen :
    acc ∈ seen → (∀ x, x ∈ seen → ¬ better order x acc) →
    let r := fold_left (reduce_step minP order) arrivals acc in
    r ∈ seen ++ admitted minP arrivals ∧
    ∀ x, x ∈ seen ++ admitted minP arrivals → ¬ better order x r.
  Proof.
    revert acc seen. induction arrivals as [|t arrivals IH]; intros acc seen Hin Hmax; simpl.
    { rewrite app_nil_r. auto. }
    unfold admitted in *. rewrite filter_cons.
    destruct (decide (minP <= TotaItemsCount t)) as [Hle|Hlt].
    - assert (Hstep : reduce_step minP order acc t =
                      if decide (better order t acc) then t else acc).
      { unfold reduce_step. rewrite (proj2 (Z.leb_le _ _) Hle).
        apply determineBestTransfer_better. }
      rewrite Hstep, cons_middle, app_assoc. apply IH; case_decide as Hb.
      + set_solver.
      + set_solver.
      + intros x Hx. apply elem_of_app in Hx as [Hx|Hx%list_elem_of_singleton].
        * intros Hxt. eapply Hmax; [exact Hx|]. eauto using better_trans.
        * subst. apply better_irrefl.
      + intros x Hx. apply elem_of_app in Hx as [Hx|Hx%list_elem_of_singleton]; [auto|by subst].
    - assert (Hstep : reduce_step minP order acc t = acc).
      { unfold reduce_step. by rewrite (proj2 (Z.leb_gt _ _)) by lia. }
      rewrite Hstep. by apply IH.
  Qed.

  (** The winner of a round is the seed or an admitted candidate, and
      no admitted candidate is strictly better. *)
Lemma reduce_candidates_spec minP order arrivals :
    let r := reduce_candidates minP order arrivals in
    r ∈ zero_transfer :: admitted minP arrivals ∧
    ∀ x, x ∈ zero_transfer :: admitted minP arrivals → ¬ better order x r.
  Proof.
    apply (fold_reduce_step_max minP order arrivals zero_transfer [zero_transfer]).
    - by left.
    - intros x ->%list_elem_of_singleton. apply better_irrefl.
  Qed.

  (** The reducer picks a best candidate.  The winner of a round is
      the seed [Transfer{}] or a candidate with at least [minProducts]
      items; every such candidate scores at most as much as the winner,
      and one with the same score has a key no smaller than the
      winner's. *)
Theorem reduce_candidates_winner minP order arrivals :
    let r := reduce_candidates minP order arrivals in
    (r = zero_transfer ∨ (r ∈ arrivals ∧ minP <= TotaItemsCount r)) ∧
    ∀ x, x ∈ arrivals → minP <= TotaItemsCount x →
      score order x <= score order r ∧
      (score order x = score order r → String.le (transfer_key r) (transfer_key x)).
  Proof.
    destruct (reduce_candidates_spec minP order arrivals) as [Hin Hmax]. split.
    - apply elem_of_cons in Hin as [->|Hin]; [by left|right].
      by apply list_elem_of_filter in Hin as [? ?].
    - intros x Hx Hle. assert (Hnb : ¬ better order x (reduce_candidates minP order arrivals)).
      { apply Hmax, elem_of_cons. right. by apply list_elem_of_filter. }
      unfold better in Hnb. split; [lia|].
      intros Heq. destruct (decide (String.le (transfer_key (reduce_candidates minP order arrivals)) (transfer_key x))); [done|].
      exfalso. apply Hnb. by right.
  Qed.

  (** Two transfers of a list with pairwise distinct keys that are both
      unbeaten in it are the same transfer. *)
Lemma unbeaten_unique order (S : list Transfer) a b :
    NoDup (transfer_key <$> S) → a ∈ S → b ∈ S →
    (∀ x, x ∈ S → ¬ better order x a) → (∀ x, x ∈ S → ¬ better order x b) → a = b.
  Proof.
    intros Hnd Ha Hb Hma Hmb.
    destruct (not_better_both order a b (Hmb a Ha) (Hma b Hb)) as [_ Hk].
    by apply (NoDup_fmap_eq transfer_key S).
  Qed.

Lemma admitted_perm minP a1 a2 : a1 ≡ₚ a2 → admitted minP a1 ≡ₚ admitted minP a2.
  Proof. intros Hp. unfold admitted. by rewrite Hp. Qed.

  (** Deterministic reduction.  When the seed and the admitted
      candidates have pairwise distinct keys, the winner of the reducer
      does not depend on the order in which the concurrent evaluations
      deliver their results. *)
Theorem reduce_candidates_perm minP order a1 a2 :
    a1 ≡ₚ a2 →
    NoDup (transfer_key <$> zero_transfer :: admitted minP a1) →
    reduce_candidates minP order a1 = reduce_candidates minP order a2.
  Proof.
    intros Hp Hnd.
    destruct (reduce_candidates_spec minP order a1) as [Hin1 Hmax1].
    destruct (reduce_candidates_spec minP order a2) as [Hin2 Hmax2].
    assert (Hs : zero_transfer :: admitted minP a2 ≡ₚ zero_transfer :: admitted minP a1)
      by (f_equiv; symmetry; by apply admitted_perm).
    apply (unbeaten_unique order (zero_transfer :: admitted minP a1)); [done|done| |done|].
    - by rewrite <- Hs.
    - intros x Hx. apply Hmax2. by rewrite Hs.
  Qed.

  (** The tie-break.  Of two transfers with the same score and
      different keys, [determineBestTransfer] returns the one with the
      smaller key, whichever is passed first. *)
Theorem determineBestTransfer_tie order a b :
    score order a = score order b →
    String.le (transfer_key a) (transfer_key b) →
    transfer_key a ≠ transfer_key b →
    determineBestTransfer a b order = a ∧ determineBestTransfer b a order = a.
  Proof.
    intros Hs Hle Hne. rewrite !determineBestTransfer_better.
    split; case_decide as Hb; auto; unfold better in Hb.
    - exfalso. destruct Hb as [Hb|[_ Hb]]; [lia|done].
    - exfalso. apply Hb. right. split; [lia|]. intros Hba. apply Hne.
      by apply (anti_symm String.le).
  Qed.

  (** ** Keys of store pairs *)

  (** A store name containing no ['-']. *)
Fixpoint has_dash (s : string) : bool :=
    match s with
    | EmptyString => false
    | String c s' => Ascii.eqb c "-"%char || has_dash s'
    end.

Lemma key_inj f1 t1 f2 t2 :
    has_dash f1 = false → has_dash f2 = false →
    (f1 +:+ "-" +:+ t1 = f2 +:+ "-" +:+ t2)%string → f1 = f2 ∧ t1 = t2.
  Proof.
    revert f2. induction f1 as [|c1 f1 IH]; intros [|c2 f2] H1 H2 Heq; simpl in *.
    - by injection Heq.
    - injection Heq as <- _. by rewrite Ascii.eqb_refl in H2.
    - injection Heq as -> _. by rewrite Ascii.eqb_refl in H1.
    - apply orb_false_iff in H1 as [_ H1], H2 as [_ H2].
      injection Heq as <- Heq. destruct (IH f2 H1 H2 Heq) as [-> ->]. done.
  Qed.

  (** The key of a pair of distinct stores is never the seed's key. *)
Lemma key_not_seed t : FromStore t ≠ ToStore t → transfer_key t ≠ transfer_key zero_transfer.
  Proof.
    unfold transfer_key. destruct t as [[|c f] [|d g] ????]; simpl; try congruence.
    - intros _ [=].
    - intros _ [= _ H]. by destruct f.
    - intros _ [= _ H]. by destruct f.
  Qed.

(** ** Concrete cases *)

Definition t_ab_c : Transfer := mkTransfer "a-b" "c" [] 1 0.
Definition t_a_bc : Transfer := mkTransfer "a" "b-c" [] 1 0.
Definition t_paris : Transfer := mkTransfer "Bucharest" "Paris" [] 6 1.
Definition t_lyon : Transfer := mkTransfer "Bucharest" "Lyon" [] 6 1.

(** The tie-break key ["from-to"] is not injective when store names
    contain a dash: two candidates with the same score and the same key
    make the winner of a round depend on the order in which the
    goroutines deliver them. *)
Example reduce_candidates_order_dependent :
  reduce_candidates 1 best_order [t_ab_c; t_a_bc] = t_ab_c ∧
  reduce_candidates 1 best_order [t_a_bc; t_ab_c] = t_a_bc.
Proof. vm_compute. split; reflexivity. Qed.


End Selector.

Export Selector.
