(* ===== verification/Score.v ===== *)
(** * Score: [determineBestTransfer] in float64

    [determineBestTransfer] (opti.go 161-173) computes its scores in
    float64: [float64(t.OsaImprouve)*0.99 + float64(t.TotaItemsCount)*0.01],
    each product and the sum rounded to the nearest double.  The
    selector of [Transfer.v] works with the exact scaled score
    [99*osa + count].  This file models the float64 computation with the
    kernel's primitive floats (IEEE 754 binary64, round to nearest even,
    as Go on amd64 computes it: no fused multiply-add) and relates the
    two: on every pair of transfers whose counts lie in the bounded grid
    [0 <= OsaImprouve <= 4], [0 <= TotaItemsCount <= 250] the float64
    selector picks what the exact one picks, except on a tie of the
    exact scores between different score points.  There they differ:
    float64 decides by rounding where the exact model decides by key.
    Lifted to the reducer goroutine: on candidates in the grid without
    such ties the float64 reducer returns the exact reducer's winner.
    When the two float64 scores compare equal, the smaller key wins in
    either argument order ([determineBestTransfer_f64_tie]). *)

From Corelib Require Import PrimFloat PrimInt63.
From Corelib Require SpecFloat FloatOps FloatAxioms.
From Stdlib Require Import Uint63.
From S2P Require Import Prelude Transfer.

Local Set Warnings "-inexact-float".

Module Score.

  (** [float64(i)] for a Go [int] [i] (|i| < 2^63): exact below 2^53,
      rounded to nearest above, as the conversion does. *)
Definition float_of_int (i : Z) : float :=
    if i <? 0 then PrimFloat.opp (of_uint63 (Uint63.of_Z (- i))) else of_uint63 (Uint63.of_Z i).

  (** The weights [[]float64{0.99, 0.01}] of the call (opti.go 103), each
      literal rounded to the nearest double. *)
Definition order_f64 : float * float := (0.99, 0.01)%float.

  (** [float64(t.OsaImprouve)*order[0] + float64(t.TotaItemsCount)*order[1]] *)
Definition score_f64 (order : float * float) (t : Transfer) : float :=
    (float_of_int (OsaImprouve t) * order.1 + float_of_int (TotaItemsCount t) * order.2)%float.

  (** [determineBestTransfer old new order] (opti.go 161-173) in float64:
      [newScore > oldScore] is [oldScore < newScore], [==] is the float
      equality. *)
Definition determineBestTransfer_f64 (old new : Transfer) (order : float * float) : Transfer :=
    let oldScore := score_f64 order old in
    let newScore := score_f64 order new in
    if PrimFloat.ltb oldScore newScore then new
    else if PrimFloat.eqb newScore oldScore then
      if negb (String.leb (transfer_key old) (transfer_key new)) then new else old
    else old.

  (** ** The bounded grid of score points and its exhaustive check *)

  (** The score point of a transfer. *)
Definition point (t : Transfer) : Z * Z := (OsaImprouve t, TotaItemsCount t).

Definition point_f64 (p : Z * Z) : float :=
    (float_of_int p.1 * order_f64.1 + float_of_int p.2 * order_f64.2)%float.

Definition point_exact (p : Z * Z) : Z := p.1 * best_order.1 + p.2 * best_order.2.

Definition zrange (n : nat) : list Z := Z.of_nat <$> seq 0 n.

  (** The points [0 <= osa <= 4], [0 <= count <= 250]. *)
Definition grid : list (Z * Z) := zrange 5 ≫= λ a, (λ b, (a, b)) <$> zrange 251.

  (** The float comparison of two points agrees with the exact one when
      the exact scores differ, and sees equal floats on equal points. *)
Definition pair_agrees (p q : Z * Z) : bool :=
    if point_exact p <? point_exact q then
      PrimFloat.ltb (point_f64 p) (point_f64 q) && negb (PrimFloat.ltb (point_f64 q) (point_f64 p)) &&
      negb (PrimFloat.eqb (point_f64 q) (point_f64 p)) && negb (PrimFloat.eqb (point_f64 p) (point_f64 q))
    else if bool_decide (p = q) then
      PrimFloat.eqb (point_f64 p) (point_f64 p) && negb (PrimFloat.ltb (point_f64 p) (point_f64 p))
    else true.

  (** The check of every pair of the grid, by evaluation (stated as the
      [forallb] itself: unfolding a name for it would let unification
      evaluate the floats lazily). *)
Lemma grid_agrees_true : forallb (λ p, forallb (pair_agrees p) grid) grid = true.
  Proof. vm_compute. reflexivity. Qed.

Lemma elem_of_zrange n x : 0 <= x < Z.of_nat n → x ∈ zrange n.
  Proof.
    intros Hx. apply list_elem_of_fmap. exists (Z.to_nat x).
    split; [lia|]. apply elem_of_seq. lia.
  Qed.

Lemma elem_of_grid a b : 0 <= a <= 4 → 0 <= b <= 250 → (a, b) ∈ grid.
  Proof.
    intros Ha Hb. apply list_elem_of_bind. exists a.
    split; [apply list_elem_of_fmap; exists b; split; [done|]|]; apply elem_of_zrange; lia.
  Qed.

Lemma pair_agrees_grid p q : p ∈ grid → q ∈ grid → pair_agrees p q = true.
  Proof. exact (forallb_pairs pair_agrees grid grid_agrees_true p q). Qed.

Lemma score_point t : score_f64 order_f64 t = point_f64 (point t) ∧ score best_order t = point_exact (point t).
  Proof. done. Qed.

  (** A transfer whose counts lie in the grid. *)
Definition in_grid (t : Transfer) : Prop :=
    0 <= OsaImprouve t <= 4 ∧ 0 <= TotaItemsCount t <= 250.

Lemma point_in_grid t : in_grid t → point t ∈ grid.
  Proof. intros [??]. by apply elem_of_grid. Qed.

Lemma pair_agrees_lt p q : p ∈ grid → q ∈ grid → point_exact p < point_exact q →
    PrimFloat.ltb (point_f64 p) (point_f64 q) = true ∧ PrimFloat.ltb (point_f64 q) (point_f64 p) = false ∧
    PrimFloat.eqb (point_f64 q) (point_f64 p) = false ∧ PrimFloat.eqb (point_f64 p) (point_f64 q) = false.
  Proof.
    intros Hp Hq Hlt. pose proof (pair_agrees_grid p q Hp Hq) as H. unfold pair_agrees in H.
    apply Z.ltb_lt in Hlt. rewrite Hlt in H. repeat (apply andb_prop in H as [H ?%negb_true_iff]).
    auto.
  Qed.

Lemma pair_agrees_refl p : p ∈ grid →
    PrimFloat.eqb (point_f64 p) (point_f64 p) = true ∧ PrimFloat.ltb (point_f64 p) (point_f64 p) = false.
  Proof.
    intros Hp. pose proof (pair_agrees_grid p p Hp Hp) as H. unfold pair_agrees in H.
    rewrite Z.ltb_irrefl, bool_decide_eq_true_2 in H by done.
    apply andb_prop in H as [? ?%negb_true_iff]. auto.
  Qed.

  (** ** The two selectors agree away from ties *)

  (** On transfers whose counts lie in the grid, the float64
      [determineBestTransfer] returns what the exact selector returns,
      unless the exact scores tie at different score points. *)
Lemma determineBestTransfer_f64_agrees old new :
    in_grid old → in_grid new →
    score best_order old ≠ score best_order new ∨ point old = point new →
    determineBestTransfer_f64 old new order_f64 = determineBestTransfer old new best_order.
  Proof.
    intros Ho%point_in_grid Hn%point_in_grid Hcase.
    unfold determineBestTransfer_f64, determineBestTransfer. rewrite !(proj1 (score_point _)), !(proj2 (score_point _)).
    destruct (Z.lt_trichotomy (point_exact (point old)) (point_exact (point new))) as [Hlt|[Heq|Hgt]].
    - destruct (pair_agrees_lt _ _ Ho Hn Hlt) as (-> & _).
      by replace (_ >? _) with true by lia.
    - destruct Hcase as [Hne|Hpt]; [rewrite !(proj2 (score_point _)) in Hne; congruence|].
      rewrite Hpt. destruct (pair_agrees_refl _ Hn) as [-> ->].
      by rewrite Z.gtb_ltb, Z.ltb_irrefl, Z.eqb_refl.
    - destruct (pair_agrees_lt _ _ Hn Ho Hgt) as (_ & -> & _ & ->).
      by replace (_ >? _) with false by lia; replace (_ =? _) with false by lia.
  Qed.

  (** ** The reducer in float64 *)

  (** The reducer goroutine's body (opti.go 99-106) with the float64
      selector. *)
Definition reduce_step_f64 (minProducts : Z) (order : float * float) (acc t : Transfer) : Transfer :=
    if minProducts <=? TotaItemsCount t then determineBestTransfer_f64 acc t order else acc.

Definition reduce_candidates_f64 (minProducts : Z) (order : float * float) (arrivals : list Transfer)
    : Transfer :=
    fold_left (reduce_step_f64 minProducts order) arrivals zero_transfer.

  (** Transfers of [pool] with the same exact score have the same score
      point. *)
Definition no_cross_tie (pool : list Transfer) : Prop :=
    ∀ a b, a ∈ pool → b ∈ pool → score best_order a = score best_order b → point a = point b.

Lemma determineBestTransfer_either old new :
    determineBestTransfer old new best_order = old ∨ determineBestTransfer old new best_order = new.
  Proof. rewrite determineBestTransfer_better. case_decide; auto. Qed.

  (** A grid transfer ties the seed [Transfer{}] only at its point. *)
Lemma zero_tie t : in_grid t → score best_order zero_transfer = score best_order t →
    point zero_transfer = point t.
  Proof. intros [??]. unfold score, point. simpl. intros ?. f_equal; lia. Qed.

  (** The two folds agree while the accumulator and every admitted
      arrival stay in a pool of grid transfers without cross ties. *)
Lemma fold_reduce_f64 minP pool arrivals acc :
    (∀ x, x ∈ pool → in_grid x) → no_cross_tie pool → acc ∈ pool →
    (∀ t, t ∈ arrivals → minP <= TotaItemsCount t → t ∈ pool) →
    fold_left (reduce_step_f64 minP order_f64) arrivals acc =
    fold_left (reduce_step minP best_order) arrivals acc.
  Proof.
    intros Hgrid Htie. revert acc. induction arrivals as [|t arr IH]; intros acc Hacc Hadm; [done|].
    simpl. unfold reduce_step_f64 at 2, reduce_step at 2.
    destruct (Z.leb_spec minP (TotaItemsCount t)) as [Hm|]; [|apply IH; [done|set_solver]].
    assert (Ht : t ∈ pool) by (apply Hadm; [left|done]).
    rewrite determineBestTransfer_f64_agrees by
      (auto; destruct (decide (score best_order acc = score best_order t)); auto).
    apply IH; [|set_solver]. by destruct (determineBestTransfer_either acc t) as [-> | ->].
  Qed.

  (** The two reducers agree on admitted grid candidates without cross
      ties (shared by the refinement and the round theorems). *)
Lemma reduce_f64_exact minP arrivals :
    Forall in_grid (admitted minP arrivals) → no_cross_tie (admitted minP arrivals) →
    reduce_candidates_f64 minP order_f64 arrivals = reduce_candidates minP best_order arrivals.
  Proof.
    intros Hgrid Htie. apply (fold_reduce_f64 minP (zero_transfer :: admitted minP arrivals)).
    - intros x [->|Hx]%elem_of_cons; [split; simpl; lia|by eapply Forall_forall].
    - rewrite Forall_forall in Hgrid.
      intros a b [->|Ha]%elem_of_cons [->|Hb]%elem_of_cons Hs; [done| | |by apply Htie].
      + by apply zero_tie; [apply Hgrid|].
      + symmetry. by apply zero_tie; [apply Hgrid|].
    - by left.
    - intros t Ht Hm. right. by apply list_elem_of_filter.
  Qed.

  (** C16: the float64 reducer refines to the exact one.  When every
      candidate with at least [minProducts] items lies in the grid and
      no two of them tie exactly at different score points, the reducer
      computing in float64, as the code does, returns the transfer the
      exact reducer of [Transfer.v] returns, in every arrival order. *)
Theorem reduce_candidates_f64_refines minP arrivals :
    Forall in_grid (admitted minP arrivals) → no_cross_tie (admitted minP arrivals) →
    reduce_candidates_f64 minP order_f64 arrivals = reduce_candidates minP best_order arrivals.
  Proof. apply reduce_f64_exact. Qed.

  (** [no_cross_tie] decided on a concrete pool. *)
Definition no_cross_tieb (pool : list Transfer) : bool :=
    forallb (λ a, forallb (λ b, negb (score best_order a =? score best_order b) ||
                                 bool_decide (point a = point b)) pool) pool.

Lemma no_cross_tieb_ok pool : no_cross_tieb pool = true → no_cross_tie pool.
  Proof.
    unfold no_cross_tieb. rewrite forallb_forall. intros H a b Ha Hb Hs.
    apply list_elem_of_In in Ha, Hb. specialize (H a Ha). rewrite forallb_forall in H.
    specialize (H b Hb). rewrite Hs, Z.eqb_refl in H. simpl in H. by apply bool_decide_eq_true in H.
  Qed.

  (** ** Ties in float64 *)

Lemma SFcompare_eq_sym x y :
    SpecFloat.SFcompare x y = Some Eq → SpecFloat.SFcompare y x = Some Eq.
  Proof.
    destruct x as [s1|s1| |s1 m1 e1], y as [s2|s2| |s2 m2 e2]; simpl; try done;
      destruct s1, s2; try done;
      destruct (Z.compare_spec e1 e2), (Z.compare_spec e2 e1); try done; subst; try lia;
      change (Pos.compare_cont Eq m1 m2) with (Pos.compare m1 m2);
      change (Pos.compare_cont Eq m2 m1) with (Pos.compare m2 m1);
      destruct (Pos.compare_spec m1 m2); subst; rewrite ?Pos.compare_refl; done.
  Qed.

  (** Float equality is symmetric and excludes [<] both ways. *)
Lemma f64_eqb_tie x y :
    PrimFloat.eqb x y = true →
    PrimFloat.eqb y x = true ∧ PrimFloat.ltb x y = false ∧ PrimFloat.ltb y x = false.
  Proof.
    rewrite !FloatAxioms.eqb_spec, !FloatAxioms.ltb_spec.
    unfold SpecFloat.SFeqb, SpecFloat.SFltb.
    destruct (SpecFloat.SFcompare (FloatOps.Prim2SF x) (FloatOps.Prim2SF y)) as [[]|] eqn:E; try done.
    by rewrite (SFcompare_eq_sym _ _ E).
  Qed.

  (** C23: ties in float64 go to the smaller key, whichever comes
      first.  When Go's two float64 scores compare equal ([==]) and the
      keys [From + "-" + To] differ, [determineBestTransfer] returns the
      transfer with the smaller key in both argument orders, as the
      comment of the code intends. *)
Theorem determineBestTransfer_f64_tie order a b :
    PrimFloat.eqb (score_f64 order a) (score_f64 order b) = true →
    String.le (transfer_key a) (transfer_key b) → transfer_key a ≠ transfer_key b →
    determineBestTransfer_f64 a b order = a ∧ determineBestTransfer_f64 b a order = a.
  Proof.
    intros Heq Hle Hne. destruct (f64_eqb_tie _ _ Heq) as (Hba & Hab & Hba').
    unfold determineBestTransfer_f64. rewrite Hab, Hba', Heq, Hba. simpl.
    unfold String.le in Hle. apply Is_true_true in Hle. rewrite Hle.
    destruct (String.leb (transfer_key b) (transfer_key a)) eqn:E; [|done].
    exfalso. by apply Hne, String.leb_antisym.
  Qed.

  (** Two transfers with the same exact score [114] at different score
      points: one raises the OSA of one product and moves 15 items, the
      other moves 114 items. *)
Definition tie_osa : Transfer := mkTransfer "a" "b" [] 15 1.
Definition tie_count : Transfer := mkTransfer "c" "d" [] 114 0.

  (** The exception of the agreement is real.  On an exact tie the
      exact selector keeps the smaller key ("a-b", the OSA transfer) as
      the comment of the code says; float64 rounds
      [1*0.99 + 15*0.01] below [114*0.01] and keeps the 114-item transfer
      whatever the keys. *)
Example determineBestTransfer_f64_tie_diverges :
    score best_order tie_count = score best_order tie_osa ∧
    determineBestTransfer tie_count tie_osa best_order = tie_osa ∧
    determineBestTransfer_f64 tie_count tie_osa order_f64 = tie_count ∧
    determineBestTransfer_f64 tie_osa tie_count order_f64 = tie_count.
  Proof. split_and!; vm_compute; reflexivity. Qed.


Lemma reduce_candidates_f64_refines_witness :
    reduce_candidates_f64 20 order_f64 [tie_count; mkTransfer "e" "f" [] 120 0] =
    reduce_candidates 20 best_order [tie_count; mkTransfer "e" "f" [] 120 0].
  Proof.
    apply reduce_candidates_f64_refines.
    - repeat constructor; simpl; lia.
    - intros a b Ha Hb. simpl in Ha, Hb. set_unfold.
      destruct Ha as [->|[->|[]]], Hb as [->|[->|[]]]; vm_compute; congruence.
  Defined.

  (** Two transfers at the same score point between different stores. *)
Definition tie_lyon : Transfer := mkTransfer "Lyon" "Nice" [] 40 2.
Definition tie_paris : Transfer := mkTransfer "Paris" "Nice" [] 40 2.

Lemma determineBestTransfer_f64_tie_witness :
    PrimFloat.eqb (score_f64 order_f64 tie_lyon) (score_f64 order_f64 tie_paris) = true ∧
    String.le (transfer_key tie_lyon) (transfer_key tie_paris) ∧
    transfer_key tie_lyon ≠ transfer_key tie_paris ∧
    determineBestTransfer_f64 tie_lyon tie_paris order_f64 = tie_lyon ∧
    determineBestTransfer_f64 tie_paris tie_lyon order_f64 = tie_lyon.
Proof.
  assert (H1 : PrimFloat.eqb (score_f64 order_f64 tie_lyon) (score_f64 order_f64 tie_paris) = true)
    by (vm_compute; reflexivity).
  assert (H2 : String.le (transfer_key tie_lyon) (transfer_key tie_paris))
    by (apply (bool_decide_unpack (String.le _ _)); vm_compute; exact I).
  assert (H3 : transfer_key tie_lyon ≠ transfer_key tie_paris) by (vm_compute; discriminate).
  split; [exact H1|split; [exact H2|split; [exact H3|]]].
  exact (determineBestTransfer_f64_tie order_f64 tie_lyon tie_paris H1 H2 H3).
Defined.

End Score.

Export Score.
