(* ===== verification/Exchange.v ===== *)
(** * Exchange: the pair evaluator [doExchangeItems] ([src/opti/opti.go])

    For every product of the source store, the quantity that can move
    is [min(surplus of the source, deficit of the destination)] when
    both are positive.  With [alterStock] the stock is changed and the
    product is listed.  Go iterates over [stock[store1]] in an
    unspecified order: [doExchangeItems_in] takes the iteration order
    as a list of entries and [doExchangeItems] uses stdpp's order.

    The file proves that [doExchangeItems] meets the contract
    [PairEvaluator] of [Transfer], which the orchestrator relies on. *)

From S2P Require Import Prelude Stock Transfer.

Module Exchange.

  (** [func min(a, b int) int] *)
Definition go_min (a b : Z) : Z := if a <? b then a else b.

  (** The loop state of [doExchangeItems]: the stock (mutated in place
      in Go), [totalCount], [osaImprouve] and [exchangeList]. *)
Record ExchAcc := mkExchAcc {
    ex_stock : StockMatrix;
    ex_total : Z;
    ex_osa : Z;
    ex_list : list TransferedProduct
  }.

  (** One iteration of [for product, stockInStore1 := range stock[store1]]
      (opti.go 210-229). *)
Definition exchange_product (store1 store2 : string) (alterStock : bool)
      (acc : ExchAcc) (entry : string * StockItem) : ExchAcc :=
    let '(product, stockInStore1) := entry in
    let stockInStore2 := item_at (ex_stock acc) store2 product in
    if (Has stockInStore2 - Needs stockInStore2 <? 0) &&
       (Has stockInStore1 - Needs stockInStore1 >? 0) then
      let transferItems := go_min (Has stockInStore1 - Needs stockInStore1)
                                  (Needs stockInStore2 - Has stockInStore2) in
      let osa := if (Has stockInStore2 =? 0) && (transferItems >? 0)
                 then ex_osa acc + 1 else ex_osa acc in
      let '(stock, lst) :=
        if alterStock then
          let s2 := set_item (ex_stock acc) store2 product
                      (mkStockItem (Has stockInStore2 + transferItems) (Needs stockInStore2)) in
          (set_item s2 store1 product
             (mkStockItem (Has stockInStore1 - transferItems) (Needs stockInStore1)),
           ex_list acc ++ [mkTransferedProduct product transferItems])
        else (ex_stock acc, ex_list acc) in
      mkExchAcc stock (ex_total acc + transferItems) osa lst
    else acc.

  (** [doExchangeItems] with the iteration order of [range stock[store1]]
      given by [entries] (opti.go 206-231).  [settings] is unused, as in
      the source. *)
Definition doExchangeItems_in (entries : list (string * StockItem))
      (stock : StockMatrix) (settings : Settings) (store1 store2 : string)
      (alterStock : bool) : StockMatrix * Transfer :=
    let r := fold_left (exchange_product store1 store2 alterStock) entries
               (mkExchAcc stock 0 0 []) in
    (ex_stock r, mkTransfer store1 store2 (ex_list r) (ex_total r) (ex_osa r)).

Definition doExchangeItems (stock : StockMatrix) (settings : Settings)
      (store1 store2 : string) (alterStock : bool) : StockMatrix * Transfer :=
    doExchangeItems_in (map_to_list (stock !!! store1)) stock settings store1 store2 alterStock.

  (** ** The feasible quantity of one product *)

  (** [min(surplus(it1), -surplus(it2))] when both are positive, else 0. *)
Definition transfer_qty (it1 it2 : StockItem) : Z :=
    if (Has it2 - Needs it2 <? 0) && (Has it1 - Needs it1 >? 0)
    then go_min (Has it1 - Needs it1) (Needs it2 - Has it2) else 0.

  (** [Has] moved by [d]. *)
Definition shift (d : Z) (it : StockItem) : StockItem :=
    mkStockItem (Has it + d) (Needs it).

Lemma go_min_spec a b : go_min a b = a `min` b.
  Proof. unfold go_min. destruct (Z.ltb_spec a b); lia. Qed.

Lemma transfer_qty_spec it1 it2 :
    transfer_qty it1 it2 =
      if decide (0 < surplus it1 ∧ surplus it2 < 0)
      then surplus it1 `min` (- surplus it2) else 0.
  Proof.
    unfold transfer_qty, surplus. rewrite go_min_spec.
    destruct (Z.ltb_spec (Has it2 - Needs it2) 0), (Z.gtb_spec (Has it1 - Needs it1) 0);
      simpl; case_decide; lia.
  Qed.

Lemma transfer_qty_nonneg it1 it2 : 0 <= transfer_qty it1 it2.
  Proof. rewrite transfer_qty_spec. case_decide; lia. Qed.

Lemma transfer_qty_pos it1 it2 :
    0 < transfer_qty it1 it2 ↔ 0 < surplus it1 ∧ surplus it2 < 0.
  Proof. rewrite transfer_qty_spec. case_decide; lia. Qed.

Lemma shift_0 it : shift 0 it = it.
  Proof. destruct it. unfold shift. simpl. by rewrite Z.add_0_r. Qed.

Lemma shift_shift d1 d2 it : shift d1 (shift d2 it) = shift (d2 + d1) it.
  Proof. unfold shift. simpl. by rewrite Z.add_assoc. Qed.

#[export] Hint Resolve transfer_qty_nonneg : dstock.
#[export] Hint Rewrite shift_0 shift_shift : dstock_rw.

  (** One step, in terms of [transfer_qty]: nothing happens when the
      quantity is zero. *)
Lemma exchange_product_qty s1 s2 alt acc p it1 :
    let it2 := item_at (ex_stock acc) s2 p in
    let q := transfer_qty it1 it2 in
    exchange_product s1 s2 alt acc (p, it1) =
      if decide (0 < q) then
        mkExchAcc
          (if alt then set_item (set_item (ex_stock acc) s2 p (shift q it2)) s1 p (shift (- q) it1)
           else ex_stock acc)
          (ex_total acc + q)
          (if decide (Has it2 = 0) then ex_osa acc + 1 else ex_osa acc)
          (if alt then ex_list acc ++ [mkTransferedProduct p q] else ex_list acc)
      else acc.
  Proof.
    intros it2 q. unfold exchange_product. fold it2.
    assert (Hq : q = transfer_qty it1 it2) by done. unfold transfer_qty in Hq.
    destruct ((Has it2 - Needs it2 <? 0) && (Has it1 - Needs it1 >? 0)) eqn:G.
    - rewrite <- Hq. assert (Hpos : 0 < q).
      { subst q. apply transfer_qty_pos. unfold surplus.
        apply andb_true_iff in G as [G1 G2]. apply Z.ltb_lt in G1. apply Z.gtb_lt in G2. lia. }
      rewrite decide_True by done.
      replace ((Has it2 =? 0) && (q >? 0)) with (bool_decide (Has it2 = 0)).
      2:{ destruct (Z.eqb_spec (Has it2) 0), (Z.gtb_spec q 0); case_bool_decide; done || lia. }
      unfold shift. replace (Has it1 + - q) with (Has it1 - q) by lia.
      destruct alt; case_bool_decide; case_decide; done.
    - rewrite decide_False by lia. done.
  Qed.

  (** ** Reading cells *)

Lemma item_at_default s st p : item_at s st p = default (mkStockItem 0 0) (lookup2 st p s).
  Proof.
    destruct (lookup2 st p s) eqn:E; simpl; [by apply item_at_lookup2 | by apply item_at_absent].
  Qed.

  (** A cell with a deficit or a surplus is present in the map. *)
Lemma lookup2_of_surplus s st p :
    surplus (item_at s st p) ≠ 0 → lookup2 st p s = Some (item_at s st p).
  Proof.
    rewrite item_at_default. destruct (lookup2 st p s); simpl; [done|].
    unfold surplus. simpl. lia.
  Qed.

Lemma lookup2_is_Some_outer (s : StockMatrix) st p it :
    lookup2 st p s = Some it → is_Some (s !! st).
  Proof. unfold lookup2. destruct (s !! st); simpl; [eauto|discriminate]. Qed.

Lemma fmap_shift_0 (o : option StockItem) : shift 0 <$> o = o.
  Proof. destruct o; simpl; [by rewrite shift_0|done]. Qed.

#[export] Hint Rewrite fmap_shift_0 : dstock_rw.

  (** ** The commit loop, one product after another *)

  Section Fold.
    Context (σ0 : StockMatrix) (s1 s2 : string).
    Hypothesis Hne : s1 ≠ s2.

    (** The quantity of [p] the loop moves, read in the initial stock. *)
Definition qty_of (p : string) : Z :=
      transfer_qty (item_at σ0 s1 p) (item_at σ0 s2 p).

Definition osa_of (p : string) : Z :=
      if decide (0 < qty_of p ∧ Has (item_at σ0 s2 p) = 0) then 1 else 0.

Definition product_of (p : string) : list TransferedProduct :=
      if decide (0 < qty_of p) then [mkTransferedProduct p (qty_of p)] else [].

    (** How much [Has] of cell [(st, p)] has moved once the products [D]
        are done. *)
Definition moved (D : list string) (st p : string) : Z :=
      if decide (p ∈ D) then
        (if decide (st = s1) then - qty_of p else if decide (st = s2) then qty_of p else 0)
      else 0.

    (** The loop visits each product of [s1] once, with its value. *)
Definition entries_ok (entries : list (string * StockItem)) : Prop :=
      NoDup entries.*1 ∧ ∀ p it, (p, it) ∈ entries → lookup2 s1 p σ0 = Some it.

    (** The stock after the products [D]: every cell shifted by [moved]. *)
Definition fold_inv (D : list string) (σ : StockMatrix) : Prop :=
      (∀ st p, lookup2 st p σ = shift (moved D st p) <$> lookup2 st p σ0) ∧
      (∀ st, is_Some (σ !! st) ↔ is_Some (σ0 !! st)).

Lemma fold_inv_nil : fold_inv [] σ0.
    Proof. split; [|done]. intros st p. unfold moved. rewrite decide_False by set_solver.
           by rewrite fmap_shift_0. Qed.

Lemma fold_inv_unmoved D σ st p :
      fold_inv D σ → p ∉ D → lookup2 st p σ = lookup2 st p σ0 ∧ item_at σ st p = item_at σ0 st p.
    Proof.
      intros [Hc _] HD. assert (Hl : lookup2 st p σ = lookup2 st p σ0).
      { rewrite Hc. unfold moved. rewrite decide_False by done. apply fmap_shift_0. }
      split; [done|]. by rewrite !item_at_default, Hl.
    Qed.

Lemma moved_snoc D p st p' :
      moved (D ++ [p]) st p' =
        if decide (p' = p) then
          (if decide (st = s1) then - qty_of p else if decide (st = s2) then qty_of p else 0)
        else moved D st p'.
    Proof. unfold moved. repeat case_decide; set_solver. Qed.

    (** One product: the step preserves the invariant, reads the initial
        cells, and moves [qty_of p]. *)
Lemma exchange_product_commit D acc p it1 :
      fold_inv D (ex_stock acc) → p ∉ D → lookup2 s1 p σ0 = Some it1 →
      let acc' := exchange_product s1 s2 true acc (p, it1) in
      fold_inv (D ++ [p]) (ex_stock acc') ∧
      ex_total acc' = ex_total acc + qty_of p ∧
      ex_osa acc' = ex_osa acc + osa_of p ∧
      ex_list acc' = ex_list acc ++ product_of p.
    Proof.
      intros Hinv HD H1 acc'.
      destruct (fold_inv_unmoved D _ s1 p Hinv HD) as [Hl1 Hi1].
      destruct (fold_inv_unmoved D _ s2 p Hinv HD) as [Hl2 Hi2].
      assert (Hit1 : item_at σ0 s1 p = it1) by by apply item_at_lookup2.
      assert (Hq : transfer_qty it1 (item_at (ex_stock acc) s2 p) = qty_of p)
        by (unfold qty_of; congruence).
      subst acc'. rewrite exchange_product_qty, Hq.
      unfold osa_of, product_of. rewrite Hi2.
      destruct (decide (0 < qty_of p)) as [Hpos|Hz]; simpl.
      - assert (Hs2 : lookup2 s2 p σ0 = Some (item_at σ0 s2 p)).
        { apply lookup2_of_surplus. apply transfer_qty_pos in Hpos.
          unfold qty_of in Hpos. rewrite Hit1 in Hpos. lia. }
        assert (Hin2 : is_Some (ex_stock acc !! s2)) by (eapply lookup2_is_Some_outer; by rewrite Hl2).
        assert (Hin1 : is_Some (set_item (ex_stock acc) s2 p (shift (qty_of p) (item_at σ0 s2 p)) !! s1)).
        { apply set_item_outer_dom; [done|]. eapply lookup2_is_Some_outer; by rewrite Hl1. }
        split; [split|split; [done|split; [|done]]].
        + intros st p'. rewrite lookup2_set_item, lookup2_set_item by done.
          rewrite moved_snoc. destruct (decide (p' = p)) as [->|Hp].
          * destruct (decide (st = s1)) as [->|Hst1].
            { rewrite decide_True by done. by rewrite H1. }
            rewrite decide_False by naive_solver.
            destruct (decide (st = s2)) as [->|Hst2].
            { rewrite decide_True by done. by rewrite Hs2. }
            rewrite decide_False by naive_solver. rewrite fmap_shift_0.
            by destruct (fold_inv_unmoved D _ st p Hinv HD).
          * rewrite !decide_False by naive_solver. apply Hinv.
        + intros st. rewrite set_item_outer_dom, set_item_outer_dom by done.
          apply Hinv.
        + case_decide as Ha; case_decide as Hb; try lia; exfalso; naive_solver.
      - assert (Hq0 : qty_of p = 0)
          by (pose proof (transfer_qty_nonneg (item_at σ0 s1 p) (item_at σ0 s2 p));
              unfold qty_of in *; lia).
        split; [split|split; [lia|split; [|by rewrite app_nil_r]]].
        + intros st p'. destruct Hinv as [Hc _]. rewrite Hc, moved_snoc, Hq0, Z.opp_0.
          destruct (decide (p' = p)) as [->|]; [|done].
          unfold moved. rewrite decide_False by done. by repeat case_decide.
        + apply Hinv.
        + case_decide; lia.
    Qed.

    (** Induction over the commit loop: the invariant [fold_inv] is
        maintained for free, and a property [P] of the accumulator
        follows from its one-product step. *)
Lemma exchange_fold_ind (P : list string → ExchAcc → Prop) entries D acc :
      entries_ok entries → (∀ p, p ∈ entries.*1 → p ∉ D) → fold_inv D (ex_stock acc) →
      P D acc →
      (∀ D acc p it1, fold_inv D (ex_stock acc) → p ∉ D → lookup2 s1 p σ0 = Some it1 →
         P D acc → P (D ++ [p]) (exchange_product s1 s2 true acc (p, it1))) →
      let r := fold_left (exchange_product s1 s2 true) entries acc in
      fold_inv (D ++ entries.*1) (ex_stock r) ∧ P (D ++ entries.*1) r.
    Proof.
      revert D acc. induction entries as [|[p it1] rest IH];
        intros D acc [Hnd Hin] HD Hinv HP Hstep; simpl.
      { by rewrite app_nil_r. }
      simpl in Hnd. apply NoDup_cons in Hnd as [Hp Hnd].
      assert (HpD : p ∉ D) by (apply HD; left).
      assert (Hp1 : lookup2 s1 p σ0 = Some it1) by (apply Hin; left).
      destruct (exchange_product_commit D acc p it1 Hinv HpD Hp1) as [Hinv' _].
      rewrite cons_middle, app_assoc. apply IH; auto.
      - split; [done|]. intros p' it' H'. apply Hin. by right.
      - intros p' Hp'. rewrite elem_of_app, list_elem_of_singleton.
        intros [?| ->]; [|done]. apply (HD p'); [by right|done].
      - by apply Hstep.
    Qed.

    (** The loop without commit reads the initial stock throughout. *)
Lemma exchange_fold_eval entries acc :
      entries_ok entries → ex_stock acc = σ0 →
      let r := fold_left (exchange_product s1 s2 false) entries acc in
      ex_stock r = σ0 ∧ ex_total r = ex_total acc + zsum qty_of entries.*1 ∧
      ex_osa r = ex_osa acc + zsum osa_of entries.*1 ∧ ex_list r = ex_list acc.
    Proof.
      revert acc. induction entries as [|[p it1] rest IH]; intros acc [Hnd Hin] Hst;
        cbn [fold_left]; rewrite ?fmap_nil, ?fmap_cons in Hnd |- *.
      { cbn. rewrite !Z.add_0_r. done. }
      apply NoDup_cons in Hnd as [_ Hnd]. cbn [zsum foldr fst]. fold (zsum qty_of rest.*1).
      fold (zsum osa_of rest.*1).
      assert (Hit1 : item_at σ0 s1 p = it1) by (apply item_at_lookup2, Hin; left).
      destruct (IH (exchange_product s1 s2 false acc (p, it1))) as (H1 & H2 & H3 & H4).
      { split; [done|]. intros p' it' H'. apply Hin. by right. }
      { rewrite exchange_product_qty. by case_decide. }
      rewrite H1, H2, H3, H4, exchange_product_qty, Hst, <- Hit1. fold (qty_of p).
      unfold osa_of. case_decide as Hq; simpl.
      - split; [done|split; [lia|split; [|done]]]. dstock_decide.
      - assert (qty_of p = 0)
          by (pose proof (transfer_qty_nonneg (item_at σ0 s1 p) (item_at σ0 s2 p));
              unfold qty_of in *; lia).
        split; [done|split; [lia|split; [|done]]]. case_decide; naive_solver lia.
    Qed.

    (** The loop with commit: the totals and the listed products. *)
Lemma exchange_fold_commit entries :
      entries_ok entries →
      let r := fold_left (exchange_product s1 s2 true) entries (mkExchAcc σ0 0 0 []) in
      fold_inv entries.*1 (ex_stock r) ∧
      ex_total r = zsum qty_of entries.*1 ∧ ex_osa r = zsum osa_of entries.*1 ∧
      ex_list r = entries.*1 ≫= product_of.
    Proof.
      intros Hok.
      refine (exchange_fold_ind
        (λ D acc, ex_total acc = zsum qty_of D ∧ ex_osa acc = zsum osa_of D ∧
                  ex_list acc = D ≫= product_of) entries [] (mkExchAcc σ0 0 0 []) Hok _ fold_inv_nil _ _);
        [set_solver|done|].
      intros D acc p it1 Hinv HD Hp (Ht & Ho & Hl).
      destruct (exchange_product_commit D acc p it1 Hinv HD Hp) as (_ & Ht' & Ho' & Hl').
      rewrite Ht', Ho', Hl', Ht, Ho, Hl, !zsum_app, bind_app. simpl. rewrite !app_nil_r.
      split; [lia|split; [lia|done]].
    Qed.

    (** One committed product conserves every product's total. *)
Lemma exchange_product_conserves acc p it1 p' :
      lookup2 s1 p (ex_stock acc) = Some it1 →
      stock_sum p' (ex_stock (exchange_product s1 s2 true acc (p, it1))) =
        stock_sum p' (ex_stock acc).
    Proof.
      intros H1. rewrite exchange_product_qty.
      set (σ := ex_stock acc). set (it2 := item_at σ s2 p). set (q := transfer_qty it1 it2).
      case_decide as Hq; [simpl|done].
      assert (Hs2 : is_Some (σ !! s2)).
      { apply (lookup2_is_Some_outer _ _ p it2), lookup2_of_surplus.
        unfold q in Hq. apply transfer_qty_pos in Hq. fold it2. lia. }
      assert (Hs1 : is_Some (set_item σ s2 p (shift q it2) !! s1)).
      { apply set_item_outer_dom; [done|]. by eapply lookup2_is_Some_outer. }
      rewrite stock_sum_set_item, stock_sum_set_item by done.
      rewrite !item_at_set_item. fold σ in H1.
      destruct (decide (p = p')) as [<-|Hp];
        repeat case_decide; try (exfalso; naive_solver);
        rewrite ?(item_at_lookup2 _ _ _ _ H1); simpl; unfold it2; lia.
    Qed.

    (** One committed product keeps the stock well formed: the source
        keeps at least its [Needs], the destination gains. *)
Lemma exchange_product_wf acc p it1 :
      stock_wf (ex_stock acc) → lookup2 s1 p (ex_stock acc) = Some it1 →
      stock_wf (ex_stock (exchange_product s1 s2 true acc (p, it1))).
    Proof.
      intros Hwf H1. rewrite exchange_product_qty. case_decide as Hq; [simpl|done].
      pose proof (stock_wf_lookup2 _ _ _ _ Hwf H1) as [Hh1 Hn1].
      pose proof (stock_wf_item_at _ s2 p Hwf) as [Hh2 Hn2].
      pose proof (transfer_qty_spec it1 (item_at (ex_stock acc) s2 p)) as Hspec.
      unfold surplus in Hspec. case_decide; [|lia].
      apply stock_wf_set_item; [apply stock_wf_set_item| |]; simpl; auto; lia.
    Qed.
  End Fold.

  (** ** [doExchangeItems] *)

  (** The products of [store1], in the order [range] visits them. *)
Definition store_products (σ : StockMatrix) (store : string) : list string :=
    (map_to_list (σ !!! store)).*1.

Lemma elem_of_store_products σ st p :
    p ∈ store_products σ st ↔ is_Some (lookup2 st p σ).
  Proof.
    unfold store_products, lookup2. rewrite list_elem_of_fmap.
    rewrite lookup_total_alt. destruct (σ !! st) as [inner|]; simpl.
    - split.
      + intros [[p' it] [-> Hin%elem_of_map_to_list]]. by exists it.
      + intros [it Hit]. exists (p, it). split; [done|]. by apply elem_of_map_to_list.
    - split; [|by intros [? ?]]. intros [[p' it] [_ Hin%elem_of_map_to_list]].
      by rewrite lookup_empty in Hin.
  Qed.

  (** The entries of Go's [range stock[store1]] satisfy [entries_ok]. *)
Lemma store_entries_ok σ s1 : entries_ok σ s1 (map_to_list (σ !!! s1)).
  Proof.
    split; [apply NoDup_fst_map_to_list|]. intros p it Hin%elem_of_map_to_list.
    unfold lookup2. rewrite lookup_total_alt in Hin.
    destruct (σ !! s1) as [inner|]; simpl in *; [done|by rewrite lookup_empty in Hin].
  Qed.

  (** A product absent from the source moves nothing. *)
Lemma qty_of_absent σ s1 s2 p : p ∉ store_products σ s1 → qty_of σ s1 s2 p = 0.
  Proof.
    rewrite elem_of_store_products. intros Hp. unfold qty_of.
    rewrite (item_at_absent σ s1 p) by (by apply eq_None_not_Some).
    rewrite transfer_qty_spec, decide_False; [done|unfold surplus; simpl; lia].
  Qed.

  (** Evaluation without commit ([alterStock = false]) leaves the
      stock untouched, lists no product, and counts the feasible
      quantities and the out-of-stock destinations they would serve. *)
Theorem doExchangeItems_eval σ settings s1 s2 :
    doExchangeItems σ settings s1 s2 false =
      (σ, mkTransfer s1 s2 [] (zsum (qty_of σ s1 s2) (store_products σ s1))
                            (zsum (osa_of σ s1 s2) (store_products σ s1))).
  Proof.
    unfold doExchangeItems, doExchangeItems_in.
    destruct (exchange_fold_eval σ s1 s2 (map_to_list (σ !!! s1)) (mkExchAcc σ 0 0 []))
      as (H1 & H2 & H3 & H4); [apply store_entries_ok|done|].
    by rewrite H1, H2, H3, H4.
  Qed.

  (** The committed transfer.  With [alterStock = true] and two
      distinct stores, every product of the source with a positive
      quantity [min(surplus, deficit)] (read before the transfer) is
      listed with that quantity, and the counts are those of the
      evaluation. *)
Theorem doExchangeItems_commit σ settings s1 s2 :
    s1 ≠ s2 →
    (doExchangeItems σ settings s1 s2 true).2 =
      mkTransfer s1 s2 (store_products σ s1 ≫= product_of σ s1 s2)
        (zsum (qty_of σ s1 s2) (store_products σ s1))
        (zsum (osa_of σ s1 s2) (store_products σ s1)).
  Proof.
    intros Hne. unfold doExchangeItems, doExchangeItems_in. simpl.
    destruct (exchange_fold_commit σ s1 s2 Hne (map_to_list (σ !!! s1)))
      as (_ & H2 & H3 & H4); [apply store_entries_ok|].
    by rewrite H2, H3, H4.
  Qed.

Lemma doExchangeItems_fold_inv σ settings s1 s2 :
    s1 ≠ s2 → fold_inv σ s1 s2 (store_products σ s1) (doExchangeItems σ settings s1 s2 true).1.
  Proof.
    intros Hne. unfold doExchangeItems, doExchangeItems_in. simpl.
    apply (exchange_fold_commit σ s1 s2 Hne), store_entries_ok.
  Qed.

  (** The effect of a committed transfer on every cell: the source
      loses [qty_of p], the destination gains it, every other store is
      unchanged, and [Needs] never changes. *)
Theorem doExchangeItems_cells σ settings s1 s2 st p :
    s1 ≠ s2 →
    item_at (doExchangeItems σ settings s1 s2 true).1 st p =
      if decide (st = s1) then shift (- qty_of σ s1 s2 p) (item_at σ st p)
      else if decide (st = s2) then shift (qty_of σ s1 s2 p) (item_at σ st p)
      else item_at σ st p.
  Proof.
    intros Hne. destruct (doExchangeItems_fold_inv σ settings s1 s2 Hne) as [Hc _].
    rewrite !item_at_default, Hc. unfold moved.
    destruct (decide (p ∈ store_products σ s1)) as [Hp|Hp].
    - destruct (lookup2 st p σ) as [it|] eqn:E; simpl; [repeat case_decide; by rewrite ?shift_0|].
      repeat case_decide; subst; try done.
      + apply elem_of_store_products in Hp. rewrite E in Hp. by destruct Hp.
      + assert (qty_of σ s1 s2 p = 0) as ->; [|by rewrite shift_0].
        unfold qty_of. rewrite (item_at_absent σ _ p E), transfer_qty_spec, decide_False;
          [done|unfold surplus; simpl; lia].
    - rewrite (qty_of_absent σ s1 s2 p Hp), Z.opp_0. autorewrite with dstock_rw.
      by repeat case_decide.
  Qed.

  (** The source cell of a product still to visit is untouched. *)
Lemma fold_inv_source σ s1 s2 D σ' p it1 :
    fold_inv σ s1 s2 D σ' → p ∉ D → lookup2 s1 p σ = Some it1 → lookup2 s1 p σ' = Some it1.
  Proof. intros Hinv HD Hp. by destruct (fold_inv_unmoved σ s1 s2 D σ' s1 p Hinv HD) as [-> _]. Qed.

  (** Conservation.  A committed transfer between two distinct stores
      leaves the total quantity of every product over all stores
      unchanged. *)
Theorem doExchangeItems_conserves σ settings s1 s2 p :
    s1 ≠ s2 → stock_sum p (doExchangeItems σ settings s1 s2 true).1 = stock_sum p σ.
  Proof.
    intros Hne. unfold doExchangeItems, doExchangeItems_in. simpl.
    refine (proj2 (exchange_fold_ind σ s1 s2 Hne
      (λ _ acc, ∀ p, stock_sum p (ex_stock acc) = stock_sum p σ) _ []
      (mkExchAcc σ 0 0 []) (store_entries_ok σ s1) _ (fold_inv_nil σ s1 s2 Hne) _ _) p);
      [set_solver|done|].
    intros D acc p' it1 Hinv HD Hp IH q.
    rewrite exchange_product_conserves; [apply IH|done|]. by eapply fold_inv_source.
  Qed.

  (** A committed transfer between two distinct stores keeps a well
      formed stock well formed (no [Has] becomes negative). *)
Theorem doExchangeItems_wf σ settings s1 s2 :
    s1 ≠ s2 → stock_wf σ → stock_wf (doExchangeItems σ settings s1 s2 true).1.
  Proof.
    intros Hne Hwf. unfold doExchangeItems, doExchangeItems_in. simpl.
    refine (proj2 (exchange_fold_ind σ s1 s2 Hne (λ _ acc, stock_wf (ex_stock acc)) _ []
      (mkExchAcc σ 0 0 []) (store_entries_ok σ s1) _ (fold_inv_nil σ s1 s2 Hne) _ _));
      [set_solver|done|].
    intros D acc p it1 Hinv HD Hp IH. apply exchange_product_wf; [done|].
    by eapply fold_inv_source.
  Qed.

Lemma moved_perm σ s1 s2 D1 D2 st p :
    D1 ≡ₚ D2 → moved σ s1 s2 D1 st p = moved σ s1 s2 D2 st p.
  Proof.
    intros HP. unfold moved.
    destruct (decide (p ∈ D1)) as [H1|H1], (decide (p ∈ D2)) as [H2|H2]; try done;
      exfalso; [apply H2; by rewrite <- HP | apply H1; by rewrite HP].
  Qed.

Lemma entries_ok_perm σ s1 e1 e2 : e1 ≡ₚ e2 → entries_ok σ s1 e1 → entries_ok σ s1 e2.
  Proof.
    intros HP [Hnd Hin]. split.
    - by rewrite <- HP.
    - intros p it H. apply Hin. by rewrite HP.
  Qed.

  (** C22: Go visits the products of the source store in an unspecified
      order; any two orders give the same stock, the same counts, and
      the same listed products up to order. *)
Theorem doExchangeItems_in_perm e1 e2 σ settings s1 s2 :
    s1 ≠ s2 → entries_ok σ s1 e1 → e1 ≡ₚ e2 →
    let r1 := doExchangeItems_in e1 σ settings s1 s2 true in
    let r2 := doExchangeItems_in e2 σ settings s1 s2 true in
    r1.1 = r2.1 ∧ TotaItemsCount r1.2 = TotaItemsCount r2.2 ∧
    OsaImprouve r1.2 = OsaImprouve r2.2 ∧ Products r1.2 ≡ₚ Products r2.2.
  Proof.
    intros Hne Hok1 HP. pose proof (entries_ok_perm σ s1 e1 e2 HP Hok1) as Hok2.
    assert (HK : e1.*1 ≡ₚ e2.*1) by (by rewrite HP).
    unfold doExchangeItems_in. simpl.
    destruct (exchange_fold_commit σ s1 s2 Hne e1 Hok1) as ([Hc1 Hd1] & T1 & O1 & L1).
    destruct (exchange_fold_commit σ s1 s2 Hne e2 Hok2) as ([Hc2 Hd2] & T2 & O2 & L2).
    rewrite T1, T2, O1, O2, L1, L2, HK. split; [|done].
    apply nested_map_eq.
    - intros st. by rewrite Hd1, Hd2.
    - intros st p. by rewrite Hc1, Hc2, (moved_perm σ s1 s2 _ _ st p HK).
  Qed.

  (** [doExchangeItems] meets the contract the orchestrator relies on. *)
  (** A store evaluated against itself: no product has both a surplus
      and a deficit, so nothing is moved and the stock is unchanged
      (a torn read of the racy round can commit such a pair). *)
Lemma fold_exchange_same σ s alt entries acc :
    ex_stock acc = σ → (∀ p it, (p, it) ∈ entries → item_at σ s p = it) →
    ex_stock (fold_left (exchange_product s s alt) entries acc) = σ.
  Proof.
    revert acc. induction entries as [|[p it] entries IH]; intros acc Hacc Hit; [done|].
    simpl. apply IH; [|intros q jt Hq; apply Hit; by right].
    unfold exchange_product. rewrite Hacc, (Hit p it) by (by left).
    destruct (Z.ltb_spec (Has it - Needs it) 0), (Z.gtb_spec (Has it - Needs it) 0); simpl; try done; lia.
  Qed.

Lemma doExchangeItems_same σ set s alt : (doExchangeItems σ set s s alt).1 = σ.
  Proof.
    unfold doExchangeItems, doExchangeItems_in. simpl. apply fold_exchange_same; [done|].
    intros p it Hin%elem_of_map_to_list. unfold item_at, lookup2_total. by rewrite (lookup_total_correct _ _ _ Hin).
  Qed.

#[export] Instance doExchangeItems_evaluator : PairEvaluator doExchangeItems.
  Proof.
    split.
    - intros σ set a b alt. unfold doExchangeItems, doExchangeItems_in. done.
    - intros σ set a b. by rewrite (doExchangeItems_eval σ set a b).
    - intros σ set a b Hne. by rewrite (doExchangeItems_eval σ set a b), doExchangeItems_commit.
    - intros σ set a b p Hne. by apply doExchangeItems_conserves.
    - intros σ set a b Hne Hwf. by apply doExchangeItems_wf.
    - intros σ set a b st Hne. apply (doExchangeItems_fold_inv σ set a b Hne).
    - intros σ set a b st p Hne. rewrite (proj1 (doExchangeItems_fold_inv σ set a b Hne)).
      by rewrite fmap_is_Some.
  Qed.


  (** ** A commit shrinks every surplus and every deficit *)

  (** The positive part of the surplus and of the deficit of a cell. *)
Definition spare (it : StockItem) : Z := Z.max 0 (surplus it).
Definition lack (it : StockItem) : Z := Z.max 0 (- surplus it).

Lemma transfer_qty_min it1 it2 : transfer_qty it1 it2 = Z.min (spare it1) (lack it2).
  Proof. unfold spare, lack. rewrite transfer_qty_spec. case_decide; lia. Qed.

Lemma surplus_shift d it : surplus (shift d it) = surplus it + d.
  Proof. unfold surplus, shift. simpl. lia. Qed.

  (** Moving at most [min(spare it1, lack it2)] out of [it1] and into
      [it2] lowers neither's spare or lack. *)
Lemma shift_shrinks q it1 it2 :
    0 <= q <= Z.min (spare it1) (lack it2) →
    spare (shift (- q) it1) <= spare it1 ∧ lack (shift (- q) it1) <= lack it1 ∧
    spare (shift q it2) <= spare it2 ∧ lack (shift q it2) <= lack it2.
  Proof. unfold spare, lack. rewrite !surplus_shift. lia. Qed.

Lemma commit_shrinks σ settings a b st p :
    a ≠ b →
    let σ' := (doExchangeItems σ settings a b true).1 in
    spare (item_at σ' st p) <= spare (item_at σ st p) ∧ lack (item_at σ' st p) <= lack (item_at σ st p).
  Proof.
    intros Hne σ'. unfold σ'. rewrite doExchangeItems_cells by done.
    pose proof (transfer_qty_nonneg (item_at σ a p) (item_at σ b p)).
    pose proof (transfer_qty_min (item_at σ a p) (item_at σ b p)).
    destruct (shift_shrinks (qty_of σ a b p) (item_at σ a p) (item_at σ b p)) as (H1 & H2 & H3 & H4);
      [unfold qty_of; lia|].
    repeat case_decide; subst; auto with lia.
  Qed.

Lemma store_products_perm σ1 σ2 s :
    (∀ p, is_Some (lookup2 s p σ1) ↔ is_Some (lookup2 s p σ2)) →
    store_products σ1 s ≡ₚ store_products σ2 s.
  Proof.
    intros Hc. apply NoDup_Permutation; [apply NoDup_fst_map_to_list..|].
    intros p. rewrite !elem_of_store_products. apply Hc.
  Qed.

#[export] Instance doExchangeItems_monotone : PairMonotone doExchangeItems.
  Proof.
    split.
    { intros σ set a b. rewrite doExchangeItems_eval. simpl. apply zsum_nonneg.
      intros p _. unfold osa_of. case_decide; lia. }
    intros σ set a b s1 s2 Hne. set (σ' := (doExchangeItems σ set a b true).1).
    rewrite !doExchangeItems_eval. simpl.
    rewrite (store_products_perm σ' σ s1).
    - apply zsum_le. intros p _. unfold qty_of. rewrite !transfer_qty_min.
      destruct (commit_shrinks σ set a b s1 p Hne) as [H1 _].
      destruct (commit_shrinks σ set a b s2 p Hne) as [_ H2]. fold σ' in H1, H2. lia.
    - intros p. unfold σ'. rewrite (proj1 (doExchangeItems_fold_inv σ set a b Hne)).
      by rewrite fmap_is_Some.
  Qed.

  (** ** The pair handler as a whole *)

  (** C7: functional behaviour of a committed transfer between two
      distinct stores: the returned transfer lists, in the order Go
      visits the source's products, each product with a positive
      quantity [min(surplus, deficit)] read from the input, with the
      counts of the evaluation; and every cell of the returned stock is
      the input's with the source lowered and the destination raised
      by that quantity, [Needs] unchanged. *)
Theorem doExchangeItems_spec σ settings s1 s2 :
    s1 ≠ s2 →
    let r := doExchangeItems σ settings s1 s2 true in
    r.2 = mkTransfer s1 s2 (store_products σ s1 ≫= product_of σ s1 s2)
            (zsum (qty_of σ s1 s2) (store_products σ s1))
            (zsum (osa_of σ s1 s2) (store_products σ s1)) ∧
    ∀ st p, item_at r.1 st p =
      if decide (st = s1) then shift (- qty_of σ s1 s2 p) (item_at σ st p)
      else if decide (st = s2) then shift (qty_of σ s1 s2 p) (item_at σ st p)
      else item_at σ st p.
  Proof.
    intros Hne r. split; [by apply doExchangeItems_commit|].
    intros st p. by apply doExchangeItems_cells.
  Qed.

  (** The evaluation run ([alterStock = false]) is a dry run of the
      commit: it returns the input stock unchanged and an empty product
      list, and the counts it reports are exactly those the committed
      transfer between the same stores carries. *)
Theorem doExchangeItems_dry_run σ settings s1 s2 :
    s1 ≠ s2 →
    let e := doExchangeItems σ settings s1 s2 false in
    let c := doExchangeItems σ settings s1 s2 true in
    e.1 = σ ∧ Products e.2 = [] ∧
    TotaItemsCount e.2 = TotaItemsCount c.2 ∧ OsaImprouve e.2 = OsaImprouve c.2 ∧
    FromStore c.2 = s1 ∧ ToStore c.2 = s2.
  Proof.
    intros Hne e c. unfold e, c. rewrite doExchangeItems_eval, (doExchangeItems_commit σ settings s1 s2 Hne).
    done.
  Qed.

  (** ** Concrete cases *)

Definition pair_settings : Settings := mkSettings 1 1 [] [].

  (** Two stores and two products: [A] has a surplus of 4 [P] and 3 [Q],
      [B] lacks 2 [P] and 3 [Q]. *)
Definition pair_stock : StockMatrix :=
    <["A" := <["P" := mkStockItem 5 1]> {["Q" := mkStockItem 3 0]}]>
    {["B" := <["P" := mkStockItem 0 2]> {["Q" := mkStockItem 1 4]}]}.

  (** A negative target, which the CSV parser accepts ([strconv.Atoi]
      takes a sign): the source's surplus is [2 - (-5) = 7]. *)
Definition neg_stock : StockMatrix :=
    <["A" := {["P" := mkStockItem 2 (-5)]}]> {["B" := {["P" := mkStockItem 0 10]}]}.

  (** Without the well-formedness hypothesis the committed transfer
      can drive a stock negative: with a negative [Needs] in the source
      the surplus exceeds what it holds, and [Has] becomes [-5]. *)
Example doExchangeItems_negative_needs :
    item_at (doExchangeItems neg_stock pair_settings "A" "B" true).1 "A" "P" = mkStockItem (-5) (-5) ∧
    ¬ stock_wf (doExchangeItems neg_stock pair_settings "A" "B" true).1.
  Proof.
    split; [vm_compute; reflexivity|].
    apply (bool_decide_unpack (¬ stock_wf _)). vm_compute. exact I.
  Qed.

Lemma doExchangeItems_spec_witness :
    "A" ≠ "B" ∧
    (doExchangeItems pair_stock pair_settings "A" "B" true).2 =
      mkTransfer "A" "B" [mkTransferedProduct "Q" 3; mkTransferedProduct "P" 2] 5 1 ∧
    (let r := doExchangeItems pair_stock pair_settings "A" "B" true in
     r.2 = mkTransfer "A" "B" (store_products pair_stock "A" ≫= product_of pair_stock "A" "B")
            (zsum (qty_of pair_stock "A" "B") (store_products pair_stock "A"))
            (zsum (osa_of pair_stock "A" "B") (store_products pair_stock "A")) ∧
     ∀ st p, item_at r.1 st p =
       if decide (st = "A") then shift (- qty_of pair_stock "A" "B" p) (item_at pair_stock st p)
       else if decide (st = "B") then shift (qty_of pair_stock "A" "B" p) (item_at pair_stock st p)
       else item_at pair_stock st p).
  Proof.
    assert (Hne : "A" ≠ "B") by discriminate.
    split; [exact Hne|split; [vm_compute; reflexivity|]].
    exact (doExchangeItems_spec pair_stock pair_settings "A" "B" Hne).
  Defined.


Lemma doExchangeItems_in_perm_witness :
    let e1 := map_to_list (pair_stock !!! "A") in
    let r1 := doExchangeItems_in e1 pair_stock pair_settings "A" "B" true in
    let r2 := doExchangeItems_in (reverse e1) pair_stock pair_settings "A" "B" true in
    r1.1 = r2.1 ∧ TotaItemsCount r1.2 = TotaItemsCount r2.2 ∧
    OsaImprouve r1.2 = OsaImprouve r2.2 ∧ Products r1.2 ≡ₚ Products r2.2.
  Proof.
    assert (Hne : "A" ≠ "B") by discriminate.
    assert (Hp : map_to_list (pair_stock !!! "A") ≡ₚ reverse (map_to_list (pair_stock !!! "A")))
      by (symmetry; apply reverse_Permutation).
    exact (doExchangeItems_in_perm _ _ pair_stock pair_settings "A" "B" Hne
             (store_entries_ok pair_stock "A") Hp).
  Defined.

End Exchange.

Export Exchange.
