(* ===== verification/Osa.v ===== *)
(** * Osa: the on-shelf-availability score [computeOSA] ([src/opti/opti.go])

    [computeOSA(inStock, outStock)] counts the cells with [Has > 0] of
    both snapshots and all the cells of the final one, and returns the
    difference of the in-stock counts in percentage points of the cell
    count.  Go computes in [float64]; the model returns the exact
    rational. *)

From Stdlib Require Import QArith.
From S2P Require Import Prelude Stock.

Module Osa.

  (** The cells with [p.Has > 0]. *)
Definition items_in_stock (s : StockMatrix) : Z :=
    map_zsum (λ _ inner, map_zsum (λ _ it, if Has it >? 0 then 1 else 0) inner) s.

  (** All the cells. *)
Definition total_items (s : StockMatrix) : Z :=
    map_zsum (λ _ inner, map_zsum (λ _ _, 1) inner) s.

  (** [computeOSA] (opti.go 175-204). *)
Definition computeOSA (inStock outStock : StockMatrix) : Q :=
    let inItemsInStock := items_in_stock inStock in
    let outItemsInStock := items_in_stock outStock in
    let outTotalItems := total_items outStock in
    if negb (outTotalItems =? 0) then
      (inject_Z ((outItemsInStock - inItemsInStock) * 100) / inject_Z outTotalItems)%Q
    else 0%Q.

Lemma items_in_stock_bounds s : 0 <= items_in_stock s <= total_items s.
  Proof.
    unfold items_in_stock, total_items. split.
    - apply map_zsum_nonneg. intros st inner _. apply map_zsum_nonneg.
      intros p it _. destruct (Has it >? 0); lia.
    - apply map_zsum_le. intros st inner _. apply map_zsum_le.
      intros p it _. destruct (Has it >? 0); lia.
  Qed.

  (** Two stocks with the same stores and the same cells have the same
      cell count. *)
Lemma total_items_same_cells a b :
    (∀ st, is_Some (a !! st) ↔ is_Some (b !! st)) →
    (∀ st p, is_Some (lookup2 st p a) ↔ is_Some (lookup2 st p b)) →
    total_items a = total_items b.
  Proof.
    intros Hst Hc. apply map_zsum_same_dom; [done|].
    intros st x y Hx Hy. apply map_zsum_same_dom; [|done].
    intros p. specialize (Hc st p). unfold lookup2 in Hc. by rewrite Hx, Hy in Hc.
  Qed.

  (** The score is a number of percentage points: when both
      snapshots have the same cells (a run never adds or removes one),
      it lies between -100 and 100. *)
Theorem computeOSA_bounds sin sout :
    total_items sin = total_items sout →
    (-100 <= computeOSA sin sout <= 100)%Q.
  Proof.
    intros Ht. unfold computeOSA.
    pose proof (items_in_stock_bounds sin). pose proof (items_in_stock_bounds sout).
    destruct (Z.eqb_spec (total_items sout) 0) as [Hz|Hz]; simpl.
    { split; discriminate. }
    assert (Hpos : (0 < inject_Z (total_items sout))%Q).
    { change 0%Q with (inject_Z 0). rewrite <- Zlt_Qlt. lia. }
    split.
    - apply Qle_shift_div_l; [done|].
      rewrite <- (inject_Z_mult (-100)), <- Zle_Qle. lia.
    - apply Qle_shift_div_r; [done|].
      rewrite <- (inject_Z_mult 100), <- Zle_Qle. lia.
  Qed.

End Osa.

Export Osa.
