(* ===== verification/Strconv.v ===== *)
(** * Strconv: the decimal conversions and the trimming the I/O code uses

    [ParseFromCSV] ([src/stockparser/stockparser.go]) reads its numbers
    with [strconv.Atoi] after [strings.TrimSpace]; the command
    ([src/cmd/opti.go]) prints quantities with the verb [%d], that is
    [strconv.Itoa].  This file models the three on byte strings
    (Rocq's [string]) with Go's 64-bit [int]:
    - [TrimSpace] removes the leading and trailing runes for which
      [unicode.IsSpace] holds: the ASCII ['\t' '\n' '\v' '\f' '\r' ' ']
      and the multi-byte spaces U+0085, U+00A0, U+1680, U+2000-U+200A,
      U+2028, U+2029, U+202F, U+205F, U+3000, matched on their UTF-8
      bytes ([space_seqs]); the fuel is the string's length, enough by
      [trim_left_enough] and [trim_right_enough];
    - [Atoi] accepts an optional sign and at least one decimal digit,
      fails with [ErrSyntax] on any other byte and with [ErrRange] as
      soon as the digits read exceed [2^64-1] or the signed value
      leaves [[-2^63, 2^63-1]] (Go's fast path for fewer than 19 bytes
      never overflows and agrees with this slow path);
    - [Itoa] prints ['-'] before a negative number and the digits with
      no leading zero. *)

From Stdlib Require Import Ascii.
From S2P Require Import Prelude.

Module Strconv.

Definition max_uint64 : Z := 2 ^ 64 - 1.
Definition min_int64 : Z := - 2 ^ 63.
Definition max_int64 : Z := 2 ^ 63 - 1.

  (** [strconv.ErrSyntax] and [strconv.ErrRange]. *)
Inductive NumError := ErrSyntax | ErrRange.

#[export] Instance NumError_eq_dec : EqDecision NumError.
  Proof. solve_decision. Defined.

  (** ** Digits *)

Definition is_digit (c : ascii) : bool :=
    (48 <=? nat_of_ascii c)%nat && (nat_of_ascii c <=? 57)%nat.

  (** [ch - '0'] *)
Definition char_digit (c : ascii) : Z := Z.of_nat (nat_of_ascii c) - 48.

Definition digit_char (d : Z) : ascii := ascii_of_nat (48 + Z.to_nat d).

  (** ** [strings.TrimSpace] *)

  (** The runes [unicode.IsSpace] reports, as their UTF-8 bytes: the
      ASCII [\t \n \v \f \r] and space, U+0085, U+00A0, U+1680,
      U+2000 to U+200A, U+2028, U+2029, U+202F, U+205F and U+3000. *)
Definition space_seqs : list (list nat) :=
    ([[9]; [10]; [11]; [12]; [13]; [32]; [194; 133]; [194; 160]; [225; 154; 128]] ++
    ((λ k, [226; 128; k]) <$> seq 128 11) ++
    [[226; 128; 168]; [226; 128; 169]; [226; 128; 175]; [226; 129; 159]; [227; 128; 128]])%nat.

  (** [s] without the bytes [p] in front, if it starts with them. *)
Fixpoint strip_prefix (p : list nat) (s : string) : option string :=
    match p, s with
    | [], _ => Some s
    | n :: p', String c s' => if (nat_of_ascii c =? n)%nat then strip_prefix p' s' else None
    | _ :: _, EmptyString => None
    end.

  (** One space rune removed from the front, when [s] starts with one of
      [seqs] (no sequence of [seqs] is a prefix of another). *)
Definition strip_first (seqs : list (list nat)) (s : string) : option string :=
    foldr (λ p acc, match strip_prefix p s with Some t => Some t | None => acc end) None seqs.

  (** Removes leading runes of [seqs]; [fuel] bounds the number removed. *)
Fixpoint trim_seqs (seqs : list (list nat)) (fuel : nat) (s : string) : string :=
    match fuel with
    | O => s
    | S f => match strip_first seqs s with Some t => trim_seqs seqs f t | None => s end
    end.

  (** [strings.TrimLeftFunc(s, unicode.IsSpace)]: decoding the first
      rune of [s] gives a space exactly when [s] starts with its
      encoding; each step removes at least one byte, so [length s]
      steps are enough ([trim_left_enough]). *)
Definition trim_left (s : string) : string := trim_seqs space_seqs (String.length s) s.

  (** [strings.TrimRightFunc(s, unicode.IsSpace)]: the bytes after the
      last byte that starts a rune form the last rune, so the last rune
      is a space exactly when [s] ends with its encoding; the model
      trims the reversed string of the reversed encodings. *)
Definition trim_right (s : string) : string :=
    String.rev (trim_seqs (reverse <$> space_seqs) (String.length s) (String.rev s)).

  (** [strings.TrimSpace], applied to each field at stockparser.go 34-37. *)
Definition TrimSpace (s : string) : string := trim_right (trim_left s).

  (** ** [strconv.Atoi] *)

  (** The digit loop of [ParseUint] (base 10, 64 bits): a byte that is
      not a digit is a syntax error, a value above [2^64-1] a range
      error, whichever comes first. *)
Fixpoint scan_digits (s : string) (n : Z) : Z + NumError :=
    match s with
    | EmptyString => inl n
    | String c s' =>
        if is_digit c then
          let n1 := n * 10 + char_digit c in
          if n1 >? max_uint64 then inr ErrRange else scan_digits s' n1
        else inr ErrSyntax
    end.

  (** [ParseUint(s, 10, 64)]: the empty string is a syntax error. *)
Definition ParseUint (s : string) : Z + NumError :=
    match s with
    | EmptyString => inr ErrSyntax
    | _ => scan_digits s 0
    end.

  (** [ParseInt(s, 10, 0)] on a 64-bit target, which [Atoi] calls. *)
Definition Atoi (s : string) : Z + NumError :=
    let '(neg, body) :=
      match s with
      | String c s' => if Ascii.eqb c "-" then (true, s')
                       else if Ascii.eqb c "+" then (false, s') else (false, s)
      | EmptyString => (false, s)
      end in
    match s with
    | EmptyString => inr ErrSyntax
    | _ =>
        match ParseUint body with
        | inr e => inr e
        | inl un =>
            if neg then (if un >? 2 ^ 63 then inr ErrRange else inl (- un))
            else (if un >? max_int64 then inr ErrRange else inl un)
        end
    end.

  (** ** [strconv.Itoa] *)

  (** The decimal digits of [m >= 0], most significant first; [fuel]
      bounds the number of digits. *)
Fixpoint utoa (fuel : nat) (m : Z) : string :=
    match fuel with
    | O => EmptyString
    | S f =>
        if m <? 10 then String (digit_char m) EmptyString
        else String.append (utoa f (m / 10)) (String (digit_char (m mod 10)) EmptyString)
    end.

  (** [log2 m + 1] digits are always enough. *)
Definition utoa_fuel (m : Z) : nat := S (Z.to_nat (Z.log2 m)).

Definition Itoa (n : Z) : string :=
    if n <? 0 then String "-" (utoa (utoa_fuel (- n)) (- n))
    else utoa (utoa_fuel n) n.

  (** ** Lemmas *)

  (** The value of a string of digits read after [n]. *)
Fixpoint dec_val (s : string) (n : Z) : Z :=
    match s with
    | EmptyString => n
    | String c s' => dec_val s' (n * 10 + char_digit c)
    end.

Fixpoint all_digits (s : string) : bool :=
    match s with
    | EmptyString => true
    | String c s' => is_digit c && all_digits s'
    end.

Lemma char_digit_range c : is_digit c = true → 0 <= char_digit c <= 9.
  Proof.
    unfold is_digit, char_digit. intros [H1 H2]%andb_prop.
    apply Nat.leb_le in H1, H2. lia.
  Qed.

Lemma digit_char_ok d : 0 <= d <= 9 → is_digit (digit_char d) = true ∧ char_digit (digit_char d) = d.
  Proof.
    intros Hd. assert (d = 0 ∨ d = 1 ∨ d = 2 ∨ d = 3 ∨ d = 4 ∨ d = 5 ∨ d = 6 ∨ d = 7 ∨ d = 8 ∨ d = 9)
      as Hc by lia.
    repeat destruct Hc as [->|Hc]; [..|subst]; split; reflexivity.
  Qed.

Lemma dec_val_app s1 s2 n : dec_val (String.append s1 s2) n = dec_val s2 (dec_val s1 n).
  Proof. revert n. induction s1; simpl; auto. Qed.

Lemma all_digits_app s1 s2 : all_digits (String.append s1 s2) = all_digits s1 && all_digits s2.
  Proof. induction s1 as [|c s1 IH]; simpl; [done|]. by rewrite IH, andb_assoc. Qed.

Lemma dec_val_mono s n : all_digits s = true → 0 <= n → n <= dec_val s n.
  Proof.
    revert n. induction s as [|c s IH]; intros n Hs Hn; simpl in *; [lia|].
    apply andb_prop in Hs as [Hc Hs]. pose proof (char_digit_range c Hc).
    specialize (IH (n * 10 + char_digit c) Hs). lia.
  Qed.

  (** On digits, the scan fails exactly when the value exceeds
      [2^64-1]. *)
Lemma scan_digits_all s n :
    all_digits s = true → 0 <= n <= max_uint64 →
    scan_digits s n = if dec_val s n >? max_uint64 then inr ErrRange else inl (dec_val s n).
  Proof.
    revert n. induction s as [|c s IH]; intros n Hs Hn; simpl in *.
    { by rewrite Z.gtb_ltb, (proj2 (Z.ltb_ge _ _)) by lia. }
    apply andb_prop in Hs as [Hc Hs]. rewrite Hc. pose proof (char_digit_range c Hc).
    pose proof (dec_val_mono s (n * 10 + char_digit c) Hs ltac:(lia)).
    destruct (Z.gtb_spec (n * 10 + char_digit c) max_uint64).
    - by rewrite Z.gtb_ltb, (proj2 (Z.ltb_lt _ _)) by lia.
    - apply IH; [done|lia].
  Qed.

Lemma scan_digits_nonneg s n v : 0 <= n → scan_digits s n = inl v → 0 <= v.
  Proof.
    revert n. induction s as [|c s IH]; intros n Hn; simpl; [congruence|].
    destruct (is_digit c) eqn:Hc; [|discriminate]. pose proof (char_digit_range c Hc).
    destruct (_ >? _); [discriminate|]. apply IH. lia.
  Qed.

Lemma utoa_S f m :
    utoa (S f) m = if m <? 10 then String (digit_char m) EmptyString
                   else String.append (utoa f (m / 10)) (String (digit_char (m mod 10)) EmptyString).
  Proof. reflexivity. Qed.

Lemma utoa_ok f m :
    0 <= m < 10 ^ Z.of_nat (S f) →
    all_digits (utoa (S f) m) = true ∧ dec_val (utoa (S f) m) 0 = m ∧
    ∃ c s', utoa (S f) m = String c s' ∧ is_digit c = true.
  Proof.
    revert m. induction f as [|f IH]; intros m Hm; rewrite utoa_S;
      destruct (Z.ltb_spec m 10) as [Hlt|Hge].
    1, 3: destruct (digit_char_ok m ltac:(lia)) as [Hd Hv]; cbn [all_digits dec_val];
      rewrite Hd, Hv; split_and!; [done|lia|by eexists _, _].
    - exfalso. rewrite Z.pow_1_r in Hm. lia.
    - destruct (IH (m / 10)) as (Hd & Hv & c & s' & Hcs & Hc).
      { rewrite Nat2Z.inj_succ, Z.pow_succ_r in Hm by lia.
        split; [apply Z.div_pos; lia|]. apply Z.div_lt_upper_bound; lia. }
      destruct (digit_char_ok (m mod 10) ltac:(pose proof (Z.mod_pos_bound m 10); lia)) as [Hd' Hv'].
      rewrite all_digits_app, dec_val_app, Hd, Hv. cbn [all_digits dec_val]. rewrite Hd', Hv'.
      split_and!; [done|pose proof (Z.div_mod m 10 ltac:(lia)); lia|].
      rewrite Hcs. by exists c, (String.append s' (String (digit_char (m mod 10)) "")).
  Qed.

Lemma utoa_fuel_enough m : 0 <= m → 0 <= m < 10 ^ Z.of_nat (utoa_fuel m).
  Proof.
    intros Hm. split; [done|]. unfold utoa_fuel. rewrite Nat2Z.inj_succ, Z2Nat.id by apply Z.log2_nonneg.
    destruct (Z.eq_dec m 0) as [->|Hne]; [simpl; lia|].
    destruct (Z.log2_spec m) as [_ H]; [lia|].
    eapply Z.lt_le_trans; [exact H|]. apply Z.pow_le_mono_l. lia.
  Qed.

Lemma ParseUint_utoa m :
    0 <= m <= max_uint64 →
    ParseUint (utoa (utoa_fuel m) m) = inl m ∧
    ∃ c s', utoa (utoa_fuel m) m = String c s' ∧ is_digit c = true.
  Proof.
    intros Hm. destruct (utoa_ok (Z.to_nat (Z.log2 m)) m) as (Hd & Hv & c & s' & Hcs & Hc).
    { apply (utoa_fuel_enough m). lia. }
    fold (utoa_fuel m) in *. split; [|by exists c, s'].
    unfold ParseUint. rewrite Hcs, <- Hcs, scan_digits_all, Hv by (done || unfold max_uint64; lia).
    by rewrite Z.gtb_ltb, (proj2 (Z.ltb_ge _ _)) by lia.
  Qed.

Lemma strip_first_avoid seqs c s :
    forallb (λ p, match p with n :: _ => (n <? 45) || (57 <? n) | [] => false end)%nat seqs = true →
    (45 <= nat_of_ascii c <= 57)%nat → strip_first seqs (String c s) = None.
  Proof.
    unfold strip_first. induction seqs as [|[|n p] seqs IH]; simpl; [done|done|].
    intros [Hn Hs]%andb_prop Hc. rewrite IH by done.
    destruct (Nat.eqb_spec (nat_of_ascii c) n); [|done].
    subst. apply orb_prop in Hn as [?%Nat.ltb_lt | ?%Nat.ltb_lt]; lia.
  Qed.

  (** No space rune starts or ends with ['-'] or a digit. *)
Lemma space_seqs_avoid :
    forallb (λ p, match p with n :: _ => (n <? 45) || (57 <? n) | [] => false end)%nat space_seqs = true ∧
    forallb (λ p, match p with n :: _ => (n <? 45) || (57 <? n) | [] => false end)%nat
      (reverse <$> space_seqs) = true.
  Proof. split; vm_compute; reflexivity. Qed.

Lemma strip_prefix_length p s t :
    strip_prefix p s = Some t → (String.length t + length p)%nat = String.length s.
  Proof.
    revert s. induction p as [|n p IH]; intros [|c s]; simpl; try congruence;
      [intros [= <-]; simpl; lia..|].
    destruct (nat_of_ascii c =? n)%nat; [|done]. intros H%IH. lia.
  Qed.

Lemma strip_first_some seqs s t :
    strip_first seqs s = Some t → ∃ p, p ∈ seqs ∧ strip_prefix p s = Some t.
  Proof.
    unfold strip_first. induction seqs as [|p seqs IH]; simpl; [done|].
    destruct (strip_prefix p s) eqn:E.
    - intros [= <-]. exists p. split; [left|done].
    - intros (q & ? & ?)%IH. exists q. split; [by right|done].
  Qed.

Lemma strip_first_empty seqs : Forall (λ p, p ≠ []) seqs → strip_first seqs EmptyString = None.
  Proof.
    unfold strip_first. induction 1 as [|[|n p] seqs Hp _ IH]; simpl; [done|done|]. exact IH.
  Qed.

  (** [trim_seqs] with at least [length s] fuel leaves no leading rune
      of [seqs]. *)
Lemma trim_seqs_enough seqs f s :
    Forall (λ p, p ≠ []) seqs → (String.length s <= f)%nat →
    strip_first seqs (trim_seqs seqs f s) = None.
  Proof.
    intros Hne. revert s. induction f as [|f IH]; intros s Hs; simpl.
    - destruct s; [by apply strip_first_empty|simpl in Hs; lia].
    - destruct (strip_first seqs s) as [t|] eqn:E; [|done].
      apply IH. destruct (strip_first_some _ _ _ E) as (p & Hp & Ht%strip_prefix_length).
      rewrite Forall_forall in Hne. specialize (Hne p Hp). destruct p; [done|]. simpl in Ht. lia.
  Qed.

Lemma space_seqs_nonempty :
    Forall (λ p, p ≠ []) space_seqs ∧ Forall (λ p, p ≠ []) (reverse <$> space_seqs).
  Proof. split; repeat constructor; discriminate. Qed.

Lemma rev_app_rev_app s a b : String.rev_app (String.rev_app s a) b = String.rev_app a (String.append s b).
  Proof. revert a b. induction s as [|c s IH]; intros a b; simpl; [done|]. by rewrite IH. Qed.

Lemma append_empty_r s : String.append s EmptyString = s.
  Proof. induction s as [|c s IH]; [done|]. change (String c (String.append s "") = String c s). by rewrite IH. Qed.

Lemma rev_involutive s : String.rev (String.rev s) = s.
  Proof. unfold String.rev. rewrite rev_app_rev_app. exact (append_empty_r s). Qed.

Lemma length_rev_app s acc : String.length (String.rev_app s acc) = (String.length s + String.length acc)%nat.
  Proof. revert acc. induction s as [|c s IH]; intros acc; simpl; [done|]. rewrite IH. simpl. lia. Qed.

Lemma rev_app_digit_head u acc :
    all_digits u = true → u ≠ EmptyString →
    ∃ c s', String.rev_app u acc = String c s' ∧ is_digit c = true.
  Proof.
    revert acc. induction u as [|x u IH]; intros acc Hu Hne; [done|].
    simpl in Hu |- *. apply andb_prop in Hu as [Hx Hu].
    destruct u as [|y u']; [by exists x, acc|]. apply IH; [done|discriminate].
  Qed.

  (** The fuel of [trim_left] and [trim_right] is enough: what they
      return neither starts (resp. ends) with a space rune. *)
Lemma trim_left_enough s : strip_first space_seqs (trim_left s) = None.
  Proof. apply trim_seqs_enough; [apply space_seqs_nonempty|done]. Qed.

Lemma trim_right_enough s : strip_first (reverse <$> space_seqs) (String.rev (trim_right s)) = None.
  Proof.
    unfold trim_right. rewrite rev_involutive. apply trim_seqs_enough; [apply space_seqs_nonempty|].
    unfold String.rev. rewrite length_rev_app. simpl. lia.
  Qed.

  (** A string that neither starts nor ends with a space rune is left
      unchanged by [TrimSpace]. *)
Lemma TrimSpace_id s :
    strip_first space_seqs s = None →
    strip_first (reverse <$> space_seqs) (String.rev s) = None →
    TrimSpace s = s.
  Proof.
    intros Hl Hr. unfold TrimSpace, trim_right, trim_left.
    assert (trim_seqs space_seqs (String.length s) s = s) as ->
      by (destruct (String.length s); cbn [trim_seqs]; [done|by rewrite Hl]).
    destruct (String.length s); cbn [trim_seqs]; [|rewrite Hr]; apply rev_involutive.
  Qed.

Lemma TrimSpace_Itoa n : min_int64 <= n <= max_int64 → TrimSpace (Itoa n) = Itoa n.
  Proof.
    intros Hn. destruct space_seqs_avoid as [Hl Hr].
    unfold Itoa, min_int64, max_int64 in *. destruct (Z.ltb_spec n 0).
    - destruct (utoa_ok (Z.to_nat (Z.log2 (- n))) (- n)) as (Hd & _ & c & s' & Hcs & Hc);
        [apply (utoa_fuel_enough (- n)); lia|]. fold (utoa_fuel (- n)) in *.
      apply TrimSpace_id; [apply strip_first_avoid; [done|change (45 <= 45 <= 57)%nat; lia]|].
      unfold String.rev. cbn [String.rev_app]. rewrite Hcs in Hd |- *.
      destruct (rev_app_digit_head (String c s') "-" Hd) as (d & r & -> & Hdig); [done|].
      apply strip_first_avoid; [done|]. apply andb_prop in Hdig as [?%Nat.leb_le ?%Nat.leb_le]. lia.
    - destruct (utoa_ok (Z.to_nat (Z.log2 n)) n) as (Hd & _ & c & s' & Hcs & Hc);
        [apply (utoa_fuel_enough n); lia|]. fold (utoa_fuel n) in *. rewrite Hcs in Hd |- *.
      apply TrimSpace_id.
      { apply strip_first_avoid; [done|]. simpl in Hd. apply andb_prop in Hd as [Hdig _].
        apply andb_prop in Hdig as [?%Nat.leb_le ?%Nat.leb_le]. lia. }
      unfold String.rev.
      destruct (rev_app_digit_head (String c s') "" Hd) as (d & r & -> & Hdig); [done|].
      apply strip_first_avoid; [done|]. apply andb_prop in Hdig as [?%Nat.leb_le ?%Nat.leb_le]. lia.
  Qed.

Lemma Atoi_minus b :
    Atoi (String "-" b) =
      match ParseUint b with
      | inr e => inr e
      | inl un => if un >? 2 ^ 63 then inr ErrRange else inl (- un)
      end.
  Proof. reflexivity. Qed.

Lemma Atoi_plus b :
    Atoi (String "+" b) =
      match ParseUint b with
      | inr e => inr e
      | inl un => if un >? max_int64 then inr ErrRange else inl un
      end.
  Proof. reflexivity. Qed.

Lemma Atoi_other c b :
    Ascii.eqb c "-" = false → Ascii.eqb c "+" = false →
    Atoi (String c b) =
      match ParseUint (String c b) with
      | inr e => inr e
      | inl un => if un >? max_int64 then inr ErrRange else inl un
      end.
  Proof. intros H1 H2. unfold Atoi. by rewrite H1, H2. Qed.

Lemma Atoi_digit c b :
    is_digit c = true →
    Atoi (String c b) =
      match ParseUint (String c b) with
      | inr e => inr e
      | inl un => if un >? max_int64 then inr ErrRange else inl un
      end.
  Proof. intros Hc. apply Atoi_other; apply Ascii.eqb_neq; intros ->; discriminate. Qed.

Lemma ParseUint_nonneg b un : ParseUint b = inl un → 0 <= un.
  Proof. destruct b as [|c b]; [discriminate|]. apply scan_digits_nonneg. lia. Qed.

  (** [strconv.Atoi] reads back what [strconv.Itoa] prints, for every
      64-bit [int]. *)
Theorem Atoi_Itoa n : min_int64 <= n <= max_int64 → Atoi (Itoa n) = inl n.
  Proof.
    intros Hn. unfold Itoa, min_int64, max_int64 in *. destruct (Z.ltb_spec n 0).
    - destruct (ParseUint_utoa (- n)) as [Hp _]; [unfold max_uint64; lia|].
      rewrite Atoi_minus, Hp, Z.gtb_ltb, (proj2 (Z.ltb_ge _ _)) by lia. f_equal. lia.
    - destruct (ParseUint_utoa n) as [Hp (c & s' & Hcs & Hc)]; [unfold max_uint64; lia|].
      rewrite Hcs, Atoi_digit, <- Hcs, Hp by done. unfold max_int64.
      by rewrite Z.gtb_ltb, (proj2 (Z.ltb_ge _ _)) by lia.
  Qed.

  (** Every number [strconv.Atoi] returns is a 64-bit [int]. *)
Lemma Atoi_range s n : Atoi s = inl n → min_int64 <= n <= max_int64.
  Proof.
    unfold min_int64, max_int64. destruct s as [|c b]; [discriminate|].
    destruct (Ascii.eqb_spec c "-") as [->|H1]; [rewrite Atoi_minus|];
      [|destruct (Ascii.eqb_spec c "+") as [->|H2];
        [rewrite Atoi_plus|rewrite Atoi_other by (by apply Ascii.eqb_neq)]];
      destruct (ParseUint _) as [un|e] eqn:Hp; try discriminate;
      pose proof (ParseUint_nonneg _ _ Hp); unfold max_int64;
      rewrite Z.gtb_ltb; case_match eqn:E; try discriminate; intros [= <-];
      apply Z.ltb_ge in E; lia.
  Qed.


End Strconv.

Export Strconv.
