(* ===== verification/Parser.v ===== *)
(** * Parser: [stockparser.ParseFromCSV] ([src/stockparser/stockparser.go])

    [ParseFromCSV] reads CSV records with Go's [encoding/csv] reader
    and fills a [StockMatrix].  The CSV tokenizer itself is a library
    the code only calls; the model takes what the reader returns, one
    [Read] call after the other, as a list of [ReadResult]s:
    - [ReadRecord r]: a record and no error;
    - [ReadError r]: a record and an error other than [io.EOF] (the
      code ignores the error; the reader returns the record with
      [ErrFieldCount] and no record, [[]], with a parse error);
    - [ReadEOF]: [io.EOF], which ends the loop.
    Each record is read as the code reads it: the four first fields
    trimmed, the header row [Store, Product] skipped wherever it
    appears, the store's inner map created when absent, and the two
    numbers parsed with [Atoi]; the first failure returns the error
    and no stock, and a record with fewer than four fields makes the
    indexing [record[k]] panic ([ParsePanic]). *)

From S2P Require Import Prelude Stock Strconv.

Module Parser.

Inductive ReadResult :=
  | ReadRecord (record : list string)
  | ReadError (record : list string)
  | ReadEOF.

  (** The outcome of [ParseFromCSV]: [(stock, nil)], [(nil, err)], or
      a run-time panic (index out of range). *)
Inductive ParseResult :=
  | ParseOk (stock : StockMatrix)
  | ParseErr (e : NumError)
  | ParsePanic.

  (** What one iteration of the loop does with a record. *)
Inductive RecordOutcome :=
  | RSkip                      (* the header: [continue] *)
  | RStore (stock : StockMatrix)
  | RFail (e : NumError)       (* [return nil, err] *)
  | RPanic.

  (** [if stock[store] == nil { stock[store] = make(...) }] *)
Definition ensure_store (store : string) (stock : StockMatrix) : StockMatrix :=
    match stock !! store with
    | None => <[store := ∅]> stock
    | Some _ => stock
    end.

  (** The body of the [for] loop for one record (stockparser.go 34-62). *)
Definition parse_record (stock : StockMatrix) (record : list string) : RecordOutcome :=
    match record with
    | f0 :: f1 :: f2 :: f3 :: _ =>
        let store := TrimSpace f0 in
        let product := TrimSpace f1 in
        let value := TrimSpace f2 in
        let max := TrimSpace f3 in
        if String.eqb store "Store" && String.eqb product "Product" then RSkip
        else
          let stock := ensure_store store stock in
          match Atoi value with
          | inr e => RFail e
          | inl istock =>
              match Atoi max with
              | inr e => RFail e
              | inl imax => RStore (insert2 store product (mkStockItem istock imax) stock)
              end
          end
    | _ => RPanic
    end.

  (** The [for] loop over the successive [Read] results. *)
Fixpoint parse_loop (reads : list ReadResult) (stock : StockMatrix) : ParseResult :=
    match reads with
    | [] | ReadEOF :: _ => ParseOk stock
    | (ReadRecord record | ReadError record) :: rest =>
        match parse_record stock record with
        | RSkip => parse_loop rest stock
        | RStore stock' => parse_loop rest stock'
        | RFail e => ParseErr e
        | RPanic => ParsePanic
        end
    end.

  (** [ParseFromCSV] (stockparser.go 22-67). *)
Definition ParseFromCSV (reads : list ReadResult) : ParseResult := parse_loop reads ∅.

  (** ** A snapshot written as CSV *)

  (** The cells of a snapshot, store by store. *)
Definition cells (σ : StockMatrix) : list (string * string * StockItem) :=
    map_to_list σ ≫= λ '(s, inner), (λ '(p, it), (s, p, it)) <$> map_to_list inner.

  (** One record per cell, [Store, Product, Stock, Max]. *)
Definition csv_record (c : string * string * StockItem) : ReadResult :=
    let '(s, p, it) := c in ReadRecord [s; p; Itoa (Has it); Itoa (Needs it)].

Definition csv_records (σ : StockMatrix) : list ReadResult := csv_record <$> cells σ.

Definition in_int64 (z : Z) : Prop := min_int64 <= z <= max_int64.

  (** A snapshot that its CSV form can carry: no store without product,
      names that [TrimSpace] leaves alone, no cell that reads as the
      header, and numbers that are 64-bit [int]s. *)
Definition csv_safe (σ : StockMatrix) : Prop :=
    map_Forall (λ s inner, inner ≠ ∅ ∧
      map_Forall (λ p it, TrimSpace s = s ∧ TrimSpace p = p ∧
        ¬ (s = "Store" ∧ p = "Product") ∧ in_int64 (Has it) ∧ in_int64 (Needs it)) inner) σ.

#[export] Instance csv_safe_dec σ : Decision (csv_safe σ).
  Proof. unfold csv_safe, in_int64. apply _. Defined.

  (** ** Lemmas *)

Definition insert_cell (m : StockMatrix) (c : string * string * StockItem) : StockMatrix :=
    let '(s, p, it) := c in insert2 s p it m.

Lemma insert2_ensure_store s p it m : insert2 s p it (ensure_store s m) = insert2 s p it m.
  Proof.
    unfold ensure_store, insert2. destruct (m !! s) eqn:E; [done|].
    rewrite insert_insert_eq, lookup_total_insert_eq, !lookup_total_alt, E. done.
  Qed.

Lemma elem_of_cells σ s p it : (s, p, it) ∈ cells σ ↔ lookup2 s p σ = Some it.
  Proof.
    unfold cells, lookup2. rewrite list_elem_of_bind. split.
    - intros ([s' inner] & Hin & Hσ%elem_of_map_to_list).
      apply list_elem_of_fmap in Hin as ([p' it'] & [= -> -> ->] & Hi%elem_of_map_to_list).
      by rewrite Hσ.
    - destruct (σ !! s) as [inner|] eqn:E; [|discriminate]. simpl. intros Hi.
      exists (s, inner). split; [|by apply elem_of_map_to_list].
      apply list_elem_of_fmap. exists (p, it). split; [done|by apply elem_of_map_to_list].
  Qed.

Definition cell_key (c : string * string * StockItem) : string * string := (c.1.1, c.1.2).

Lemma NoDup_cells σ : NoDup (cell_key <$> cells σ).
  Proof.
    apply NoDup_fmap_2_strong.
    - intros [[s1 p1] it1] [[s2 p2] it2] H1%elem_of_cells H2%elem_of_cells [= -> ->]. congruence.
    - unfold cells. apply NoDup_bind; [| |apply NoDup_map_to_list].
      + intros [s1 i1] [s2 i2] [[s p] it] H1%elem_of_map_to_list H2%elem_of_map_to_list
          ([? ?] & [= -> _ _] & _)%list_elem_of_fmap ([? ?] & [= -> _ _] & _)%list_elem_of_fmap.
        congruence.
      + intros [s inner] _. apply NoDup_fmap_2_strong; [|apply NoDup_map_to_list].
        intros [p1 it1] [p2 it2] H1 H2 [= -> ->]. done.
  Qed.

Lemma fold_insert_cell_lookup2 l m s p :
    NoDup (cell_key <$> l) →
    (∀ it, (s, p, it) ∈ l → lookup2 s p (fold_left insert_cell l m) = Some it) ∧
    ((∀ it, (s, p, it) ∉ l) → lookup2 s p (fold_left insert_cell l m) = lookup2 s p m).
  Proof.
    revert m. induction l as [|[[s' p'] it'] l IH]; intros m Hnd; simpl; [set_solver|].
    apply NoDup_cons in Hnd as [Hk Hnd]. destruct (IH (insert2 s' p' it' m) Hnd) as [IH1 IH2].
    split.
    - intros it [[= <- <- <-] | Hin]%elem_of_cons; [|by apply IH1].
      rewrite IH2; [by rewrite lookup2_insert2_any, decide_True|].
      intros it2 Hin. apply Hk, list_elem_of_fmap. by exists (s, p, it2).
    - intros Hnot. rewrite IH2 by set_solver. rewrite lookup2_insert2_any, decide_False; [done|].
      intros [-> ->]. by apply (Hnot it'), elem_of_cons; left.
  Qed.

Lemma fold_insert_cell_outer l m s :
    is_Some (fold_left insert_cell l m !! s) ↔ (∃ p it, (s, p, it) ∈ l) ∨ is_Some (m !! s).
  Proof.
    revert m. induction l as [|[[s' p'] it'] l IH]; intros m; simpl; [set_solver|].
    rewrite IH. unfold insert2. rewrite lookup_insert. case_decide as Hs; subst; [|set_solver].
    split; [intros _; left; exists p', it'; by left|intros _; right; by eexists].
  Qed.

  (** A snapshot with no empty store is the fold of its cells. *)
Lemma fold_cells σ :
    (∀ s inner, σ !! s = Some inner → inner ≠ ∅) → fold_left insert_cell (cells σ) ∅ = σ.
  Proof.
    intros Hne. apply nested_map_eq.
    - intros s. rewrite fold_insert_cell_outer, lookup_empty. split.
      + intros [(p & it & Hin%elem_of_cells) | [? ?]]; [|done].
        unfold lookup2 in Hin. destruct (σ !! s); [by eexists|discriminate].
      + intros [inner Hi]. left. destruct (map_choose inner) as (p & it & Hp); [by eapply Hne|].
        exists p, it. apply elem_of_cells. unfold lookup2. by rewrite Hi.
    - intros s p. destruct (fold_insert_cell_lookup2 (cells σ) ∅ s p (NoDup_cells σ)) as [H1 H2].
      destruct (lookup2 s p σ) as [it|] eqn:E.
      + by rewrite (H1 it) by (by apply elem_of_cells).
      + rewrite H2; [done|]. intros it Hin%elem_of_cells. congruence.
  Qed.

  (** Reading the record of a cell stores the cell. *)
Lemma parse_record_cell m s p it :
    TrimSpace s = s → TrimSpace p = p → ¬ (s = "Store" ∧ p = "Product") →
    in_int64 (Has it) → in_int64 (Needs it) →
    parse_record m [s; p; Itoa (Has it); Itoa (Needs it)] = RStore (insert2 s p it m).
  Proof.
    intros Hs Hp Hh Hhas Hneeds. unfold parse_record.
    rewrite Hs, Hp, !TrimSpace_Itoa, !Atoi_Itoa by done.
    destruct (String.eqb_spec s "Store"), (String.eqb_spec p "Product"); simpl; [naive_solver|..];
      rewrite insert2_ensure_store; by destruct it.
  Qed.

Lemma csv_safe_cell σ s p it :
    csv_safe σ → lookup2 s p σ = Some it →
    TrimSpace s = s ∧ TrimSpace p = p ∧ ¬ (s = "Store" ∧ p = "Product") ∧
    in_int64 (Has it) ∧ in_int64 (Needs it).
  Proof.
    unfold lookup2. intros Hσ Hl. destruct (σ !! s) as [inner|] eqn:E; [|discriminate].
    exact (proj2 (Hσ s inner E) p it Hl).
  Qed.

Lemma parse_loop_cells l m :
    (∀ s p it, (s, p, it) ∈ l → TrimSpace s = s ∧ TrimSpace p = p ∧
       ¬ (s = "Store" ∧ p = "Product") ∧ in_int64 (Has it) ∧ in_int64 (Needs it)) →
    parse_loop (csv_record <$> l) m = ParseOk (fold_left insert_cell l m).
  Proof.
    revert m. induction l as [|[[s p] it] l IH]; intros m Hc; [done|].
    destruct (Hc s p it) as (H1 & H2 & H3 & H4 & H5); [by left|].
    rewrite fmap_cons. cbn [parse_loop csv_record fold_left insert_cell].
    rewrite parse_record_cell by done. apply IH. intros ??? Hin. apply Hc. by right.
  Qed.

  (** C18: round trip.  Parsing the CSV records of a snapshot that the
      format can carry (no empty store, names without surrounding white
      space, no cell that reads as the header, 64-bit numbers) gives the
      snapshot back. *)
Theorem ParseFromCSV_csv_records σ : csv_safe σ → ParseFromCSV (csv_records σ) = ParseOk σ.
  Proof.
    intros Hσ. unfold ParseFromCSV, csv_records. rewrite parse_loop_cells.
    - f_equal. apply fold_cells. intros s inner E. exact (proj1 (Hσ s inner E)).
    - intros s p it Hin%elem_of_cells. by apply (csv_safe_cell σ).
  Qed.

  (** ** Errors *)

  (** Reading a prefix with no [io.EOF] and then the rest. *)
Lemma parse_loop_app pre post m :
    ReadEOF ∉ pre →
    parse_loop (pre ++ post) m =
      match parse_loop pre m with ParseOk m' => parse_loop post m' | r => r end.
  Proof.
    revert m. induction pre as [|r pre IH]; intros m Hpre; [done|].
    rewrite not_elem_of_cons in Hpre. destruct Hpre as [Hr Hpre].
    destruct r as [rec|rec|]; [| |done]; simpl;
      destruct (parse_record m rec); auto.
  Qed.

  (** C21: a number that does not parse aborts the whole read.  After any
      prefix that parses (with no [io.EOF] in it), a record whose stock
      or target is not a 64-bit integer makes [ParseFromCSV] return that
      error and no stock, whatever follows. *)
Theorem ParseFromCSV_error_aborts pre post st f0 f1 f2 f3 rest e :
    ReadEOF ∉ pre → ParseFromCSV pre = ParseOk st →
    ¬ (TrimSpace f0 = "Store" ∧ TrimSpace f1 = "Product") →
    (Atoi (TrimSpace f2) = inr e ∨
     ∃ v, Atoi (TrimSpace f2) = inl v ∧ Atoi (TrimSpace f3) = inr e) →
    ParseFromCSV (pre ++ ReadRecord (f0 :: f1 :: f2 :: f3 :: rest) :: post) = ParseErr e.
  Proof.
    intros Heof Hpre Hhd Hnum. unfold ParseFromCSV in *.
    rewrite parse_loop_app, Hpre by done. simpl. unfold parse_record.
    destruct (String.eqb_spec (TrimSpace f0) "Store"), (String.eqb_spec (TrimSpace f1) "Product");
      simpl; [naive_solver|..];
      (destruct Hnum as [-> | (v & -> & ->)]; reflexivity).
  Qed.

  (** C28: a short record panics instead of failing.  After any prefix
      that parses (with no [io.EOF] in it), a record with fewer than
      four fields, as the reader returns it with [ErrFieldCount] or
      (empty) with a parse error, makes [ParseFromCSV] panic on the
      index [record[k]], whatever follows: no error is returned. *)
Theorem ParseFromCSV_short_record_panics pre post st r rec :
    ReadEOF ∉ pre → ParseFromCSV pre = ParseOk st →
    (r = ReadRecord rec ∨ r = ReadError rec) → (length rec < 4)%nat →
    ParseFromCSV (pre ++ r :: post) = ParsePanic.
  Proof.
    intros Heof Hpre Hr Hlen. unfold ParseFromCSV in *.
    rewrite parse_loop_app, Hpre by done.
    assert (parse_record st rec = RPanic) as Hp
      by (destruct rec as [|? [|? [|? [|? ?]]]]; simpl in Hlen; [done..|lia]).
    by destruct Hr as [-> | ->]; simpl; rewrite Hp.
  Qed.

  (** C29: the header row is skipped wherever it appears.  A record
      whose first two fields trim to [Store] and [Product] is dropped at
      any position after a prefix with no [io.EOF], not only as the
      first row: the cell [Product] of a store named [Store] is lost. *)
Theorem ParseFromCSV_header_anywhere pre post f0 f1 f2 f3 rest :
    ReadEOF ∉ pre → TrimSpace f0 = "Store" → TrimSpace f1 = "Product" →
    ParseFromCSV (pre ++ ReadRecord (f0 :: f1 :: f2 :: f3 :: rest) :: post) =
      ParseFromCSV (pre ++ post).
  Proof.
    intros Heof H0 H1. unfold ParseFromCSV. rewrite !parse_loop_app by done.
    destruct (parse_loop pre ∅); [|done..]. simpl. unfold parse_record. by rewrite H0, H1.
  Qed.

  (** [Atoi] accepts a sign, so a negative target reaches the
      optimiser: the parsed snapshot is not well formed. *)
Example ParseFromCSV_accepts_negative :
    ParseFromCSV [ReadRecord ["A"; "P"; "2"; " -5"]] = ParseOk {["A" := {["P" := mkStockItem 2 (-5)]}]} ∧
    ¬ stock_wf {["A" := {["P" := mkStockItem 2 (-5)]}]}.
  Proof.
    split; [vm_compute; reflexivity|].
    apply (bool_decide_unpack (¬ stock_wf _)). vm_compute. exact I.
  Qed.

  (** ** Concrete cases *)

Definition parser_stock : StockMatrix :=
    <["Paris" := <["Apples" := mkStockItem 7 9]> {["Corn" := mkStockItem 0 4]}]>
    {["Bucharest" := {["Apples" := mkStockItem 17 3]}]}.

Lemma ParseFromCSV_csv_records_witness :
    csv_safe parser_stock ∧ ParseFromCSV (csv_records parser_stock) = ParseOk parser_stock.
  Proof.
    assert (H : csv_safe parser_stock)
      by (apply (bool_decide_unpack (csv_safe _)); vm_compute; exact I).
    split; [exact H|]. exact (ParseFromCSV_csv_records parser_stock H).
  Defined.

Lemma ParseFromCSV_error_aborts_witness :
    let pre := [ReadRecord ["Store"; "Product"; "Stock"; "Max"]; ReadRecord ["Paris"; "Apples"; "7"; "9"]] in
    ParseFromCSV (pre ++ ReadRecord ["Paris"; "Corn"; "four"; "4"] :: [ReadRecord ["Lyon"; "Corn"; "1"; "1"]])
      = ParseErr ErrSyntax.
  Proof.
    intros pre.
    assert (H1 : ReadEOF ∉ pre) by (unfold pre; set_solver).
    assert (H2 : ParseFromCSV pre = ParseOk {["Paris" := {["Apples" := mkStockItem 7 9]}]})
      by (vm_compute; reflexivity).
    assert (H3 : ¬ (TrimSpace "Paris" = "Store" ∧ TrimSpace "Corn" = "Product"))
      by (vm_compute; intros [H _]; discriminate).
    assert (H4 : Atoi (TrimSpace "four") = inr ErrSyntax ∨
                 ∃ v, Atoi (TrimSpace "four") = inl v ∧ Atoi (TrimSpace "4") = inr ErrSyntax)
      by (left; vm_compute; reflexivity).
    exact (ParseFromCSV_error_aborts pre _ _ "Paris" "Corn" "four" "4" [] ErrSyntax H1 H2 H3 H4).
  Defined.

Lemma ParseFromCSV_short_record_panics_witness :
    ParseFromCSV ([ReadRecord ["Store"; "Product"; "Stock"; "Max"]] ++ ReadError [] ::
                  [ReadRecord ["Paris"; "Apples"; "7"; "9"]]) = ParsePanic.
  Proof.
    assert (H1 : ReadEOF ∉ [ReadRecord ["Store"; "Product"; "Stock"; "Max"]]) by set_solver.
    assert (H2 : ParseFromCSV [ReadRecord ["Store"; "Product"; "Stock"; "Max"]] = ParseOk ∅)
      by (vm_compute; reflexivity).
    exact (ParseFromCSV_short_record_panics _ _ _ (ReadError []) [] H1 H2 (or_intror eq_refl)
             (Nat.lt_0_succ 3)).
  Defined.

Lemma ParseFromCSV_header_anywhere_witness :
    ParseFromCSV ([ReadRecord ["Store"; "Apples"; "1"; "2"]] ++
                  ReadRecord [" Store"; "Product "; "3"; "4"] :: []) =
      ParseFromCSV [ReadRecord ["Store"; "Apples"; "1"; "2"]].
  Proof.
    assert (H1 : ReadEOF ∉ [ReadRecord ["Store"; "Apples"; "1"; "2"]]) by set_solver.
    assert (H2 : TrimSpace " Store" = "Store") by (vm_compute; reflexivity).
    assert (H3 : TrimSpace "Product " = "Product") by (vm_compute; reflexivity).
    exact (ParseFromCSV_header_anywhere _ [] _ _ "3" "4" [] H1 H2 H3).
  Defined.

End Parser.

Export Parser.
