(* ===== verification/Orchestrator.v ===== *)
(** * Orchestrator: the optimisation loop [RunOpti] ([src/opti/opti.go])

    The state of a run: the private copy of the stock, the availability
    matrix [transferAvailabilityMat], the counters [transferCounterMat],
    the phase flag [prioriFirst], [loopCounter], the committed
    transfers and the progress values sent on the channel.  One round
    evaluates every eligible pair, reduces the candidates, and either
    switches phase, stops, or commits the winner.

    The loop is written against any evaluator meeting [PairEvaluator]
    (Section [Run]); [RunOpti] instantiates it with [doExchangeItems].
    The loop runs on fuel; [run_loop_some] shows that fuel above the
    measure [run_measure] always gives a final state reachable by
    rounds, so the fuel [RunOpti] gives is enough.  The step relation
    [round_step] lets the candidates of a round arrive in any order, as
    the goroutines deliver them; the invariant [run_inv] holds in every
    reachable state, and when no store name contains ['-'] a round has
    one outcome whatever the order ([round_step_det],
    [run_final_unique]). *)

From Stdlib Require Import QArith.
From S2P Require Import Prelude Stock Transfer Exchange Osa.

(** [type Optimisation struct {...}] *)
Record Optimisation := mkOptimisation {
  InStock : StockMatrix;
  AfterStock : StockMatrix;
  Transfers : list Transfer;
  OSettings : Settings;
  OSAIncrease : Q
}.

Module Orchestrator.

  (** ** Settings and helpers *)

  (** Rule 1: [maxTo := 10; if settings.MaxTo > 0 { maxTo = settings.MaxTo }]. *)
Definition effective_maxTo (settings : Settings) : Z :=
    if MaxTo settings >? 0 then MaxTo settings else 10.

  (** Rule 3: [minProducts := 1; if settings.MinProducts > 0 {...}]. *)
Definition effective_minProducts (settings : Settings) : Z :=
    if MinProducts settings >? 0 then MinProducts settings else 1.

  (** [func stringInSlice(a string, list []string) bool] *)
Fixpoint stringInSlice (a : string) (l : list string) : bool :=
    match l with
    | [] => false
    | b :: l' => if String.eqb b a then true else stringInSlice a l'
    end.

Abbreviation BoolMatrix := (gmap string (gmap string bool)).

  (** [transferAvailabilityMat[s1][s2]] (the zero value is [false]). *)
Definition avail_at (avail : BoolMatrix) (s1 s2 : string) : bool :=
    default false (lookup2 s1 s2 avail).

  (** [transferCounterMat[s]] (the zero value is [0]). *)
Definition counter_at (counter : gmap string Z) (s : string) : Z :=
    default 0 (counter !! s).

  (** The availability matrix as [RunOpti] builds it (opti.go 57-67). *)
Definition init_avail (stock : StockMatrix) : BoolMatrix :=
    map_imap (λ store1 _,
      Some (map_imap (λ store2 _, Some (negb (String.eqb store1 store2))) stock)) stock.

  (** ** The state of a run *)

Record OptiState := mkOptiState {
    os_stock : StockMatrix;           (* mystock *)
    os_avail : BoolMatrix;            (* transferAvailabilityMat *)
    os_counter : gmap string Z;       (* transferCounterMat *)
    os_priori : bool;                 (* prioriFirst *)
    os_loop : Z;                      (* loopCounter *)
    os_transfers : list Transfer;     (* transfers *)
    os_progress : list Z              (* values sent on [progress] *)
  }.

  (** The stores, in the order of [range mystock]. *)
Definition stores (σ : StockMatrix) : list string := (map_to_list σ).*1.

  (** [len(mystock)]. *)
Definition nstores (σ : StockMatrix) : Z := Z.of_nat (size σ).

  Section Run.
    Context (ev : Evaluator) (settings : Settings).

Definition maxTo : Z := effective_maxTo settings.
Definition minProducts : Z := effective_minProducts settings.

    (** The guard of opti.go 86-87. *)
Definition eligible (st : OptiState) (store1 store2 : string) : bool :=
      avail_at (os_avail st) store1 store2 &&
      (counter_at (os_counter st) store1 <? maxTo) &&
      ((os_priori st && (stringInSlice store1 (DeStockIn settings) ||
                         stringInSlice store2 (SecureStockIn settings)))
       || negb (os_priori st)).

    (** The pairs for which a goroutine is started (opti.go 84-97). *)
Definition round_pairs (st : OptiState) : list (string * string) :=
      stores (os_stock st) ≫= λ store1,
        (λ store2, (store1, store2)) <$>
          filter (λ store2, eligible st store1 store2 = true) (stores (os_stock st)).

    (** What the goroutines send on [transfersList]: each evaluates its
        pair without commit on the shared, unchanged stock. *)
Definition round_candidates (st : OptiState) : list Transfer :=
      (λ '(store1, store2), (ev (os_stock st) settings store1 store2 false).2) <$>
        round_pairs st.

    (** The outcome of one iteration of the [for] loop. *)
Inductive RoundOutcome :=
    | RCommit (st : OptiState)     (* a transfer was committed *)
    | RSwitch (st : OptiState)     (* [prioriFirst = false; continue] *)
    | RDone.                       (* [break] *)

    (** The commit of the winner (opti.go 128-138). *)
Definition commit (st : OptiState) (best : Transfer) : OptiState :=
      let from := FromStore best in
      let to := ToStore best in
      let avail := insert2 from to false (os_avail st) in
      let counter := <[from := counter_at (os_counter st) from + 1]> (os_counter st) in
      let '(stock, t) := ev (os_stock st) settings from to true in
      let loopCounter := os_loop st + 1 in
      mkOptiState stock avail counter (os_priori st) loopCounter
        (os_transfers st ++ [t])
        (os_progress st ++ [(loopCounter * 100) ÷ (nstores stock * maxTo)]).

    (** One iteration, given the order in which the candidates reached
        the reducer (opti.go 99-138). *)
Definition round_with (st : OptiState) (arrivals : list Transfer) : RoundOutcome :=
      let best := reduce_candidates minProducts best_order arrivals in
      if TotaItemsCount best =? 0 then
        if os_priori st then
          RSwitch (mkOptiState (os_stock st) (os_avail st) (os_counter st) false
                     (os_loop st) (os_transfers st) (os_progress st))
        else RDone
      else RCommit (commit st best).

    (** The loop condition [loopCounter < len(mystock)*maxTo]. *)
Definition loop_guard (st : OptiState) : bool :=
      os_loop st <? nstores (os_stock st) * maxTo.

    (** The [for] loop, on fuel ([None] when the fuel runs out). *)
Fixpoint run_loop (fuel : nat) (st : OptiState) : option OptiState :=
      match fuel with
      | O => None
      | S fuel' =>
          if loop_guard st then
            match round_with st (round_candidates st) with
            | RCommit st' => run_loop fuel' st'
            | RSwitch st' => run_loop fuel' st'
            | RDone => Some st
            end
          else Some st
      end.

    (** [exchangeCounterMat] (opti.go 72-78): rebuilt at the start of
        every iteration with [-1] for every pair of stores and never
        read, so no iteration depends on it ([round_with] does not take
        it). *)
Definition exchangeCounterMat (mystock : StockMatrix) : gmap string (gmap string Z) :=
      (λ _, (λ _, -1) <$> mystock) <$> mystock.

    (** The state before the loop (opti.go 22-69). *)
Definition init_state (stock : StockMatrix) : OptiState :=
      let mystock := copy_stock stock in
      mkOptiState mystock (init_avail mystock) ∅
        ((0 <? length (SecureStockIn settings))%nat ||
         (0 <? length (DeStockIn settings))%nat)
        0 [] [].

    (** Enough fuel: one iteration per commit, one phase switch, and the
        last iteration. *)
Definition run_fuel (stock : StockMatrix) : nat :=
      S (S (Z.to_nat (nstores stock * maxTo))).

    (** [RunOpti] (opti.go 21-150), with the progress values sent. *)
Definition RunOpti_with (stock : StockMatrix) : Optimisation * list Z :=
      let st0 := init_state stock in
      let st := default st0 (run_loop (run_fuel stock) st0) in
      (mkOptimisation stock (os_stock st) (os_transfers st) settings
         (computeOSA stock (os_stock st)), os_progress st).
  End Run.

Definition RunOpti (stock : StockMatrix) (settings : Settings) : Optimisation * list Z :=
    RunOpti_with doExchangeItems settings stock.

  (** ** Reading the matrices *)

Lemma elem_of_stores σ s : s ∈ stores σ ↔ is_Some (σ !! s).
  Proof.
    unfold stores. rewrite list_elem_of_fmap. split.
    - intros [[s' v] [-> Hin%elem_of_map_to_list]]. by exists v.
    - intros [v Hv]. exists (s, v). split; [done|]. by apply elem_of_map_to_list.
  Qed.

  (** The availability matrix starts true exactly on pairs of distinct
      stores. *)
Lemma init_avail_at σ s1 s2 :
    avail_at (init_avail σ) s1 s2 =
      bool_decide (is_Some (σ !! s1) ∧ is_Some (σ !! s2) ∧ s1 ≠ s2).
  Proof.
    unfold avail_at, lookup2, init_avail. rewrite map_lookup_imap.
    destruct (σ !! s1) eqn:E1; simpl.
    - rewrite map_lookup_imap. destruct (σ !! s2) eqn:E2; simpl.
      + destruct (String.eqb_spec s1 s2); simpl; repeat case_bool_decide; naive_solver.
      + repeat case_bool_decide; naive_solver.
    - repeat case_bool_decide; naive_solver.
  Qed.

Lemma avail_at_insert2 avail s1 s2 s1' s2' :
    avail_at (insert2 s1 s2 false avail) s1' s2' =
      if decide (s1 = s1' ∧ s2 = s2') then false else avail_at avail s1' s2'.
  Proof. unfold avail_at. rewrite lookup2_insert2_any. by case_decide. Qed.

Lemma counter_at_insert c s s' v :
    counter_at (<[s := v]> c) s' = if decide (s = s') then v else counter_at c s'.
  Proof. unfold counter_at. rewrite lookup_insert. by case_decide. Qed.

Lemma stores_size (σ σ' : StockMatrix) :
    (∀ s, is_Some (σ' !! s) ↔ is_Some (σ !! s)) → nstores σ' = nstores σ.
  Proof.
    intros Hd. unfold nstores. f_equal. rewrite <- !size_dom. f_equal.
    apply set_eq. intros s. rewrite !elem_of_dom. apply Hd.
  Qed.

  (** A pair that gets a goroutine. *)
Lemma elem_of_round_pairs settings st s1 s2 :
    (s1, s2) ∈ round_pairs settings st ↔
      is_Some (os_stock st !! s1) ∧ is_Some (os_stock st !! s2) ∧
      eligible settings st s1 s2 = true.
  Proof.
    unfold round_pairs. rewrite list_elem_of_bind. split.
    - intros [s [Hin Hs]]. apply list_elem_of_fmap in Hin as [s' [[= -> ->] Hf]].
      apply list_elem_of_filter in Hf as [He Hs']. rewrite !elem_of_stores in Hs, Hs'. auto.
    - intros (H1 & H2 & He). exists s1. split; [|by apply elem_of_stores].
      apply list_elem_of_fmap. exists s2. split; [done|].
      apply list_elem_of_filter. split; [done|]. by apply elem_of_stores.
  Qed.


  (** ** Properties of a run, against the evaluator's contract *)

  Section Props.
    Context (ev : Evaluator) `{!PairEvaluator ev} (settings : Settings).

Lemma maxTo_pos : 0 < maxTo settings.
    Proof. unfold maxTo, effective_maxTo. destruct (Z.gtb_spec (MaxTo settings) 0); lia. Qed.

Lemma minProducts_pos : 0 < minProducts settings.
    Proof.
      unfold minProducts, effective_minProducts.
      destruct (Z.gtb_spec (MinProducts settings) 0); lia.
    Qed.

Definition transfer_pair (t : Transfer) : string * string := (FromStore t, ToStore t).

    (** The filter of the priority phase, for a committed transfer. *)
Definition priority_ok (t : Transfer) : Prop :=
      (stringInSlice (FromStore t) (DeStockIn settings) ||
       stringInSlice (ToStore t) (SecureStockIn settings)) = true.

    (** The values sent on [progress] after [n] commits. *)
Definition progress_values (N : Z) (n : nat) : list Z :=
      (λ k, (Z.of_nat k * 100) ÷ N) <$> seq 1 n.

    (** How many committed transfers leave [s]. *)
Definition sent_from (ts : list Transfer) (s : string) : nat :=
      length (filter (λ t, FromStore t = s) ts).

Lemma commit_unfold st best :
      commit ev settings st best =
        let r := ev (os_stock st) settings (FromStore best) (ToStore best) true in
        mkOptiState r.1 (insert2 (FromStore best) (ToStore best) false (os_avail st))
          (<[FromStore best := counter_at (os_counter st) (FromStore best) + 1]> (os_counter st))
          (os_priori st) (os_loop st + 1) (os_transfers st ++ [r.2])
          (os_progress st ++ [((os_loop st + 1) * 100) ÷ (nstores r.1 * maxTo settings)]).
    Proof. unfold commit. by destruct (ev _ _ _ _ _). Qed.

    (** The winner of a committing round is the evaluation of an
        eligible pair with enough items, whatever the arrival order. *)
    (** The winner of a round that received some of the candidates is
        the evaluation of an eligible pair. *)
Lemma round_commit_winner_eq st arrivals st' :
      (∀ t, t ∈ arrivals → t ∈ round_candidates ev settings st) →
      round_with ev settings st arrivals = RCommit st' →
      ∃ s1 s2, (s1, s2) ∈ round_pairs settings st ∧
        reduce_candidates (minProducts settings) best_order arrivals =
          (ev (os_stock st) settings s1 s2 false).2 ∧
        minProducts settings <= TotaItemsCount (ev (os_stock st) settings s1 s2 false).2 ∧
        st' = commit ev settings st (ev (os_stock st) settings s1 s2 false).2.
    Proof.
      intros Hp. unfold round_with.
      set (best := reduce_candidates (minProducts settings) best_order arrivals).
      destruct (Z.eqb_spec (TotaItemsCount best) 0) as [_|Hnz];
        [destruct (os_priori st); discriminate|].
      intros [= <-]. destruct (reduce_candidates_spec (minProducts settings) best_order arrivals)
        as [Hin _]. fold best in Hin.
      apply elem_of_cons in Hin as [Hz|Hin]; [by rewrite Hz in Hnz|].
      unfold admitted in Hin. apply list_elem_of_filter in Hin as [Hmin Hin%Hp].
      unfold round_candidates in Hin.
      apply list_elem_of_fmap in Hin as [[s1 s2] [Heq Hpair]].
      exists s1, s2. rewrite <- Heq. auto.
    Qed.

Lemma round_commit_winner_sub st arrivals st' :
      (∀ t, t ∈ arrivals → t ∈ round_candidates ev settings st) →
      round_with ev settings st arrivals = RCommit st' →
      ∃ s1 s2, (s1, s2) ∈ round_pairs settings st ∧
        minProducts settings <= TotaItemsCount (ev (os_stock st) settings s1 s2 false).2 ∧
        st' = commit ev settings st (ev (os_stock st) settings s1 s2 false).2.
    Proof.
      intros Hp Hr. destruct (round_commit_winner_eq st arrivals st' Hp Hr) as (s1 & s2 & ? & _ & ?).
      eauto.
    Qed.

Lemma round_commit_winner st arrivals st' :
      arrivals ≡ₚ round_candidates ev settings st →
      round_with ev settings st arrivals = RCommit st' →
      ∃ s1 s2, (s1, s2) ∈ round_pairs settings st ∧
        minProducts settings <= TotaItemsCount (ev (os_stock st) settings s1 s2 false).2 ∧
        st' = commit ev settings st (ev (os_stock st) settings s1 s2 false).2.
    Proof. intros Hp. apply round_commit_winner_sub. intros t. by rewrite Hp. Qed.

    (** The invariant of a run started from [σ0]. *)
Record run_inv (σ0 : StockMatrix) (st : OptiState) : Prop := {
      ri_conserve : ∀ p, stock_sum p (os_stock st) = stock_sum p σ0;
      ri_wf : stock_wf σ0 → stock_wf (os_stock st);
      ri_stores : ∀ s, is_Some (os_stock st !! s) ↔ is_Some (σ0 !! s);
      ri_cells : ∀ s p, is_Some (lookup2 s p (os_stock st)) ↔ is_Some (lookup2 s p σ0);
      ri_diag : ∀ s1 s2, avail_at (os_avail st) s1 s2 = true → s1 ≠ s2;
      ri_used : ∀ t, t ∈ os_transfers st →
        avail_at (os_avail st) (FromStore t) (ToStore t) = false;
      ri_nodup : NoDup (transfer_pair <$> os_transfers st);
      ri_ok : ∀ t, t ∈ os_transfers st →
        FromStore t ≠ ToStore t ∧ minProducts settings <= TotaItemsCount t;
      ri_counter : ∀ s, counter_at (os_counter st) s = Z.of_nat (sent_from (os_transfers st) s);
      ri_cap : ∀ s, counter_at (os_counter st) s <= maxTo settings;
      ri_loop : os_loop st = Z.of_nat (length (os_transfers st));
      ri_bound : os_loop st <= nstores σ0 * maxTo settings;
      ri_progress : os_progress st =
        progress_values (nstores σ0 * maxTo settings) (length (os_transfers st));
      ri_priority : os_priori st = true → Forall priority_ok (os_transfers st)
    }.
    (** Marking the committed pair unavailable keeps the diagonal false,
        keeps every used pair unavailable, and keeps used pairs distinct. *)
Lemma commit_avail_step avail ts t :
      avail_at avail (FromStore t) (ToStore t) = true →
      (∀ s1 s2, avail_at avail s1 s2 = true → s1 ≠ s2) →
      (∀ t', t' ∈ ts → avail_at avail (FromStore t') (ToStore t') = false) →
      NoDup (transfer_pair <$> ts) →
      let avail' := insert2 (FromStore t) (ToStore t) false avail in
      (∀ s1 s2, avail_at avail' s1 s2 = true → s1 ≠ s2) ∧
      (∀ t', t' ∈ ts ++ [t] → avail_at avail' (FromStore t') (ToStore t') = false) ∧
      NoDup (transfer_pair <$> ts ++ [t]).
    Proof.
      intros Hav Hdiag Hused Hnd avail'. subst avail'. split; [|split].
      - intros s1 s2. rewrite avail_at_insert2. case_decide; [done|]. apply Hdiag.
      - intros t' [Ht' | ->%list_elem_of_singleton]%elem_of_app;
          rewrite avail_at_insert2; case_decide; try done; [by apply Hused|naive_solver].
      - rewrite fmap_app. apply NoDup_app. split; [done|split; [|apply NoDup_singleton]].
        intros x Hx ->%list_elem_of_singleton.
        apply list_elem_of_fmap in Hx as [t' [Heq Ht']]. unfold transfer_pair in Heq.
        injection Heq as E1 E2. specialize (Hused t' Ht'). rewrite <- E1, <- E2 in Hused.
        congruence.
    Qed.

Lemma sent_from_snoc ts t s :
      sent_from (ts ++ [t]) s = (sent_from ts s + if decide (FromStore t = s) then 1 else 0)%nat.
    Proof. unfold sent_from. rewrite filter_app, length_app, filter_cons, filter_nil. by case_decide. Qed.

Lemma progress_values_snoc N n :
      progress_values N (S n) = progress_values N n ++ [(Z.of_nat (S n) * 100) ÷ N].
    Proof.
      unfold progress_values. rewrite seq_S, fmap_app. simpl. done.
    Qed.

    (** A commit of an eligible pair with enough items preserves the
        invariant. *)
Lemma run_inv_commit σ0 st s1 s2 :
      run_inv σ0 st → loop_guard settings st = true →
      (s1, s2) ∈ round_pairs settings st →
      minProducts settings <= TotaItemsCount (ev (os_stock st) settings s1 s2 false).2 →
      run_inv σ0 (commit ev settings st (ev (os_stock st) settings s1 s2 false).2).
    Proof.
      intros Hinv Hg Hp Hmin. apply elem_of_round_pairs in Hp as (Hs1 & Hs2 & He).
      unfold eligible in He. apply andb_prop in He as [He Hpr].
      apply andb_prop in He as [Hav Hcnt]. apply Z.ltb_lt in Hcnt.
      assert (Hne : s1 ≠ s2) by (eapply ri_diag; eauto).
      destruct (pe_ends (os_stock st) settings s1 s2 false) as [Hf Ht].
      rewrite commit_unfold, Hf, Ht. simpl.
      set (r := ev (os_stock st) settings s1 s2 true).
      destruct (pe_ends (os_stock st) settings s1 s2 true) as [Hf' Ht']. fold r in Hf', Ht'.
      assert (Hst : ∀ s, is_Some (r.1 !! s) ↔ is_Some (σ0 !! s)).
      { intros s. unfold r. rewrite (pe_stores _ _ _ _ s Hne). apply Hinv. }
      assert (HN : nstores (os_stock st) = nstores σ0) by (apply stores_size, Hinv).
      assert (HN' : nstores r.1 = nstores σ0) by (by apply stores_size).
      destruct (commit_avail_step (os_avail st) (os_transfers st) r.2) as (Hd & Hu & Hnd);
        [by rewrite Hf', Ht'|apply Hinv|apply Hinv|apply Hinv|].
      rewrite Hf', Ht' in Hd, Hu. pose proof (ri_loop _ _ Hinv) as Hl.
      unfold loop_guard in Hg. apply Z.ltb_lt in Hg.
      constructor; simpl; try done; unfold r in *.
      - intros p. rewrite pe_conserves by done. apply Hinv.
      - intros Hwf. apply pe_wf; [done|]. by apply Hinv.
      - intros s p. rewrite pe_cells by done. apply Hinv.
      - intros t [Ht0 | ->%list_elem_of_singleton]%elem_of_app; [by apply Hinv|].
        rewrite Hf', Ht'. split; [done|]. unfold r. by rewrite pe_commit_counts.
      - intros s. rewrite counter_at_insert, sent_from_snoc, Hf'.
        case_decide; subst; rewrite !(ri_counter _ _ Hinv); lia.
      - intros s. rewrite counter_at_insert. case_decide; [|apply Hinv].
        subst. rewrite (ri_counter _ _ Hinv) in Hcnt |- *. lia.
      - rewrite length_app, Hl. simpl. lia.
      - rewrite <- HN. lia.
      - rewrite (ri_progress _ _ Hinv), length_app, Nat.add_comm. simpl.
        rewrite progress_values_snoc, HN', Hl. do 3 f_equal. lia.
      - intros Hpri. apply Forall_app. split; [by apply Hinv|].
        apply Forall_singleton. unfold priority_ok. rewrite Hf', Ht'.
        rewrite Hpri in Hpr. simpl in Hpr. by rewrite orb_false_r in Hpr.
    Qed.
Lemma run_inv_switch σ0 st st' arrivals :
      run_inv σ0 st → round_with ev settings st arrivals = RSwitch st' → run_inv σ0 st'.
    Proof.
      intros Hinv. unfold round_with. destruct (_ =? 0); [|discriminate].
      destruct (os_priori st); [|discriminate]. intros [= <-].
      destruct Hinv; constructor; simpl; auto. intros [=].
    Qed.

Lemma run_inv_init σ0 : run_inv σ0 (init_state settings σ0).
    Proof.
      unfold init_state. rewrite copy_stock_id. pose proof maxTo_pos.
      constructor; simpl; try done; try set_solver.
      - intros s1 s2. rewrite init_avail_at. case_bool_decide; naive_solver.
      - constructor.
      - intros s. unfold counter_at. rewrite lookup_empty. simpl. lia.
      - unfold nstores. lia.
    Qed.

    (** One round of a run, with the candidates arriving in any order:
        the goroutines of a round run concurrently and the reducer folds
        their results in the order they are received. *)
Inductive round_step : OptiState → OptiState → Prop :=
    | step_commit st arrivals st' :
        loop_guard settings st = true → arrivals ≡ₚ round_candidates ev settings st →
        round_with ev settings st arrivals = RCommit st' → round_step st st'
    | step_switch st arrivals st' :
        loop_guard settings st = true → arrivals ≡ₚ round_candidates ev settings st →
        round_with ev settings st arrivals = RSwitch st' → round_step st st'.

    (** The loop has left: the guard failed, or the last round found
        nothing to commit in the normal phase. *)
Definition run_final (st : OptiState) : Prop :=
      loop_guard settings st = false ∨
      round_with ev settings st (round_candidates ev settings st) = RDone.

Lemma run_inv_step σ0 st st' : run_inv σ0 st → round_step st st' → run_inv σ0 st'.
    Proof.
      intros Hinv Hs. revert Hinv. destruct Hs as [? arr ? Hg Hp Hr | ? arr ? Hg Hp Hr]; intros Hinv.
      - destruct (round_commit_winner _ _ _ Hp Hr) as (s1 & s2 & Hpair & Hmin & ->).
        by apply run_inv_commit.
      - by eapply run_inv_switch.
    Qed.

Lemma run_inv_rtc σ0 st st' : rtc round_step st st' → run_inv σ0 st → run_inv σ0 st'.
    Proof. induction 1; eauto using run_inv_step. Qed.

    (** Every state reachable from the start of [RunOpti] satisfies the
        invariant. *)
Lemma run_inv_reachable σ0 st :
      rtc round_step (init_state settings σ0) st → run_inv σ0 st.
    Proof. intros Hr. eapply run_inv_rtc; [exact Hr|apply run_inv_init]. Qed.

    (** A property of stocks that every commit between two distinct
        stores keeps holds of the stock of every reachable state. *)
Lemma reachable_stock_ind (P : StockMatrix → Prop) σ0 st :
      (∀ σ a b, a ≠ b → P σ → P (ev σ settings a b true).1) →
      P σ0 → rtc round_step (init_state settings σ0) st → P (os_stock st).
    Proof.
      intros Hstep H0 Hr. cut (run_inv σ0 st ∧ P (os_stock st)); [tauto|].
      assert (Hi : run_inv σ0 (init_state settings σ0) ∧ P (os_stock (init_state settings σ0)))
        by (split; [apply run_inv_init|by unfold init_state; rewrite copy_stock_id]).
      revert Hi. induction Hr as [x|x y z Hxy _ IH]; [done|]. intros [Hinv HP].
      apply IH. split; [by eapply run_inv_step|].
      destruct Hxy as [x' arr y' _ Hp Hr | x' arr y' _ Hp Hr].
      - destruct (round_commit_winner _ _ _ Hp Hr) as (s1 & s2 & Hpair & _ & ->).
        destruct (pe_ends (os_stock x') settings s1 s2 false) as [Hf Ht].
        rewrite commit_unfold, Hf, Ht. simpl. apply Hstep; [|done].
        apply elem_of_round_pairs in Hpair as (_ & _ & He).
        unfold eligible in He. apply andb_prop in He as [He _]. apply andb_prop in He as [Hav _].
        by apply (ri_diag _ _ Hinv).
      - revert Hr. unfold round_with. destruct (_ =? 0); [|discriminate].
        destruct (os_priori x'); [|discriminate]. by intros [= <-].
    Qed.

    (** ** Termination *)

    (** Commits left before the cap, plus one for a pending phase switch. *)
Definition run_measure (σ0 : StockMatrix) (st : OptiState) : nat :=
      (Z.to_nat (nstores σ0 * maxTo settings - os_loop st) + if os_priori st then 1 else 0)%nat.

Lemma commit_loop_priori st best :
      os_loop (commit ev settings st best) = os_loop st + 1 ∧
      os_priori (commit ev settings st best) = os_priori st.
    Proof. rewrite commit_unfold. by simpl. Qed.

    (** Each iteration that does not leave the loop decreases the measure. *)
Lemma run_measure_step σ0 st st' :
      run_inv σ0 st → round_step st st' → (run_measure σ0 st' < run_measure σ0 st)%nat.
    Proof.
      intros Hinv Hs. revert Hinv.
      destruct Hs as [? arr ? Hg Hp Hr | ? arr ? Hg Hp Hr]; intros Hinv; unfold loop_guard in Hg;
        apply Z.ltb_lt in Hg; rewrite (stores_size _ _ (ri_stores _ _ Hinv)) in Hg.
      - destruct (round_commit_winner _ _ _ Hp Hr) as (s1 & s2 & _ & _ & ->).
        destruct (commit_loop_priori st (ev (os_stock st) settings s1 s2 false).2) as [Hl Hpr].
        unfold run_measure. rewrite Hl, Hpr. lia.
      - revert Hr. unfold round_with. destruct (_ =? 0); [|discriminate].
        destruct (os_priori st) eqn:Hpr; [|discriminate]. intros [= <-].
        unfold run_measure. simpl. rewrite Hpr. lia.
    Qed.

    (** The loop on fuel is [Some] when the fuel exceeds the measure,
        and its result is reachable by rounds and final. *)
Lemma run_loop_some σ0 fuel st :
      run_inv σ0 st → (run_measure σ0 st < fuel)%nat →
      ∃ st', run_loop ev settings fuel st = Some st' ∧ rtc round_step st st' ∧ run_final st'.
    Proof.
      revert st. induction fuel as [|fuel IH]; intros st Hinv Hlt; [lia|]. simpl.
      destruct (loop_guard settings st) eqn:Hg; [|exists st; split_and!; [done|done|by left]].
      destruct (round_with ev settings st (round_candidates ev settings st)) as [st'|st'|] eqn:Hr.
      - assert (Hs : round_step st st') by (eapply step_commit; eauto).
        destruct (IH st') as (st'' & ? & ? & ?); [by eapply run_inv_step|
          pose proof (run_measure_step σ0 st st' Hinv Hs); lia|].
        exists st''. split_and!; [done| |done]. by eapply rtc_l.
      - assert (Hs : round_step st st') by (eapply step_switch; eauto).
        destruct (IH st') as (st'' & ? & ? & ?); [by eapply run_inv_step|
          pose proof (run_measure_step σ0 st st' Hinv Hs); lia|].
        exists st''. split_and!; [done| |done]. by eapply rtc_l.
      - exists st. split_and!; [done|done|by right].
    Qed.

    (** The measure at the start is at most [len(stock) * maxTo + 1]. *)
Lemma run_measure_init σ0 :
      Z.of_nat (run_measure σ0 (init_state settings σ0)) <= nstores σ0 * maxTo settings + 1.
    Proof.
      pose proof maxTo_pos. assert (0 <= nstores σ0) by (unfold nstores; lia).
      unfold run_measure, init_state. simpl. destruct (_ || _); lia.
    Qed.

    (** Along any [n] rounds from a state satisfying the invariant, the
        invariant holds and [n] plus the measure left is at most the
        measure at the start. *)
Lemma round_nsteps σ0 n st st' :
      run_inv σ0 st → nsteps round_step n st st' →
      run_inv σ0 st' ∧ (n + run_measure σ0 st' <= run_measure σ0 st)%nat.
    Proof.
      apply nsteps_measure. intros x y Hx Hxy.
      split; [by eapply run_inv_step|by apply run_measure_step].
    Qed.

    (** A state that is not final has a round: the one with the
        candidates in the order the executable model folds them. *)
Lemma round_progress st : run_final st ∨ ∃ st', round_step st st'.
    Proof.
      destruct (loop_guard settings st) eqn:Hg; [|by left; left].
      destruct (round_with ev settings st (round_candidates ev settings st)) as [st'|st'|] eqn:Hr.
      - right. exists st'. by eapply step_commit.
      - right. exists st'. by eapply step_switch.
      - left. by right.
    Qed.

    (** ** Determinism of a round *)

    (** No store name of [σ0] contains ['-']. *)
Definition dash_free (σ0 : StockMatrix) : Prop :=
      ∀ s, is_Some (σ0 !! s) → has_dash s = false.

Lemma NoDup_round_pairs st : NoDup (round_pairs settings st).
    Proof.
      unfold round_pairs. apply NoDup_bind; [| |apply NoDup_fst_map_to_list].
      - intros x1 x2 y _ _ (z1 & -> & _)%list_elem_of_fmap (z2 & Hz & _)%list_elem_of_fmap.
        by injection Hz.
      - intros x _. apply NoDup_fmap_2_strong; [by intros ?? _ _ [= ->]|].
        apply NoDup_filter, NoDup_fst_map_to_list.
    Qed.

    (** The candidate of a pair carries the pair. *)
Lemma candidate_ends st t :
      t ∈ round_candidates ev settings st →
      ∃ s1 s2, (s1, s2) ∈ round_pairs settings st ∧
        t = (ev (os_stock st) settings s1 s2 false).2 ∧ FromStore t = s1 ∧ ToStore t = s2.
    Proof.
      intros ([s1 s2] & -> & Hp)%list_elem_of_fmap. exists s1, s2.
      split_and!; [done|done|apply pe_ends..].
    Qed.

    (** On a reachable state of a dash-free stock, the seed and the
        admitted candidates of a round have pairwise distinct keys. *)
Lemma round_keys_nodup σ0 st :
      run_inv σ0 st → dash_free σ0 →
      NoDup (transfer_key <$> zero_transfer :: admitted (minProducts settings)
                                                (round_candidates ev settings st)).
    Proof.
      intros Hinv Hdf. set (C := round_candidates ev settings st).
      assert (Hends : ∀ t, t ∈ C → FromStore t ≠ ToStore t ∧ has_dash (FromStore t) = false ∧
                      (t = (ev (os_stock st) settings (FromStore t) (ToStore t) false).2)).
      { intros t Ht. destruct (candidate_ends st t Ht) as (s1 & s2 & Hp & -> & E1 & E2).
        rewrite E1, E2. apply elem_of_round_pairs in Hp as (Hs1 & _ & He).
        unfold eligible in He. apply andb_prop in He as [He _]. apply andb_prop in He as [Hav _].
        split_and!; [by eapply ri_diag| |done]. apply Hdf. by apply (ri_stores _ _ Hinv). }
      assert (HC : NoDup C).
      { apply NoDup_fmap_2_strong; [|apply NoDup_round_pairs].
        intros [a1 b1] [a2 b2] _ _ Heq.
        destruct (pe_ends (os_stock st) settings a1 b1 false) as [Ha1 Hb1].
        destruct (pe_ends (os_stock st) settings a2 b2 false) as [Ha2 Hb2].
        simpl in Heq. rewrite Heq in Ha1, Hb1. congruence. }
      rewrite fmap_cons. apply NoDup_cons. split.
      - intros (t & Hk & Ht%list_elem_of_filter)%list_elem_of_fmap.
        destruct (Hends t (proj2 Ht)) as [Hne _]. by apply (key_not_seed t Hne).
      - apply NoDup_fmap_2_strong; [|by apply NoDup_filter].
        intros t1 t2 (_ & H1)%list_elem_of_filter (_ & H2)%list_elem_of_filter Hk.
        destruct (Hends t1 H1) as (_ & Hd1 & E1), (Hends t2 H2) as (_ & Hd2 & E2).
        destruct (key_inj _ _ _ _ Hd1 Hd2 Hk) as [Hf Ht]. by rewrite E1, E2, Hf, Ht.
    Qed.

    (** The outcome of a round does not depend on the arrival order. *)
Lemma round_with_perm σ0 st arrivals :
      run_inv σ0 st → dash_free σ0 → arrivals ≡ₚ round_candidates ev settings st →
      round_with ev settings st arrivals = round_with ev settings st (round_candidates ev settings st).
    Proof.
      intros Hinv Hdf Hp. unfold round_with.
      by rewrite (reduce_candidates_perm _ _ (round_candidates ev settings st) arrivals);
        [|symmetry|apply (round_keys_nodup σ0)].
    Qed.

Lemma round_step_det σ0 st st1 st2 :
      run_inv σ0 st → dash_free σ0 → round_step st st1 → round_step st st2 → st1 = st2.
    Proof.
      intros Hinv Hdf Hs1 Hs2.
      destruct Hs1 as [? a1 ? _ Hp1 Hr1 | ? a1 ? _ Hp1 Hr1];
      destruct Hs2 as [? a2 ? _ Hp2 Hr2 | ? a2 ? _ Hp2 Hr2];
        rewrite (round_with_perm σ0 _ a1) in Hr1 by done;
        rewrite (round_with_perm σ0 _ a2) in Hr2 by done; congruence.
    Qed.

    (** A final state has no successor. *)
Lemma run_final_stuck σ0 st st' :
      run_inv σ0 st → dash_free σ0 → run_final st → ¬ round_step st st'.
    Proof.
      intros Hinv Hdf [Hg|Hd] Hs;
        destruct Hs as [? a ? Hg' Hp Hr | ? a ? Hg' Hp Hr]; try congruence;
        rewrite (round_with_perm σ0 _ a) in Hr by done; congruence.
    Qed.

    (** Two runs from a reachable state that both reach a final state
        reach the same one. *)
Lemma run_final_unique σ0 st st1 st2 :
      run_inv σ0 st → dash_free σ0 → rtc round_step st st1 → rtc round_step st st2 →
      run_final st1 → run_final st2 → st1 = st2.
    Proof.
      intros Hinv Hdf Hr1. revert st2 Hinv.
      induction Hr1 as [x|x y z Hxy _ IH]; intros st2 Hinv Hr2 Hf1 Hf2.
      - destruct Hr2 as [|x y' z' Hxy' _]; [done|].
        by destruct (run_final_stuck σ0 x y' Hinv Hdf Hf1).
      - destruct Hr2 as [|x y' z' Hxy' Hr2]; [by destruct (run_final_stuck σ0 x y Hinv Hdf Hf2)|].
        rewrite <- (round_step_det σ0 x y y' Hinv Hdf Hxy Hxy') in Hr2.
        apply IH; [by eapply run_inv_step|done..].
    Qed.
  End Props.

  (** ** The values sent on the progress channel *)

Lemma progress_values_lookup N n i v :
    progress_values N n !! i = Some v ↔ (i < n)%nat ∧ v = (Z.of_nat (S i) * 100) ÷ N.
  Proof.
    unfold progress_values. rewrite list_lookup_fmap.
    destruct (seq 1 n !! i) as [k|] eqn:E; simpl.
    - apply lookup_seq in E as [-> Hi]. naive_solver.
    - split; [done|]. intros [Hi _]. apply lookup_ge_None in E. rewrite length_seq in E. lia.
  Qed.

  (** After [n <= N] commits the values are non-decreasing and lie in
      [0, 100]. *)
Lemma progress_values_ok N n :
    0 < N → Z.of_nat n <= N →
    (∀ i j x y, (i <= j)%nat → progress_values N n !! i = Some x →
        progress_values N n !! j = Some y → x <= y) ∧
    Forall (λ v, 0 <= v <= 100) (progress_values N n).
  Proof.
    intros HN Hn. split.
    - intros i j x y Hij (Hi & ->)%progress_values_lookup (Hj & ->)%progress_values_lookup.
      apply Z.quot_le_mono; lia.
    - apply Forall_lookup. intros i v (Hi & ->)%progress_values_lookup.
      rewrite Z.quot_div_nonneg by lia. split; [apply Z.div_pos; lia|].
      apply Z.div_le_upper_bound; lia.
  Qed.

  (** ** The run of [RunOpti] *)

  Section Main.
    Context (ev : Evaluator) `{!PairEvaluator ev} (settings : Settings).

    (** The result of [RunOpti_with] is a final state reachable from the
        start by rounds: the fuel is enough. *)
Lemma RunOpti_with_run σ0 :
      ∃ st, rtc (round_step ev settings) (init_state settings σ0) st ∧
        run_final ev settings st ∧
        RunOpti_with ev settings σ0 =
          (mkOptimisation σ0 (os_stock st) (os_transfers st) settings
             (computeOSA σ0 (os_stock st)), os_progress st).
    Proof.
      destruct (run_loop_some ev settings σ0 (run_fuel settings σ0) (init_state settings σ0))
        as (st & Hrun & Hrtc & Hfin).
      - apply (run_inv_init ev).
      - unfold run_measure, run_fuel, init_state. simpl. destruct (_ || _); lia.
      - exists st. split_and!; [done|done|]. unfold RunOpti_with. by rewrite Hrun.
    Qed.

Lemma RunOpti_with_inv σ0 :
      ∃ st, run_inv settings σ0 st ∧
        RunOpti_with ev settings σ0 =
          (mkOptimisation σ0 (os_stock st) (os_transfers st) settings
             (computeOSA σ0 (os_stock st)), os_progress st).
    Proof.
      destruct (RunOpti_with_run σ0) as (st & Hr & _ & ->).
      exists st. split; [|done]. by eapply run_inv_reachable.
    Qed.
  End Main.

  (** ** Two evaluators that agree along the run *)

  Section Ext.
    Context (ev1 ev2 : Evaluator) (settings : Settings).

    (** The evaluators agree on the stock of [st]. *)
Definition agree_at (st : OptiState) : Prop :=
      ∀ s1 s2 alt, ev1 (os_stock st) settings s1 s2 alt = ev2 (os_stock st) settings s1 s2 alt.

Lemma round_with_ext st arrivals :
      agree_at st →
      round_candidates ev1 settings st = round_candidates ev2 settings st ∧
      round_with ev1 settings st arrivals = round_with ev2 settings st arrivals.
    Proof.
      intros Hag. split.
      - unfold round_candidates. apply list_fmap_ext. intros _ [a b] _. by rewrite Hag.
      - unfold round_with, commit. by rewrite Hag.
    Qed.

    (** The loop with [ev1] computes what it computes with [ev2] when the
        two agree on every stock reachable with [ev2]. *)
Lemma run_loop_ext σ0 fuel st :
      (∀ st', rtc (round_step ev2 settings) (init_state settings σ0) st' → agree_at st') →
      rtc (round_step ev2 settings) (init_state settings σ0) st →
      run_loop ev1 settings fuel st = run_loop ev2 settings fuel st.
    Proof.
      intros Hag. revert st. induction fuel as [|fuel IH]; intros st Hr; [done|]. simpl.
      destruct (loop_guard settings st) eqn:Hg; [|done].
      destruct (round_with_ext st (round_candidates ev2 settings st) (Hag st Hr)) as [-> ->].
      destruct (round_with ev2 settings st (round_candidates ev2 settings st)) as [st'|st'|] eqn:E; [..|done];
        apply IH; eapply rtc_r; [done| |done|]; [by eapply step_commit|by eapply step_switch].
    Qed.

Lemma RunOpti_with_ext σ0 :
      (∀ st', rtc (round_step ev2 settings) (init_state settings σ0) st' → agree_at st') →
      RunOpti_with ev1 settings σ0 = RunOpti_with ev2 settings σ0.
    Proof. intros Hag. unfold RunOpti_with. by rewrite (run_loop_ext σ0) by done. Qed.
  End Ext.

End Orchestrator.

Export Orchestrator.
