(* ===== verification/Phases.v ===== *)
(** * Phases: the priority phase exhausts before the normal phase

    [RunOpti] starts in the priority phase when [SecureStockIn] or
    [DeStockIn] is non-empty; there a pair is eligible only when it
    leaves a destock store or enters a secure store.  The first round
    that finds nothing switches to the normal phase for good
    (opti.go 116-121).  This file proves that from then on no committed
    transfer satisfies the priority filter: when the switch happens
    every open priority pair counts fewer than [minProducts] items,
    and a commit never raises any pair's count ([PairMonotone]) nor
    reopens a pair.  So the transfers of every run, in every
    interleaving, are the priority transfers followed by the others. *)

From S2P Require Import Prelude Stock Transfer Orchestrator.

Module Phases.

  Section Phases.
    Context (ev : Evaluator) `{!PairEvaluator ev} `{!PairMonotone ev} (settings : Settings).

    (** The filter of the priority phase on a pair (opti.go 87). *)
Definition priority_pair (s1 s2 : string) : bool :=
      stringInSlice s1 (DeStockIn settings) || stringInSlice s2 (SecureStockIn settings).

    (** What the evaluation of a pair counts in state [st]. *)
Definition pair_count (st : OptiState) (s1 s2 : string) : Z :=
      TotaItemsCount (ev (os_stock st) settings s1 s2 false).2.

    (** Every priority pair that could still be chosen counts fewer than
        [minProducts] items. *)
Definition settled (st : OptiState) : Prop :=
      ∀ s1 s2, is_Some (os_stock st !! s1) → is_Some (os_stock st !! s2) →
        avail_at (os_avail st) s1 s2 = true → counter_at (os_counter st) s1 < maxTo settings →
        priority_pair s1 s2 = true → pair_count st s1 s2 < minProducts settings.

    (** The transfers split into priority ones followed by the others. *)
Definition phase_split (ts : list Transfer) : Prop :=
      ∃ ts1 ts2, ts = ts1 ++ ts2 ∧ Forall (priority_ok settings) ts1 ∧
        Forall (λ t, ¬ priority_ok settings t) ts2.

Definition phase_inv (st : OptiState) : Prop :=
      os_priori st = true ∨ (settled st ∧ phase_split (os_transfers st)).

Lemma priority_ok_pair t : priority_ok settings t ↔ priority_pair (FromStore t) (ToStore t) = true.
    Proof. done. Qed.

    (** When a round finds nothing, no admitted candidate arrived. *)
Lemma reduce_zero_no_admitted arrivals :
      TotaItemsCount (reduce_candidates (minProducts settings) best_order arrivals) = 0 →
      (∀ t, t ∈ arrivals → 0 <= OsaImprouve t) →
      ∀ t, t ∈ arrivals → TotaItemsCount t < minProducts settings.
    Proof.
      intros Hz Hosa t Ht. destruct (Z_lt_le_dec (TotaItemsCount t) (minProducts settings)) as [|Hle];
        [done|exfalso].
      pose proof (minProducts_pos settings).
      destruct (reduce_candidates_spec (minProducts settings) best_order arrivals) as [Hin Hmax].
      assert (Hb : reduce_candidates (minProducts settings) best_order arrivals = zero_transfer).
      { apply elem_of_cons in Hin as [->|Hin]; [done|].
        apply list_elem_of_filter in Hin as [Hm _]. lia. }
      apply (Hmax t); [right; by apply list_elem_of_filter|].
      rewrite Hb. left. unfold score, best_order. simpl. specialize (Hosa t Ht). lia.
    Qed.

    (** The switch to the normal phase leaves the state settled. *)
Lemma switch_settled st arrivals st' :
      arrivals ≡ₚ round_candidates ev settings st →
      round_with ev settings st arrivals = RSwitch st' → settled st'.
    Proof.
      intros Hp. unfold round_with.
      destruct (Z.eqb_spec (TotaItemsCount (reduce_candidates (minProducts settings) best_order arrivals)) 0)
        as [Hz|]; [|discriminate].
      destruct (os_priori st) eqn:Hpri; [|discriminate]. intros [= <-].
      intros s1 s2 Hs1 Hs2 Hav Hcnt Hprio. simpl in *. unfold pair_count. simpl.
      apply (reduce_zero_no_admitted arrivals Hz).
      - intros t Ht. rewrite Hp in Ht. apply list_elem_of_fmap in Ht as ([a b] & -> & _).
        apply pm_osa_nonneg.
      - rewrite Hp. apply list_elem_of_fmap. exists (s1, s2). split; [done|].
        apply elem_of_round_pairs. split_and!; [done|done|].
        unfold eligible. rewrite Hav, Hpri. apply Z.ltb_lt in Hcnt. rewrite Hcnt.
        unfold priority_pair in Hprio. by rewrite Hprio.
    Qed.

    (** A commit keeps a settled state settled. *)
Lemma commit_settled σ0 st s1 s2 :
      run_inv settings σ0 st → settled st → s1 ≠ s2 →
      settled (commit ev settings st (ev (os_stock st) settings s1 s2 false).2).
    Proof.
      intros Hinv Hset Hne. destruct (pe_ends (os_stock st) settings s1 s2 false) as [Hf Ht].
      rewrite commit_unfold, Hf, Ht. intros a b Ha Hb Hav Hcnt Hprio. simpl in *.
      rewrite (pe_stores _ _ _ _ a Hne) in Ha. rewrite (pe_stores _ _ _ _ b Hne) in Hb.
      rewrite avail_at_insert2 in Hav. case_decide; [discriminate|].
      rewrite counter_at_insert in Hcnt. unfold pair_count. simpl.
      eapply Z.le_lt_trans; [apply pm_counts; done|].
      apply (Hset a b); [done..| |done]. case_decide; subst; lia.
    Qed.

    (** A commit in a settled state is not a priority transfer. *)
Lemma settled_commit_not_priority st arrivals st' :
      settled st → arrivals ≡ₚ round_candidates ev settings st →
      round_with ev settings st arrivals = RCommit st' →
      ∃ t, os_transfers st' = os_transfers st ++ [t] ∧ ¬ priority_ok settings t.
    Proof.
      intros Hset Hp Hr. destruct (round_commit_winner ev settings st arrivals st' Hp Hr)
        as (s1 & s2 & Hpair & Hmin & ->).
      destruct (pe_ends (os_stock st) settings s1 s2 false) as [Hf Ht].
      apply elem_of_round_pairs in Hpair as (Hs1 & Hs2 & He).
      unfold eligible in He. apply andb_prop in He as [He _]. apply andb_prop in He as [Hav Hcnt].
      apply Z.ltb_lt in Hcnt.
      rewrite commit_unfold, Hf, Ht. eexists. split; [reflexivity|]. simpl.
      rewrite priority_ok_pair. destruct (pe_ends (os_stock st) settings s1 s2 true) as [-> ->].
      intros Hprio. specialize (Hset s1 s2 Hs1 Hs2 Hav Hcnt Hprio). unfold pair_count in Hset. lia.
    Qed.

Lemma phase_inv_init σ0 : phase_inv (init_state settings σ0).
    Proof.
      unfold phase_inv, init_state. simpl.
      destruct (0 <? length (SecureStockIn settings))%nat eqn:E1,
               (0 <? length (DeStockIn settings))%nat eqn:E2; simpl; [by left..|right].
      apply Nat.ltb_ge in E1, E2.
      destruct (SecureStockIn settings) eqn:Es; [|simpl in E1; lia].
      destruct (DeStockIn settings) eqn:Ed; [|simpl in E2; lia].
      split; [|by exists [], []].
      intros s1 s2 _ _ _ _. unfold priority_pair. rewrite Es, Ed. discriminate.
    Qed.

Lemma phase_inv_step σ0 st st' :
      run_inv settings σ0 st → phase_inv st → round_step ev settings st st' → phase_inv st'.
    Proof.
      intros Hinv Hph Hs. destruct Hs as [? arr ? _ Hp Hr | ? arr ? _ Hp Hr].
      - destruct (os_priori st) eqn:Hpri.
        + left. destruct (round_commit_winner ev settings st arr st' Hp Hr) as (? & ? & _ & _ & ->).
          by rewrite (proj2 (commit_loop_priori ev settings _ _)).
        + destruct Hph as [|[Hset (ts1 & ts2 & Hts & H1 & H2)]]; [congruence|].
          right. destruct (settled_commit_not_priority st arr st' Hset Hp Hr) as (t & Ht' & Hnp).
          destruct (round_commit_winner ev settings st arr st' Hp Hr) as (s1 & s2 & Hpair & _ & ->).
          split.
          * apply (commit_settled σ0); [done|done|].
            apply elem_of_round_pairs in Hpair as (_ & _ & He).
            unfold eligible in He. apply andb_prop in He as [He _]. apply andb_prop in He as [Hav _].
            by apply (ri_diag _ _ _ Hinv).
          * exists ts1, (ts2 ++ [t]). rewrite Ht', Hts, app_assoc.
            split_and!; [done|done|]. apply Forall_app. split; [done|by apply Forall_singleton].
      - right. pose proof (switch_settled st arr st' Hp Hr) as Hset. split; [done|].
        revert Hr. unfold round_with. destruct (_ =? 0); [|discriminate].
        destruct (os_priori st) eqn:Hpri; [|discriminate]. intros [= <-]. simpl.
        exists (os_transfers st), []. rewrite app_nil_r. split_and!; [done| |constructor].
        by apply (ri_priority _ _ _ Hinv).
    Qed.

    (** Every state reachable from the start satisfies [phase_inv]. *)
Lemma phase_inv_reachable σ0 st :
      rtc (round_step ev settings) (init_state settings σ0) st → phase_inv st.
    Proof.
      intros Hr. cut (run_inv settings σ0 st ∧ phase_inv st); [tauto|].
      assert (H0 : run_inv settings σ0 (init_state settings σ0) ∧ phase_inv (init_state settings σ0))
        by (split; [apply (run_inv_init ev)|apply phase_inv_init]).
      revert H0. induction Hr as [x|x y z Hxy _ IH]; [done|].
      intros [Hinv Hph]. apply IH. split; [by eapply run_inv_step|by eapply phase_inv_step].
    Qed.

    (** In every reachable state the transfers are split. *)
Lemma phase_split_reachable σ0 st :
      rtc (round_step ev settings) (init_state settings σ0) st → phase_split (os_transfers st).
    Proof.
      intros Hr. destruct (phase_inv_reachable σ0 st Hr) as [Hpri|[_ Hs]]; [|done].
      exists (os_transfers st), []. rewrite app_nil_r. split_and!; [done| |constructor].
      by apply (ri_priority _ _ _ (run_inv_reachable ev settings σ0 st Hr)).
    Qed.
  End Phases.

End Phases.

Export Phases.
