(* ===== verification/Race.v ===== *)
(** * Race: the round when the reducer has not caught up

    A round of [RunOpti] (opti.go 99-138) reads [optimalTransferFound]
    after [time.Sleep] and [wg.Wait()], without joining the reducer
    goroutine.  Each evaluation goroutine returns only once its send
    has been received, so when [wg.Wait()] returns every write of the
    reducer but the one folding the last candidate happens before the
    main goroutine's reads; that last write races with them.  Each
    read of a field of [optimalTransferFound] can therefore see the
    value [w0] folded from all arrivals but the last, or the value [w1]
    folded from all of them, independently of the other reads:
    - line 116 reads [TotaItemsCount];
    - line 128 reads [FromStore] and [ToStore] to mark the pair used;
    - line 129 reads [FromStore] to count the transfer;
    - line 132 reads [FromStore] and [ToStore] to commit the exchange.
    [racy_round] is the round with one choice per read ([Reads]); a
    torn read can mark one pair, count a third store and commit yet
    another pair, for instance a store with itself, or the empty
    store name of [Transfer{}], whose row of
    [transferAvailabilityMat] is nil, so that the write at line 128
    panics ([None]).  A string field is read whole (a torn string
    header is not modelled).  The log call at line 134 only reads.

    What survives the race ([racy_inv], [racy_nsteps]): the stock stays
    conserved and well formed with the same stores and cells, and a run
    still ends within [len(stock)*maxTo + 1] rounds, because the loop
    counter and the phase flag are the main goroutine's own.  What does
    not: the pair marked, the counter raised and the pair committed
    need not agree, so a pair can be committed twice and a store can
    exceed [maxTo] ([racy_dup_commit] in [Run]). *)

From S2P Require Import Prelude Stock Transfer Orchestrator.

Module Race.

  (** Which value each racy read sees: [true] for the value after the
      last fold ([w1]), [false] for the one before it ([w0]). *)
Record Reads := mkReads {
    rd_count : bool;        (* line 116: .TotaItemsCount *)
    rd_avail_from : bool;   (* line 128: .FromStore *)
    rd_avail_to : bool;     (* line 128: .ToStore *)
    rd_counter : bool;      (* line 129: .FromStore *)
    rd_ex_from : bool;      (* line 132: .FromStore *)
    rd_ex_to : bool         (* line 132: .ToStore *)
  }.

  (** Every read sees the reducer's final value. *)
Definition fresh_reads : Reads := mkReads true true true true true true.

Definition pick (fresh : bool) (w0 w1 : Transfer) : Transfer := if fresh then w1 else w0.

  Section Race.
    Context (ev : Evaluator) `{!PairEvaluator ev} (settings : Settings).

    (** Lines 128-138 with the stores each read returned: [fa]/[ta]
        marked, [fb] counted, [fc]/[tc] exchanged.  Writing
        [transferAvailabilityMat[fa][ta]] panics when the row [fa] is
        nil. *)
Definition torn_commit (st : OptiState) (fa ta fb fc tc : string) : option OptiState :=
      match os_avail st !! fa with
      | None => None
      | Some row =>
          let avail := <[fa := <[ta := false]> row]> (os_avail st) in
          let counter := <[fb := counter_at (os_counter st) fb + 1]> (os_counter st) in
          let '(stock, t) := ev (os_stock st) settings fc tc true in
          let loopCounter := os_loop st + 1 in
          Some (mkOptiState stock avail counter (os_priori st) loopCounter
                  (os_transfers st ++ [t])
                  (os_progress st ++ [(loopCounter * 100) ÷ (nstores stock * maxTo settings)]))
      end.

    (** One iteration (opti.go 99-138) with the arrivals in the order
        the reducer received them and the value each read saw; [None]
        is a panic. *)
Definition racy_round (st : OptiState) (arrivals : list Transfer) (rd : Reads)
        : option RoundOutcome :=
      let w0 := reduce_candidates (minProducts settings) best_order (removelast arrivals) in
      let w1 := reduce_candidates (minProducts settings) best_order arrivals in
      let r b := pick b w0 w1 in
      if TotaItemsCount (r (rd_count rd)) =? 0 then
        Some (if os_priori st then
                RSwitch (mkOptiState (os_stock st) (os_avail st) (os_counter st) false
                           (os_loop st) (os_transfers st) (os_progress st))
              else RDone)
      else
        RCommit <$> torn_commit st (FromStore (r (rd_avail_from rd))) (ToStore (r (rd_avail_to rd)))
                      (FromStore (r (rd_counter rd)))
                      (FromStore (r (rd_ex_from rd))) (ToStore (r (rd_ex_to rd))).

    (** One iteration of the [for] loop with the race, when it does not
        leave the loop or panic. *)
Inductive racy_step : OptiState → OptiState → Prop :=
    | racy_commit st arrivals rd st' :
        loop_guard settings st = true → arrivals ≡ₚ round_candidates ev settings st →
        racy_round st arrivals rd = Some (RCommit st') → racy_step st st'
    | racy_switch st arrivals rd st' :
        loop_guard settings st = true → arrivals ≡ₚ round_candidates ev settings st →
        racy_round st arrivals rd = Some (RSwitch st') → racy_step st st'.

    (** The loop leaves: the guard fails or a round saw nothing to
        commit in the normal phase. *)
Definition racy_final (st : OptiState) : Prop :=
      loop_guard settings st = false ∨
      ∃ arrivals rd, arrivals ≡ₚ round_candidates ev settings st ∧ racy_round st arrivals rd = Some RDone.

    (** What survives the race: the stock part of [run_inv]. *)
Record racy_inv (σ0 σ : StockMatrix) : Prop := {
      rc_conserve : ∀ p, stock_sum p σ = stock_sum p σ0;
      rc_wf : stock_wf σ0 → stock_wf σ;
      rc_stores : ∀ s, is_Some (σ !! s) ↔ is_Some (σ0 !! s);
      rc_cells : ∀ s p, is_Some (lookup2 s p σ) ↔ is_Some (lookup2 s p σ0)
    }.

    (** ** Lemmas *)

    (** The racy round with every read fresh is the joined round, as
        long as the winner's row of the availability matrix exists
        (it does for every pair a round evaluates). *)
Lemma racy_round_fresh st arrivals :
      (TotaItemsCount (reduce_candidates (minProducts settings) best_order arrivals) ≠ 0 →
       is_Some (os_avail st !! FromStore (reduce_candidates (minProducts settings) best_order arrivals))) →
      racy_round st arrivals fresh_reads = Some (round_with ev settings st arrivals).
    Proof.
      intros Hav. unfold racy_round, round_with. simpl.
      destruct (Z.eqb_spec (TotaItemsCount (reduce_candidates (minProducts settings) best_order arrivals)) 0)
        as [|Hnz]; [done|]. destruct (Hav Hnz) as [row Hrow].
      unfold torn_commit. rewrite Hrow, commit_unfold. unfold insert2.
      rewrite (lookup_total_correct _ _ _ Hrow). by destruct (ev _ _ _ _ _).
    Qed.

Lemma run_inv_racy_inv σ0 st : run_inv settings σ0 st → racy_inv σ0 (os_stock st).
    Proof. intros Hinv. constructor; apply Hinv. Qed.

    (** A reducer that has folded only candidates below [minProducts]
        still holds [Transfer{}]. *)
Lemma reduce_unadmitted pre :
      Forall (λ x, TotaItemsCount x < minProducts settings) pre →
      reduce_candidates (minProducts settings) best_order pre = zero_transfer.
    Proof.
      intros Hpre. unfold reduce_candidates. generalize zero_transfer.
      induction Hpre as [|x pre Hx _ IH]; intros acc; [done|].
      simpl. unfold reduce_step at 2. rewrite (proj2 (Z.leb_gt _ _) Hx). apply IH.
    Qed.

    (** C26: the race can panic.  When the availability matrix has no
        row for the empty store name and, of the arrivals, only the
        last one has [minProducts] items, the reads in which line 116
        sees the last fold but line 128 reads [FromStore] before it
        see [Transfer{}]'s empty name: writing
        [transferAvailabilityMat[""][...]] assigns into a nil map and
        the round panics. *)
Theorem racy_round_can_panic st pre t :
      os_avail st !! "" = None →
      Forall (λ x, TotaItemsCount x < minProducts settings) pre →
      minProducts settings <= TotaItemsCount t → 0 <= OsaImprouve t →
      racy_round st (pre ++ [t]) (mkReads true false true true true true) = None.
    Proof.
      intros Hav Hpre Ht Hosa. pose proof (minProducts_pos settings).
      unfold racy_round. rewrite removelast_last, (reduce_unadmitted pre Hpre).
      unfold reduce_candidates. rewrite fold_left_app. fold (reduce_candidates (minProducts settings) best_order pre).
      rewrite (reduce_unadmitted pre Hpre). simpl. unfold reduce_step.
      rewrite (proj2 (Z.leb_le _ _) Ht).
      assert (determineBestTransfer zero_transfer t best_order = t) as ->.
      { unfold determineBestTransfer, score, best_order. simpl.
        by replace (_ >? _) with true by lia. }
      replace (TotaItemsCount t =? 0) with false by lia. simpl. unfold torn_commit. by rewrite Hav.
    Qed.

    Section Same.
      (** An evaluation of a store against itself changes nothing. *)
      Hypothesis ev_same : ∀ σ a, (ev σ settings a a true).1 = σ.

Lemma racy_inv_ev σ0 σ a b : racy_inv σ0 σ → racy_inv σ0 (ev σ settings a b true).1.
      Proof.
        intros [Hc Hw Hs Hl]. destruct (decide (a = b)) as [<-|Hne]; [by rewrite ev_same|].
        constructor.
        - intros p. by rewrite pe_conserves.
        - intros ?. apply pe_wf; auto.
        - intros s. rewrite pe_stores; auto.
        - intros s p. rewrite pe_cells; auto.
      Qed.

Lemma racy_round_commit st arrivals rd st' :
        racy_round st arrivals rd = Some (RCommit st') →
        ∃ fc tc, os_stock st' = (ev (os_stock st) settings fc tc true).1 ∧
          os_loop st' = os_loop st + 1 ∧ os_priori st' = os_priori st.
      Proof.
        unfold racy_round. destruct (_ =? 0); [by destruct (os_priori st)|].
        unfold torn_commit. destruct (os_avail st !! _); [|discriminate].
        destruct (ev _ _ _ _ _) as [stock t] eqn:E. intros [= <-]. eexists _, _. by rewrite E.
      Qed.

Lemma racy_round_switch st arrivals rd st' :
        racy_round st arrivals rd = Some (RSwitch st') →
        os_stock st' = os_stock st ∧ os_loop st' = os_loop st ∧ os_priori st = true ∧ os_priori st' = false.
      Proof.
        unfold racy_round. destruct (_ =? 0).
        - destruct (os_priori st); [|discriminate]. by intros [= <-].
        - by destruct (torn_commit _ _ _ _ _ _).
      Qed.

      (** A racy round keeps [racy_inv] and lowers the measure of
          [Orchestrator]. *)
Lemma racy_step_measure σ0 st st' :
        racy_inv σ0 (os_stock st) → racy_step st st' →
        racy_inv σ0 (os_stock st') ∧ (run_measure settings σ0 st' < run_measure settings σ0 st)%nat.
      Proof.
        intros Hinv Hs. destruct Hs as [? arr rd ? Hg Hp Hr | ? arr rd ? Hg Hp Hr];
          unfold loop_guard in Hg; apply Z.ltb_lt in Hg;
          rewrite (stores_size _ _ (rc_stores _ _ Hinv)) in Hg; unfold run_measure.
        - destruct (racy_round_commit _ _ _ _ Hr) as (fc & tc & -> & -> & ->).
          split; [by apply racy_inv_ev|lia].
        - destruct (racy_round_switch _ _ _ _ Hr) as (-> & -> & -> & ->). split; [done|lia].
      Qed.

      (** Along racy rounds the invariant holds and the number of rounds
          is bounded by the measure. *)
Lemma racy_nsteps σ0 n st st' :
        racy_inv σ0 (os_stock st) → nsteps racy_step n st st' →
        racy_inv σ0 (os_stock st') ∧ (n + run_measure settings σ0 st' <= run_measure settings σ0 st)%nat.
      Proof.
        apply (nsteps_measure _ (λ x, racy_inv σ0 (os_stock x))). intros x y Hx Hxy.
        by apply racy_step_measure.
      Qed.
    End Same.
  End Race.

End Race.

Export Race.
