(* ===== verification/Int64.v ===== *)
(** * Int64: [doExchangeItems] in Go's 64-bit [int]

    Go's [int] is 64 bits wide on the platforms the program targets
    (amd64, arm64) and its [+] and [-] wrap around.  [Exchange.v]
    computes with unbounded integers.  This file writes out
    [doExchangeItems] (opti.go 206-231) with every [+] and [-] wrapped to
    64 bits and shows when the two agree: on a stock whose cells lie in
    [0, 2^63-1] and whose source store holds at most [2^63-1] items in
    total, no operation of the loop overflows and the wrapped evaluator
    is [doExchangeItems].  Along a run the per-product sums are
    conserved, so when no product has more than [B] items over all
    stores and no store more than [max_int64 / B] products, every round
    stays below the bound.  [RunOpti_w] is the whole loop of [RunOpti]
    in 64 bits: the guard [loopCounter < len(mystock)*maxTo] (line 70),
    [transferCounterMat[from]++], [loopCounter++] and the progress
    value [loopCounter*100 / (len(mystock)*maxTo)] (line 138); when in
    addition [len(stock)*maxTo*100] is a Go [int] it equals [RunOpti].
    Beyond the bounds the code wraps: a pair that could move [2^63]
    items reports a negative count, and a [MaxTo] large enough for
    [len(stock)*maxTo] to wrap to a non-positive value stops the loop
    before its first round. *)

From S2P Require Import Prelude Stock Transfer Exchange Osa Strconv Orchestrator.

Module Int64.

  (** A mathematical integer as a Go [int]: two's complement on 64 bits. *)
Definition wrap64 (z : Z) : Z := (z + 2 ^ 63) mod 2 ^ 64 - 2 ^ 63.

  (** [a + b] and [a - b] on Go [int]s. *)
Definition add64 (a b : Z) : Z := wrap64 (a + b).
Definition sub64 (a b : Z) : Z := wrap64 (a - b).

  (** One iteration of the [range] loop of [doExchangeItems]
      (opti.go 210-229) in 64-bit arithmetic. *)
Definition exchange_product_w (store1 store2 : string) (alterStock : bool)
      (acc : ExchAcc) (entry : string * StockItem) : ExchAcc :=
    let '(product, stockInStore1) := entry in
    let stockInStore2 := item_at (ex_stock acc) store2 product in
    if (sub64 (Has stockInStore2) (Needs stockInStore2) <? 0) &&
       (sub64 (Has stockInStore1) (Needs stockInStore1) >? 0) then
      let transferItems := go_min (sub64 (Has stockInStore1) (Needs stockInStore1))
                                  (sub64 (Needs stockInStore2) (Has stockInStore2)) in
      let osa := if (Has stockInStore2 =? 0) && (transferItems >? 0)
                 then add64 (ex_osa acc) 1 else ex_osa acc in
      let '(stock, lst) :=
        if alterStock then
          let s2 := set_item (ex_stock acc) store2 product
                      (mkStockItem (add64 (Has stockInStore2) transferItems) (Needs stockInStore2)) in
          (set_item s2 store1 product
             (mkStockItem (sub64 (Has stockInStore1) transferItems) (Needs stockInStore1)),
           ex_list acc ++ [mkTransferedProduct product transferItems])
        else (ex_stock acc, ex_list acc) in
      mkExchAcc stock (add64 (ex_total acc) transferItems) osa lst
    else acc.

  (** [doExchangeItems] (opti.go 206-231) in 64-bit arithmetic. *)
Definition doExchangeItems_w (stock : StockMatrix) (settings : Settings)
      (store1 store2 : string) (alterStock : bool) : StockMatrix * Transfer :=
    let r := fold_left (exchange_product_w store1 store2 alterStock)
               (map_to_list (stock !!! store1)) (mkExchAcc stock 0 0 []) in
    (ex_stock r, mkTransfer store1 store2 (ex_list r) (ex_total r) (ex_osa r)).

  (** ** The loop of [RunOpti] in 64-bit arithmetic *)

  (** [a * b] on Go [int]s. *)
Definition mul64 (a b : Z) : Z := wrap64 (a * b).

  Section RunW.
    Context (settings : Settings).

    (** [loopCounter < len(mystock)*maxTo] (opti.go 70), the product
        wrapped. *)
Definition loop_guard_w (st : OptiState) : bool :=
      os_loop st <? mul64 (nstores (os_stock st)) (maxTo settings).

    (** The commit (opti.go 128-138): [transferCounterMat[from]++],
        [loopCounter++] and [loopCounter * 100 / (len(mystock) * maxTo)]
        wrapped, the exchange by [doExchangeItems_w]. *)
Definition commit_w (st : OptiState) (best : Transfer) : OptiState :=
      let from := FromStore best in
      let to := ToStore best in
      let avail := insert2 from to false (os_avail st) in
      let counter := <[from := add64 (counter_at (os_counter st) from) 1]> (os_counter st) in
      let '(stock, t) := doExchangeItems_w (os_stock st) settings from to true in
      let loopCounter := add64 (os_loop st) 1 in
      mkOptiState stock avail counter (os_priori st) loopCounter
        (os_transfers st ++ [t])
        (os_progress st ++ [mul64 loopCounter 100 ÷ mul64 (nstores stock) (maxTo settings)]).

    (** One iteration (opti.go 99-138). *)
Definition round_with_w (st : OptiState) (arrivals : list Transfer) : RoundOutcome :=
      let best := reduce_candidates (minProducts settings) best_order arrivals in
      if TotaItemsCount best =? 0 then
        if os_priori st then
          RSwitch (mkOptiState (os_stock st) (os_avail st) (os_counter st) false
                     (os_loop st) (os_transfers st) (os_progress st))
        else RDone
      else RCommit (commit_w st best).

Fixpoint run_loop_w (fuel : nat) (st : OptiState) : option OptiState :=
      match fuel with
      | O => None
      | S fuel' =>
          if loop_guard_w st then
            match round_with_w st (round_candidates doExchangeItems_w settings st) with
            | RCommit st' => run_loop_w fuel' st'
            | RSwitch st' => run_loop_w fuel' st'
            | RDone => Some st
            end
          else Some st
      end.

    (** [RunOpti] (opti.go 21-150) with every [int] operation of the
        loop on 64 bits. *)
Definition RunOpti_w (stock : StockMatrix) : Optimisation * list Z :=
      let st0 := init_state settings stock in
      let st := default st0 (run_loop_w (run_fuel settings stock) st0) in
      (mkOptimisation stock (os_stock st) (os_transfers st) settings
         (computeOSA stock (os_stock st)), os_progress st).
  End RunW.

  (** ** When nothing overflows *)

  (** A cell whose numbers are non-negative Go [int]s. *)
Definition cell_ok (it : StockItem) : Prop :=
    0 <= Has it <= max_int64 ∧ 0 <= Needs it <= max_int64.

Definition stock_ok (s : StockMatrix) : Prop :=
    map_Forall (λ _ inner, map_Forall (λ _ it, cell_ok it) inner) s.

  (** The items the source store holds, over its products. *)
Definition store_has (s : StockMatrix) (store : string) : Z :=
    zsum (λ e, Has e.2) (map_to_list (s !!! store)).

Lemma wrap64_id z : min_int64 <= z <= max_int64 → wrap64 z = z.
  Proof.
    unfold wrap64, min_int64, max_int64. intros Hz.
    rewrite Z.mod_small; lia.
  Qed.

Lemma stock_ok_item_at s st p : stock_ok s → cell_ok (item_at s st p).
  Proof.
    intros Hs. rewrite item_at_default. unfold lookup2.
    destruct (s !! st) as [inner|] eqn:E; simpl; [|unfold cell_ok, max_int64; simpl; lia].
    destruct (inner !! p) as [it|] eqn:Ei; simpl; [exact (Hs st inner E p it Ei)|].
    unfold cell_ok, max_int64. simpl. lia.
  Qed.

Lemma stock_ok_set_item s st p it : stock_ok s → cell_ok it → stock_ok (set_item s st p it).
  Proof.
    unfold stock_ok, set_item, insert2. intros Hs Hit.
    apply map_Forall_insert_2; [|done]. apply map_Forall_insert_2; [done|].
    rewrite lookup_total_alt. destruct (s !! st) as [inner|] eqn:E; simpl.
    - exact (Hs st inner E).
    - apply map_Forall_empty.
  Qed.

Lemma stock_ok_entries s st : stock_ok s → Forall (λ e, cell_ok e.2) (map_to_list (s !!! st)).
  Proof.
    intros Hs. apply Forall_forall. intros [p it] Hin%elem_of_map_to_list. simpl.
    rewrite lookup_total_alt in Hin. destruct (s !! st) as [inner|] eqn:E; simpl in Hin.
    - exact (Hs st inner E p it Hin).
    - by rewrite lookup_empty in Hin.
  Qed.

#[export] Instance stock_ok_dec s : Decision (stock_ok s).
  Proof. unfold stock_ok, cell_ok. apply _. Defined.

  (** The accumulator of the loop before an entry, with [rest] items
      still to come from the source: cells in range, [osaImprouve] at
      most [totalCount], and room for every item left. *)
Definition acc_ok (rest : Z) (acc : ExchAcc) : Prop :=
    stock_ok (ex_stock acc) ∧ 0 <= ex_osa acc <= ex_total acc ∧ ex_total acc + rest <= max_int64.

  (** No operation of one iteration overflows. *)
Lemma exchange_product_w_eq s1 s2 alt acc p it1 rest :
    0 <= rest → cell_ok it1 → acc_ok (Has it1 + rest) acc →
    exchange_product_w s1 s2 alt acc (p, it1) = exchange_product s1 s2 alt acc (p, it1).
  Proof.
    intros Hr Hit1 (Hs & Hosa & Htot). unfold exchange_product_w, exchange_product.
    pose proof (stock_ok_item_at _ s2 p Hs) as Hit2.
    set (it2 := item_at (ex_stock acc) s2 p) in *. unfold sub64, add64.
    unfold cell_ok, max_int64 in *.
    rewrite (wrap64_id (Has it1 - Needs it1)), (wrap64_id (Has it2 - Needs it2)),
      (wrap64_id (Needs it2 - Has it2)) by (unfold min_int64, max_int64; lia).
    destruct (_ && _) eqn:G; [|done].
    apply andb_true_iff in G as [G1 G2]. apply Z.ltb_lt in G1. apply Z.gtb_lt in G2.
    pose proof (go_min_spec (Has it1 - Needs it1) (Needs it2 - Has it2)) as Hq.
    set (q := go_min _ _) in *.
    rewrite (wrap64_id (Has it2 + q)), (wrap64_id (Has it1 - q)), (wrap64_id (ex_total acc + q))
      by (unfold min_int64, max_int64; lia).
    by rewrite (wrap64_id (ex_osa acc + 1)) by (unfold min_int64, max_int64; lia).
  Qed.

  (** One iteration keeps the accumulator in range. *)
Lemma exchange_product_ok s1 s2 alt acc p it1 rest :
    0 <= rest → cell_ok it1 → acc_ok (Has it1 + rest) acc →
    acc_ok rest (exchange_product s1 s2 alt acc (p, it1)).
  Proof.
    intros Hr Hit1 (Hs & Hosa & Htot). rewrite exchange_product_qty.
    pose proof (stock_ok_item_at _ s2 p Hs) as Hit2.
    set (it2 := item_at (ex_stock acc) s2 p) in *.
    pose proof (transfer_qty_spec it1 it2) as Hq. unfold surplus in Hq.
    set (q := transfer_qty it1 it2) in *. unfold cell_ok, max_int64 in *.
    destruct (decide (0 < q)) as [Hpos|]; [|unfold acc_ok, max_int64; split_and!; done || lia].
    case_decide; [|lia]. unfold acc_ok, max_int64. simpl. split_and!; [|case_decide; lia..|lia].
    destruct alt; [|done].
    apply stock_ok_set_item; [apply stock_ok_set_item|]; [done| |]; unfold cell_ok, max_int64; simpl; lia.
  Qed.

  (** The loop over entries in range computes the same in both
      arithmetics. *)
Lemma fold_exchange_w s1 s2 alt entries acc :
    Forall (λ e, cell_ok e.2) entries → acc_ok (zsum (λ e, Has e.2) entries) acc →
    fold_left (exchange_product_w s1 s2 alt) entries acc =
    fold_left (exchange_product s1 s2 alt) entries acc.
  Proof.
    revert acc. induction entries as [|[p it1] rest IH]; intros acc Hall Hacc; [done|].
    apply Forall_cons in Hall as [Hit1 Hall]. simpl in Hacc. cbn [fold_left].
    assert (Hr : 0 <= zsum (λ e, Has e.2) rest).
    { apply zsum_nonneg. intros e He. destruct (proj1 (Forall_forall _ _) Hall e He) as [[? ?] _]; lia. }
    rewrite (exchange_product_w_eq _ _ _ _ _ _ (zsum (λ e, Has e.2) rest)) by done.
    apply IH; [done|]. by apply (exchange_product_ok _ _ _ _ _ _ _ Hr Hit1).
  Qed.

  (** [doExchangeItems] does not overflow on the stocks it is meant
      for.  When every [Has] and [Needs] is a non-negative Go [int] and
      the source store holds at most [2^63-1] items, the loop computed
      with 64-bit wrap-around, as Go runs it, returns the stock and the
      transfer the unbounded model returns, with and without commit. *)
Lemma doExchangeItems_int64 σ settings s1 s2 alt :
    stock_ok σ → store_has σ s1 <= max_int64 →
    doExchangeItems_w σ settings s1 s2 alt = doExchangeItems σ settings s1 s2 alt.
  Proof.
    intros Hσ Hhas. unfold doExchangeItems_w, doExchangeItems, doExchangeItems_in.
    rewrite fold_exchange_w; [done|by apply stock_ok_entries|].
    unfold store_has in Hhas. split_and!; simpl; [done|lia..].
  Qed.

  (** ** The whole run *)

Lemma stock_ok_wf σ : stock_ok σ → stock_wf σ.
  Proof.
    intros Hσ s inner E p it Ei. destruct (Hσ s inner E p it Ei) as [[? ?] [? ?]]. lia.
  Qed.

  (** The inner map of a store, read with Go's zero value. *)
Lemma lookup_inner (σ : StockMatrix) s p : (σ !!! s) !! p = lookup2 s p σ.
  Proof.
    unfold lookup2. rewrite lookup_total_alt. destruct (σ !! s); simpl; [done|apply lookup_empty].
  Qed.

Lemma needs_commit σ settings a b st p :
    a ≠ b → Needs (item_at (doExchangeItems σ settings a b true).1 st p) = Needs (item_at σ st p).
  Proof. intros Hab. rewrite doExchangeItems_cells by done. by repeat case_decide. Qed.

Lemma Has_le_stock_sum σ s p it : stock_wf σ → lookup2 s p σ = Some it → Has it <= stock_sum p σ.
  Proof.
    intros Hwf H. unfold lookup2 in H. destruct (σ !! s) as [inner|] eqn:E; [|discriminate]. simpl in H.
    unfold stock_sum. replace (Has it) with (Has (inner !!! p)) by (by rewrite (lookup_total_correct _ _ _ H)).
    apply (map_zsum_elem_le (λ _ inner, Has (inner !!! p)) σ s inner); [|done].
    intros s' inner' E'. pose proof (stock_wf_item_at σ s' p Hwf) as [Hh _].
    unfold item_at, lookup2_total in Hh. by rewrite (lookup_total_correct _ _ _ E') in Hh.
  Qed.

  (** Along the run (any arrival order) every stock reached keeps the
      [Needs] of the input. *)
Lemma reachable_needs σ0 settings st :
    rtc (round_step doExchangeItems settings) (init_state settings σ0) st →
    ∀ s p, Needs (item_at (os_stock st) s p) = Needs (item_at σ0 s p).
  Proof.
    apply (reachable_stock_ind doExchangeItems settings (λ σ, ∀ s p, Needs (item_at σ s p) = Needs (item_at σ0 s p)));
      [|done]. intros σ a b Hab HP s p. by rewrite needs_commit.
  Qed.

  (** A commit keeps the stores, also of a store with itself. *)
Lemma nstores_exchange σ settings a b : nstores (doExchangeItems σ settings a b true).1 = nstores σ.
  Proof.
    apply stores_size. intros s. destruct (decide (a = b)) as [<-|Hne];
      [by rewrite doExchangeItems_same|by apply pe_stores].
  Qed.

Section Run.
  Context (σ0 : StockMatrix) (settings : Settings) (B : Z).
  Hypothesis (Hok : stock_ok σ0) (HB : B <= max_int64) (Hsum : ∀ p, stock_sum p σ0 <= B).

  (** Every stock reached has its cells in range. *)
Lemma reachable_stock_ok st :
    rtc (round_step doExchangeItems settings) (init_state settings σ0) st → stock_ok (os_stock st).
  Proof.
    intros Hr. pose proof (run_inv_reachable doExchangeItems settings σ0 st Hr) as Hinv.
    pose proof (ri_wf _ _ _ Hinv (stock_ok_wf _ Hok)) as Hwf.
    intros s inner E p it Ei. assert (Hl : lookup2 s p (os_stock st) = Some it) by (by unfold lookup2; rewrite E).
    pose proof (Has_le_stock_sum _ _ _ _ Hwf Hl). rewrite (ri_conserve _ _ _ Hinv) in *.
    pose proof (stock_wf_lookup2 _ _ _ _ Hwf Hl) as [? ?]. specialize (Hsum p).
    pose proof (reachable_needs σ0 settings st Hr s p) as Hn. rewrite (item_at_lookup2 _ _ _ _ Hl) in Hn.
    destruct (stock_ok_item_at σ0 s p Hok) as [_ Hn0]. rewrite <- Hn in Hn0.
    unfold cell_ok. lia.
  Qed.

  (** A store of a reached stock holds at most its number of products
      times [B] items. *)
Lemma reachable_store_has st s :
    rtc (round_step doExchangeItems settings) (init_state settings σ0) st →
    store_has (os_stock st) s <= Z.of_nat (size (σ0 !!! s)) * B.
  Proof.
    intros Hr. pose proof (run_inv_reachable doExchangeItems settings σ0 st Hr) as Hinv.
    pose proof (ri_wf _ _ _ Hinv (stock_ok_wf _ Hok)) as Hwf.
    assert (Hsz : size (os_stock st !!! s) = size (σ0 !!! s)).
    { rewrite <- !size_dom. f_equal. apply set_eq. intros p.
      rewrite !elem_of_dom, !lookup_inner. apply (ri_cells _ _ _ Hinv). }
    unfold store_has. rewrite <- Hsz, <- length_map_to_list. apply zsum_le_const.
    intros [p it] Hin%elem_of_map_to_list. rewrite lookup_inner in Hin. simpl.
    pose proof (Has_le_stock_sum _ _ _ _ Hwf Hin). rewrite (ri_conserve _ _ _ Hinv) in *.
    specialize (Hsum p). lia.
  Qed.

  Hypothesis (Hsz : ∀ s, Z.of_nat (size (σ0 !!! s)) * B <= max_int64)
             (Hprod : nstores σ0 * effective_maxTo settings * 100 <= max_int64).

  (** The two evaluators agree on every stock reached. *)
Lemma reachable_agree st :
    rtc (round_step doExchangeItems settings) (init_state settings σ0) st →
    agree_at doExchangeItems_w doExchangeItems settings st.
  Proof.
    intros Hr s1 s2 alt. apply doExchangeItems_int64; [by apply reachable_stock_ok|].
    etrans; [by apply reachable_store_has|apply Hsz].
  Qed.

  (** [len(mystock)*maxTo] does not wrap along the run. *)
Lemma reachable_nstores st :
    rtc (round_step doExchangeItems settings) (init_state settings σ0) st →
    nstores (os_stock st) = nstores σ0 ∧
    mul64 (nstores σ0) (maxTo settings) = nstores σ0 * maxTo settings.
  Proof.
    intros Hr. pose proof (run_inv_reachable doExchangeItems settings σ0 st Hr) as Hinv.
    split; [apply stores_size, (ri_stores _ _ _ Hinv)|].
    pose proof (maxTo_pos settings). assert (0 <= nstores σ0) by (unfold nstores; lia).
    apply wrap64_id. unfold maxTo, min_int64, max_int64 in *. nia.
  Qed.

Lemma loop_guard_w_eq st :
    rtc (round_step doExchangeItems settings) (init_state settings σ0) st →
    loop_guard_w settings st = loop_guard settings st.
  Proof.
    intros Hr. destruct (reachable_nstores st Hr) as [Hn Hm].
    unfold loop_guard_w, loop_guard. by rewrite Hn, Hm.
  Qed.

  (** The commit's increments and its progress value do not wrap. *)
Lemma commit_w_eq st best :
    rtc (round_step doExchangeItems settings) (init_state settings σ0) st →
    loop_guard settings st = true →
    commit_w settings st best = commit doExchangeItems settings st best.
  Proof.
    intros Hr Hg. pose proof (run_inv_reachable doExchangeItems settings σ0 st Hr) as Hinv.
    destruct (reachable_nstores st Hr) as [Hn Hm]. unfold loop_guard in Hg.
    apply Z.ltb_lt in Hg. rewrite Hn in Hg.
    pose proof (maxTo_pos settings). assert (0 <= nstores σ0) by (unfold nstores; lia).
    assert (0 <= os_loop st) by (rewrite (ri_loop _ _ _ Hinv); lia).
    pose proof (ri_cap _ _ _ Hinv (FromStore best)).
    assert (0 <= counter_at (os_counter st) (FromStore best)) by (rewrite (ri_counter _ _ _ Hinv); lia).
    assert (Hp : (os_loop st + 1) * 100 <= nstores σ0 * maxTo settings * 100) by lia.
    assert (1 <= nstores σ0) by (destruct (Z.le_gt_cases (nstores σ0) 0); [nia|lia]).
    assert (maxTo settings <= nstores σ0 * maxTo settings) by nia.
    unfold maxTo in *. rewrite commit_unfold. unfold commit_w. rewrite (reachable_agree st Hr).
    unfold add64, mul64.
    rewrite (wrap64_id (os_loop st + 1)), (wrap64_id (counter_at _ _ + 1)),
      (wrap64_id ((os_loop st + 1) * 100)) by (unfold min_int64, max_int64 in *; lia).
    pose proof (nstores_exchange (os_stock st) settings (FromStore best) (ToStore best)) as Hx.
    destruct (doExchangeItems _ _ _ _ _) as [stock t]. simpl in Hx |- *.
    rewrite Hx, Hn. unfold mul64 in Hm. unfold maxTo. by rewrite Hm.
  Qed.

  (** The loop with every [int] operation on 64 bits computes what the
      unbounded loop computes from every state reached. *)
Lemma run_loop_w_eq fuel st :
    rtc (round_step doExchangeItems settings) (init_state settings σ0) st →
    run_loop_w settings fuel st = run_loop doExchangeItems settings fuel st.
  Proof.
    revert st. induction fuel as [|fuel IH]; intros st Hr; [done|]. simpl.
    rewrite (loop_guard_w_eq st Hr). destruct (loop_guard settings st) eqn:Hg; [|done].
    rewrite (proj1 (round_with_ext doExchangeItems_w doExchangeItems settings st [] (reachable_agree st Hr))).
    assert (Hround : round_with_w settings st (round_candidates doExchangeItems settings st) =
                     round_with doExchangeItems settings st (round_candidates doExchangeItems settings st)).
    { unfold round_with_w, round_with. destruct (_ =? 0); [done|]. by rewrite commit_w_eq. }
    rewrite Hround.
    destruct (round_with doExchangeItems settings st (round_candidates doExchangeItems settings st))
      as [st'|st'|] eqn:E; [| |done]; apply IH; eapply rtc_r; [exact Hr| |exact Hr|].
    - eapply step_commit; [done|reflexivity|exact E].
    - eapply step_switch; [done|reflexivity|exact E].
  Qed.
End Run.

  (** Bounds of the hypotheses of [RunOpti_int64] from bounds on the
      cells, which a concrete input checks by evaluation. *)
Lemma stock_sum_le_cells σ H p :
    0 <= H → map_Forall (λ _ inner, map_Forall (λ _ it, Has it <= H) inner) σ →
    stock_sum p σ <= Z.of_nat (size σ) * H.
  Proof.
    intros HH Hc. unfold stock_sum, map_zsum. rewrite <- length_map_to_list. apply zsum_le_const.
    intros [s inner] Hin%elem_of_map_to_list. simpl. rewrite lookup_total_alt.
    destruct (inner !! p) as [it|] eqn:E; simpl; [exact (Hc s inner Hin p it E)|done].
  Qed.

Lemma size_inner_le (σ : StockMatrix) K :
    map_Forall (λ _ inner, size inner <= K)%nat σ → ∀ s, (size (σ !!! s) <= K)%nat.
  Proof.
    intros Hk s. rewrite (lookup_total_alt σ s). destruct (σ !! s) as [inner|] eqn:E; simpl.
    - exact (Hk s inner E).
    - rewrite map_size_empty. lia.
  Qed.

  (** C17: [RunOpti] does not overflow on the inputs it is meant for.
      When every cell of the input is a non-negative Go [int], no
      product has more than [B] items over all stores, no store has
      more than [max_int64 / B] products, and [len(stock)*maxTo*100]
      is a Go [int], [RunOpti] with every [int] operation on 64 bits as
      Go runs it (the exchanges, the loop guard, the counters and the
      progress value) returns what the unbounded model returns: the
      same transfers, stock, OSA and progress values. *)
Theorem RunOpti_int64 σ settings B :
    stock_ok σ → B <= max_int64 → (∀ p, stock_sum p σ <= B) →
    (∀ s, Z.of_nat (size (σ !!! s)) * B <= max_int64) →
    nstores σ * effective_maxTo settings * 100 <= max_int64 →
    RunOpti_w settings σ = RunOpti σ settings.
  Proof.
    intros Hok HB Hsum Hsz Hprod. unfold RunOpti_w, RunOpti, RunOpti_with.
    by rewrite (run_loop_w_eq σ settings B) by (done || apply rtc_refl).
  Qed.

  (** A small pair of stores. *)
Definition test_pair_stock : StockMatrix :=
    <["A" := <["P" := mkStockItem 7 2]> {["Q" := mkStockItem 3 3]}]>
    {["B" := <["P" := mkStockItem 1 4]> {["Q" := mkStockItem 0 2]}]}.

  (** A source with two products of [2^62] spare items each and a
      destination lacking them: every cell is a Go [int]. *)
Definition overflow_stock : StockMatrix :=
    <["A" := <["P" := mkStockItem (2 ^ 62) 0]> {["Q" := mkStockItem (2 ^ 62) 0]}]>
    {["B" := <["P" := mkStockItem 0 (2 ^ 62)]> {["Q" := mkStockItem 0 (2 ^ 62)]}]}.

Definition overflow_settings : Settings := mkSettings 1 1 [] [].

  (** Past the bound [totalCount] wraps.  On [overflow_stock] the
      pair A to B can move [2^63] items; Go's [totalCount] wraps to
      [-2^63], so the candidate fails [TotaItemsCount >= minProducts]
      and is never committed, while each product on its own moves. *)
Example doExchangeItems_total_wraps :
    stock_ok overflow_stock ∧
    TotaItemsCount (doExchangeItems overflow_stock overflow_settings "A" "B" false).2 = 2 ^ 63 ∧
    TotaItemsCount (doExchangeItems_w overflow_stock overflow_settings "A" "B" false).2 = - 2 ^ 63 ∧
    Quant <$> Products (doExchangeItems_w overflow_stock overflow_settings "A" "B" true).2 =
      [2 ^ 62; 2 ^ 62].
  Proof.
    split; [apply (bool_decide_unpack (stock_ok _)); vm_compute; exact I|].
    split_and!; vm_compute; reflexivity.
  Qed.


Lemma RunOpti_int64_witness :
    stock_ok test_pair_stock ∧ 14 <= max_int64 ∧ (∀ p, stock_sum p test_pair_stock <= 14) ∧
    (∀ s, Z.of_nat (size (test_pair_stock !!! s)) * 14 <= max_int64) ∧
    nstores test_pair_stock * effective_maxTo overflow_settings * 100 <= max_int64 ∧
    RunOpti_w overflow_settings test_pair_stock = RunOpti test_pair_stock overflow_settings.
  Proof.
    assert (H1 : stock_ok test_pair_stock)
      by (apply (bool_decide_unpack (stock_ok _)); vm_compute; exact I).
    assert (H2 : 14 <= max_int64) by (unfold max_int64; lia).
    assert (H3 : ∀ p, stock_sum p test_pair_stock <= 14).
    { intros p. apply (stock_sum_le_cells test_pair_stock 7 p); [lia|].
      apply (bool_decide_unpack (map_Forall _ _)). vm_compute. exact I. }
    assert (H4 : ∀ s, Z.of_nat (size (test_pair_stock !!! s)) * 14 <= max_int64).
    { intros s. pose proof (size_inner_le test_pair_stock 2) as Hs.
      assert (Hk : map_Forall (λ _ inner, size inner <= 2)%nat test_pair_stock)
        by (apply (bool_decide_unpack (map_Forall _ _)); vm_compute; exact I).
      specialize (Hs Hk s). unfold max_int64. lia. }
    assert (H5 : nstores test_pair_stock * effective_maxTo overflow_settings * 100 <= max_int64)
      by (vm_compute; discriminate).
    split_and!; [exact H1|exact H2|exact H3|exact H4|exact H5|].
    exact (RunOpti_int64 test_pair_stock overflow_settings 14 H1 H2 H3 H4 H5).
  Defined.

  (** [MaxTo] of [2^62]: every cell is small, but [len(stock)*maxTo] is
      [2^63]. *)
Definition huge_maxto_settings : Settings := mkSettings (2 ^ 62) 1 [] [].

  (** C27: when [len(stock)*maxTo] wraps to a non-positive Go [int]
      (a large [MaxTo]), the loop of [RunOpti] never runs: the result is
      the input unchanged, no transfer and no progress value, whatever
      the stock. *)
Theorem RunOpti_w_guard_wraps σ settings :
    mul64 (nstores σ) (effective_maxTo settings) <= 0 →
    RunOpti_w settings σ = (mkOptimisation σ σ [] settings (computeOSA σ σ), []).
  Proof.
    intros Hw. unfold RunOpti_w, run_fuel. cbn [run_loop_w].
    unfold loop_guard_w, init_state. cbn [os_loop os_stock]. rewrite copy_stock_id.
    unfold maxTo. by replace (0 <? mul64 (nstores σ) (effective_maxTo settings)) with false
      by (symmetry; apply Z.ltb_ge; lia).
  Qed.

Lemma RunOpti_w_guard_wraps_witness :
    mul64 (nstores test_pair_stock) (effective_maxTo huge_maxto_settings) <= 0 ∧
    RunOpti_w huge_maxto_settings test_pair_stock =
      (mkOptimisation test_pair_stock test_pair_stock [] huge_maxto_settings
         (computeOSA test_pair_stock test_pair_stock), []).
  Proof.
    assert (H : mul64 (nstores test_pair_stock) (effective_maxTo huge_maxto_settings) <= 0)
      by (vm_compute; discriminate).
    split; [exact H|exact (RunOpti_w_guard_wraps test_pair_stock huge_maxto_settings H)].
  Defined.

  (** Past the bound on [len(stock)*maxTo] the guard wraps: with two
      stores and [MaxTo = 2^62] Go computes [-2^63] for the bound of the
      loop (opti.go 70), so the loop never runs and nothing is
      committed, while the unbounded guard lets the first round commit
      the transfer of [test_pair_stock]. *)
Example RunOpti_guard_wraps :
    mul64 (nstores test_pair_stock) (effective_maxTo huge_maxto_settings) = - 2 ^ 63 ∧
    Transfers (RunOpti_w huge_maxto_settings test_pair_stock).1 = [] ∧
    loop_guard huge_maxto_settings (init_state huge_maxto_settings test_pair_stock) = true ∧
    (∃ st, round_with doExchangeItems huge_maxto_settings (init_state huge_maxto_settings test_pair_stock)
             (round_candidates doExchangeItems huge_maxto_settings
                (init_state huge_maxto_settings test_pair_stock)) = RCommit st ∧
           length (os_transfers st) = 1%nat).
  Proof.
    split_and!; [vm_compute; reflexivity| |vm_compute; reflexivity|eexists; split; vm_compute; reflexivity].
    unfold RunOpti_w, run_fuel. cbn [run_loop_w].
    replace (loop_guard_w huge_maxto_settings (init_state huge_maxto_settings test_pair_stock)) with false
      by (vm_compute; reflexivity).
    reflexivity.
  Qed.

End Int64.

Export Int64.
