(* ===== verification/Cli.v ===== *)
(** * Cli: the [opti] command ([src/cmd/opti.go])

    The command reads the input file, parses it with [ParseFromCSV],
    runs [RunOpti] with the settings taken from its flags, and writes
    one CSV row per transferred product.  The file system is an input
    of the model: what [ioutil.ReadFile] returns ([None] for an error,
    else the successive [Read] results of the CSV reader on it),
    whether [os.Create], [Truncate] and [Seek] succeed, and which
    [WriteString] calls succeed (numbered from 0, the header).  A
    failed [WriteString] is modelled as writing nothing.  What the
    command prints to the terminal, and the progress goroutine, are in
    [Terminal]; the log is not modelled. *)

From Stdlib Require Import QArith Ascii.
From S2P Require Import Prelude Stock Transfer Orchestrator Strconv Parser.

Module Cli.

  (** The flags the command reads (opti.go 123-129). *)
Record Flags := mkFlags {
    f_input : string;
    f_output : string;
    f_minProducts : Z;
    f_maxTo : Z;
    f_secureStock : list string;
    f_deStock : list string
  }.

  (** The defaults of the flags; [output] defaults to a time stamp. *)
Definition default_flags (input output : string) : Flags :=
    mkFlags input output 20 4 [] [].

  (** [opti.Settings{MaxTo: maxTo, MinProducts: minProducts, ...}] *)
Definition cli_settings (fl : Flags) : Settings :=
    mkSettings (f_maxTo fl) (f_minProducts fl) (f_secureStock fl) (f_deStock fl).

  (** [strings.HasSuffix(s, suffix)] *)
Definition has_suffix (s suffix : string) : bool :=
    (String.length suffix <=? String.length s)%nat &&
    String.eqb (String.substring (String.length s - String.length suffix)
                  (String.length suffix) s) suffix.

  (** [if !strings.HasSuffix(filePath, ".csv") { filePath += ".csv" }] *)
Definition output_path (filePath : string) : string :=
    if has_suffix filePath ".csv" then filePath else String.append filePath ".csv".

  (** ["\n"] *)
Definition newline : string := String (ascii_of_nat 10) EmptyString.

Definition csv_header : string := "From, To, Product, Quantity" +:+ newline.

  (** [fmt.Sprintf("%s,%s,%s,%d\n", t.FromStore, t.ToStore, p.Product, p.Quant)] *)
Definition transfer_row (t : Transfer) (p : TransferedProduct) : string :=
    FromStore t +:+ "," +:+ ToStore t +:+ "," +:+ Product p +:+ "," +:+ Itoa (Quant p)
    +:+ newline.

  (** The data rows, transfer by transfer, product by product. *)
Definition data_rows (ts : list Transfer) : list string :=
    ts ≫= λ t, transfer_row t <$> Products t.

  (** The [for] loops of opti.go 97-105: the [k]-th [WriteString]
      succeeds when [ok k]; the first failure returns. *)
Fixpoint write_rows (ok : nat → bool) (k : nat) (rows : list string) : list string * bool :=
    match rows with
    | [] => ([], true)
    | r :: rs =>
        if ok k then let '(w, fin) := write_rows ok (S k) rs in (r :: w, fin)
        else ([], false)
    end.

  (** opti.go 95-106: the header's [WriteString] is not checked. *)
Definition write_output (ok : nat → bool) (ts : list Transfer) : list string * bool :=
    let header := if ok 0%nat then [csv_header] else [] in
    let '(w, fin) := write_rows ok 1 (data_rows ts) in
    (header ++ w, fin).

  (** The environment of one execution of the command. *)
Record Env := mkEnv {
    env_read : option (list ReadResult);  (* ioutil.ReadFile and the CSV reader *)
    env_create_ok : bool;                 (* os.Create, Truncate and Seek *)
    env_write_ok : nat → bool             (* each WriteString *)
  }.

Inductive CmdOutcome :=
  | CmdReadFailed
  | CmdParseFailed (e : NumError)
  | CmdPanic
  | CmdCreateFailed (osa : Q)
  | CmdWrote (osa : Q) (path : string) (contents : list string) (complete : bool).

  (** The [Run] function of [optiCmd] (opti.go 30-107). *)
Definition opti_cmd (env : Env) (fl : Flags) : CmdOutcome :=
    match env_read env with
    | None => CmdReadFailed
    | Some reads =>
        match ParseFromCSV reads with
        | ParseErr e => CmdParseFailed e
        | ParsePanic => CmdPanic
        | ParseOk stock =>
            let optim := (RunOpti stock (cli_settings fl)).1 in
            if env_create_ok env then
              let '(contents, fin) := write_output (env_write_ok env) (Transfers optim) in
              CmdWrote (OSAIncrease optim) (output_path (f_output fl)) contents fin
            else CmdCreateFailed (OSAIncrease optim)
        end
    end.

  (** ** Reading a row back *)

  (** Splitting at every [','] (what a CSV reader does on fields with no
      quote). *)
Fixpoint split_commas (s : string) : list string :=
    match s with
    | EmptyString => [EmptyString]
    | String c s' =>
        if Ascii.eqb c "," then EmptyString :: split_commas s'
        else match split_commas s' with
             | f :: fs => String c f :: fs
             | [] => [String c EmptyString]
             end
    end.

Fixpoint no_comma (s : string) : bool :=
    match s with
    | EmptyString => true
    | String c s' => negb (Ascii.eqb c ",") && no_comma s'
    end.

  (** ** Lemmas *)

Lemma split_commas_nonempty s : split_commas s ≠ [].
  Proof. destruct s as [|c s]; simpl; [done|]. by repeat case_match. Qed.

Lemma split_commas_app a s :
    no_comma a = true →
    split_commas (a +:+ s) =
      match split_commas s with f :: fs => (a +:+ f) :: fs | [] => [a] end.
  Proof.
    induction a as [|c a IH]; intros Ha; simpl in *.
    { destruct (split_commas s) eqn:E; [|done]. by destruct (split_commas_nonempty s). }
    apply andb_prop in Ha as [Hc Ha]. apply negb_true_iff in Hc. rewrite Hc, IH by done.
    by destruct (split_commas s).
  Qed.

Lemma split_commas_field a s :
    no_comma a = true → split_commas (a +:+ "," +:+ s) = a :: split_commas s.
  Proof.
    intros Ha. rewrite split_commas_app by done. change ("," +:+ s) with (String "," s). cbn.
    by rewrite append_empty_r.
  Qed.

Lemma no_comma_digits s : all_digits s = true → no_comma s = true.
  Proof.
    induction s as [|c s IH]; simpl; [done|]. intros [Hc Hs]%andb_prop.
    rewrite IH by done. destruct (Ascii.eqb_spec c ","); [subst; discriminate|done].
  Qed.

Lemma no_comma_Itoa n : min_int64 <= n <= max_int64 → no_comma (Itoa n) = true.
  Proof.
    intros Hn. unfold Itoa, min_int64, max_int64 in *. destruct (Z.ltb_spec n 0).
    - destruct (utoa_ok (Z.to_nat (Z.log2 (- n))) (- n)) as (Hd & _);
        [apply (utoa_fuel_enough (- n)); lia|]. cbn [no_comma]. by rewrite no_comma_digits.
    - destruct (utoa_ok (Z.to_nat (Z.log2 n)) n) as (Hd & _);
        [apply (utoa_fuel_enough n); lia|]. by apply no_comma_digits.
  Qed.

Lemma append_assoc a b c : (a +:+ b) +:+ c = a +:+ (b +:+ c).
  Proof. induction a as [|x a IH]; [done|]. change (String x ((a +:+ b) +:+ c) = String x (a +:+ (b +:+ c))). by rewrite IH. Qed.

Lemma substring_full s : String.substring 0 (String.length s) s = s.
  Proof. induction s as [|c s IH]; simpl; [done|by rewrite IH]. Qed.

Lemma length_append a b : String.length (a +:+ b) = (String.length a + String.length b)%nat.
  Proof. induction a as [|c a IH]; simpl; [done|by rewrite IH]. Qed.

Lemma substring_append a b : String.substring (String.length a) (String.length b) (a +:+ b) = b.
  Proof. induction a as [|c a IH]; simpl; [apply substring_full|done]. Qed.

  (** The output path always ends in [.csv]. *)
Lemma output_path_suffix p : has_suffix (output_path p) ".csv" = true.
  Proof.
    unfold output_path. destruct (has_suffix p ".csv") eqn:E; [done|].
    unfold has_suffix. rewrite length_append, Nat.add_sub, substring_append.
    rewrite String.eqb_refl, andb_true_r. apply Nat.leb_le. lia.
  Qed.

Lemma write_rows_complete ok k rows w : write_rows ok k rows = (w, true) → w = rows.
  Proof.
    revert k w. induction rows as [|r rows IH]; intros k w; simpl; [congruence|].
    destruct (ok k); [|congruence]. destruct (write_rows ok (S k) rows) as [w' fin] eqn:E.
    intros [= <- ->]. f_equal. by eapply IH.
  Qed.

Lemma write_rows_all ok k rows : (∀ j, ok (k + j)%nat = true) → write_rows ok k rows = (rows, true).
  Proof.
    revert k. induction rows as [|r rows IH]; intros k Hok; simpl; [done|].
    rewrite <- (Nat.add_0_r k), Hok, Nat.add_0_r, IH; [done|].
    intros j. rewrite Nat.add_succ_comm. apply Hok.
  Qed.

Lemma write_rows_stop ok k rows n :
    (n < length rows)%nat → (∀ j, (j < n)%nat → ok (k + j)%nat = true) → ok (k + n)%nat = false →
    write_rows ok k rows = (take n rows, false).
  Proof.
    revert k n. induction rows as [|r rows IH]; intros k n Hn Hok Hfail; simpl in *; [lia|].
    destruct n as [|n].
    - by rewrite Nat.add_0_r in Hfail; rewrite Hfail.
    - rewrite <- (Nat.add_0_r k), Hok, Nat.add_0_r by lia.
      rewrite (IH (S k) n); [done|lia| |by rewrite Nat.add_succ_comm].
      intros j Hj. rewrite Nat.add_succ_comm. apply Hok. lia.
  Qed.

  (** ** What the command does *)

  (** C19: the command writes a file only when the input was read and
      parsed, and then what it writes is the optimisation of the parsed
      stock with the settings of the flags: the OSA it reports is that
      of [RunOpti], the path ends in [.csv], and when every row was
      written the file holds the header (if its unchecked write
      succeeded) and one row per transferred product, transfer by
      transfer, in the order [RunOpti] committed them. *)
Theorem opti_cmd_output env fl osa path contents fin :
    opti_cmd env fl = CmdWrote osa path contents fin →
    ∃ reads stock, env_read env = Some reads ∧ ParseFromCSV reads = ParseOk stock ∧
      let optim := (RunOpti stock (cli_settings fl)).1 in
      osa = OSAIncrease optim ∧ has_suffix path ".csv" = true ∧
      (fin = true →
       contents = (if env_write_ok env 0%nat then [csv_header] else []) ++ data_rows (Transfers optim)).
  Proof.
    unfold opti_cmd. destruct (env_read env) as [reads|] eqn:Er; [|discriminate].
    destruct (ParseFromCSV reads) as [stock| |] eqn:Ep; try discriminate.
    destruct (env_create_ok env); [|discriminate]. unfold write_output.
    destruct (write_rows _ _ _) as [w f] eqn:Ew. intros [= <- <- <- <-].
    exists reads, stock. split; [done|]. split; [done|]. split; [done|].
    split; [apply output_path_suffix|]. intros ->. f_equal. by eapply write_rows_complete.
  Qed.

  (** C24: a row can be read back.  When the store and product names
      contain no [','] and the quantity is a 64-bit [int], a row is four
      comma-separated fields followed by a newline, the fields are the
      source, the destination, the product and the printed quantity,
      and [Atoi] gives the quantity back. *)
Theorem transfer_row_roundtrip t p :
    no_comma (FromStore t) = true → no_comma (ToStore t) = true → no_comma (Product p) = true →
    min_int64 <= Quant p <= max_int64 →
    ∃ body, transfer_row t p = body +:+ newline ∧
      split_commas body = [FromStore t; ToStore t; Product p; Itoa (Quant p)] ∧
      Atoi (Itoa (Quant p)) = inl (Quant p).
  Proof.
    intros H1 H2 H3 Hq.
    exists (FromStore t +:+ "," +:+ ToStore t +:+ "," +:+ Product p +:+ "," +:+ Itoa (Quant p)).
    split_and!; [|rewrite !split_commas_field by done|by apply Atoi_Itoa].
    - unfold transfer_row. by rewrite !append_assoc.
    - rewrite <- (append_empty_r (Itoa (Quant p))) at 1.
      rewrite split_commas_app by (by apply no_comma_Itoa). cbn [split_commas]. by rewrite append_empty_r.
  Qed.

  (** C25: a failed row write stops the output there.  If the writes of
      the first [n] data rows succeed and the next one fails, the file
      holds the header (if written) and exactly those [n] rows, and the
      command reports the failure. *)
Theorem write_output_stops ok ts n :
    (n < length (data_rows ts))%nat →
    (∀ j, (j < n)%nat → ok (S j) = true) → ok (S n) = false →
    write_output ok ts = ((if ok 0%nat then [csv_header] else []) ++ take n (data_rows ts), false).
  Proof.
    intros Hn Hok Hf. unfold write_output. by rewrite (write_rows_stop ok 1 _ n).
  Qed.

  (** C30: the header's write is not checked.  When the input parses,
      the file is created, the header's [WriteString] fails and every
      row's succeeds, the command writes the rows without the header
      and reports the output as complete. *)
Theorem opti_cmd_header_unchecked env fl reads stock :
    env_read env = Some reads → ParseFromCSV reads = ParseOk stock → env_create_ok env = true →
    env_write_ok env 0 = false → (∀ j, env_write_ok env (S j) = true) →
    opti_cmd env fl =
      CmdWrote (OSAIncrease (RunOpti stock (cli_settings fl)).1) (output_path (f_output fl))
        (data_rows (Transfers (RunOpti stock (cli_settings fl)).1)) true.
  Proof.
    intros Hr Hp Hc H0 Hok. unfold opti_cmd, write_output. rewrite Hr, Hp, Hc, H0.
    by rewrite write_rows_all by (intros j; apply Hok).
  Qed.

  (** ** Concrete runs *)

  (** The CSV reader's records for the input of [opti_test.go]. *)
Definition test_reads : list ReadResult :=
    [ReadRecord ["Store"; "Product"; "Stock"; "Max"];
     ReadRecord ["Paris"; "Apples"; "7"; "9"]; ReadRecord ["Paris"; "Corn"; "0"; "4"];
     ReadRecord ["Paris"; "Sugar"; "4"; "4"]; ReadRecord ["Paris"; "Gems"; "2"; "0"];
     ReadRecord ["Paris"; "Roses"; "6"; "4"];
     ReadRecord ["Bucharest"; "Apples"; "17"; "3"]; ReadRecord ["Bucharest"; "Corn"; "6"; "2"];
     ReadRecord ["Bucharest"; "Sugar"; "4"; "4"]; ReadRecord ["Bucharest"; "Gems"; "3"; "0"];
     ReadRecord ["Bucharest"; "Roses"; "5"; "2"]].

Definition test_env : Env := mkEnv (Some test_reads) true (λ _, true).

  (** The command on the input of [opti_test.go].  With [-m 1 -n 1]
      it writes the header and the rows [Bucharest,Paris,Corn,4] and
      [Bucharest,Paris,Apples,2] and reports an OSA increase of 10
      (the rational [100/10] that [computeOSA] computes); with
      the flags' defaults ([-m 20 -n 4], not the spec's 1 and 10) the
      six-item transfer is below the minimum and only the header is
      written. *)
Example opti_cmd_test_example :
    opti_cmd test_env (mkFlags "stock.csv" "out" 1 1 [] []) =
      CmdWrote (100 # 10) "out.csv"
        [csv_header; "Bucharest,Paris,Corn,4" +:+ newline; "Bucharest,Paris,Apples,2" +:+ newline] true ∧
    opti_cmd test_env (default_flags "stock.csv" "out.csv") = CmdWrote (0 # 10) "out.csv" [csv_header] true.
  Proof. split; vm_compute; reflexivity. Qed.

  (** The writes of [test_env] with a failing header. *)
Definition header_fail_env : Env := mkEnv (Some test_reads) true (λ k, negb (k =? 0)%nat).

  (** The stock parsed from [test_reads]. *)
Definition test_parsed : StockMatrix :=
    match ParseFromCSV test_reads with ParseOk σ => σ | _ => ∅ end.

Lemma opti_cmd_header_unchecked_witness :
    ParseFromCSV test_reads = ParseOk test_parsed ∧
    opti_cmd header_fail_env (mkFlags "stock.csv" "out" 1 1 [] []) =
      CmdWrote (OSAIncrease (RunOpti test_parsed (cli_settings (mkFlags "stock.csv" "out" 1 1 [] []))).1)
        (output_path "out")
        (data_rows (Transfers (RunOpti test_parsed (cli_settings (mkFlags "stock.csv" "out" 1 1 [] []))).1)) true.
  Proof.
    assert (H : ParseFromCSV test_reads = ParseOk test_parsed) by (vm_compute; reflexivity).
    split; [exact H|].
    exact (opti_cmd_header_unchecked header_fail_env (mkFlags "stock.csv" "out" 1 1 [] []) test_reads
             test_parsed eq_refl H eq_refl eq_refl (λ j, eq_refl)).
  Defined.

Lemma opti_cmd_output_witness :
    opti_cmd test_env (mkFlags "stock.csv" "out" 1 1 [] []) =
      CmdWrote (100 # 10) "out.csv"
        [csv_header; "Bucharest,Paris,Corn,4" +:+ newline; "Bucharest,Paris,Apples,2" +:+ newline] true ∧
    ∃ reads stock, env_read test_env = Some reads ∧ ParseFromCSV reads = ParseOk stock ∧
      let optim := (RunOpti stock (cli_settings (mkFlags "stock.csv" "out" 1 1 [] []))).1 in
      (100 # 10)%Q = OSAIncrease optim ∧ has_suffix "out.csv" ".csv" = true ∧
      (true = true →
       [csv_header; "Bucharest,Paris,Corn,4" +:+ newline; "Bucharest,Paris,Apples,2" +:+ newline] =
         (if env_write_ok test_env 0%nat then [csv_header] else []) ++ data_rows (Transfers optim)).
  Proof.
    assert (H : opti_cmd test_env (mkFlags "stock.csv" "out" 1 1 [] []) =
      CmdWrote (100 # 10) "out.csv"
        [csv_header; "Bucharest,Paris,Corn,4" +:+ newline; "Bucharest,Paris,Apples,2" +:+ newline] true)
      by (vm_compute; reflexivity).
    split; [exact H|]. exact (opti_cmd_output _ _ _ _ _ _ H).
  Defined.

Lemma transfer_row_roundtrip_witness :
    let t := mkTransfer "Bucharest" "Paris" [] 6 1 in
    let p := mkTransferedProduct "Corn" (-4) in
    ∃ body, transfer_row t p = body +:+ newline ∧
      split_commas body = [FromStore t; ToStore t; Product p; Itoa (Quant p)] ∧
      Atoi (Itoa (Quant p)) = inl (Quant p).
  Proof.
    intros t p.
    assert (H1 : no_comma (FromStore t) = true) by reflexivity.
    assert (H2 : no_comma (ToStore t) = true) by reflexivity.
    assert (H3 : no_comma (Product p) = true) by reflexivity.
    assert (H4 : min_int64 <= Quant p <= max_int64) by (unfold min_int64, max_int64; simpl; lia).
    exact (transfer_row_roundtrip t p H1 H2 H3 H4).
  Defined.

Lemma write_output_stops_witness :
    let ts := [mkTransfer "Bucharest" "Paris"
                 [mkTransferedProduct "Corn" 4; mkTransferedProduct "Apples" 2] 6 1] in
    let ok := λ k, negb (k =? 2)%nat in
    write_output ok ts = ([csv_header; "Bucharest,Paris,Corn,4" +:+ newline], false) ∧
    write_output ok ts = ((if ok 0%nat then [csv_header] else []) ++ take 1 (data_rows ts), false).
  Proof.
    intros ts ok. split; [vm_compute; reflexivity|].
    assert (Hn : (1 < length (data_rows ts))%nat) by (vm_compute; lia).
    assert (Hok : ∀ j, (j < 1)%nat → ok (S j) = true) by (intros j Hj; assert (j = 0%nat) as -> by lia; reflexivity).
    assert (Hf : ok 2%nat = false) by reflexivity.
    exact (write_output_stops ok ts 1 Hn Hok Hf).
  Defined.

End Cli.

Export Cli.
