(* ===== verification/Run.v ===== *)
(** * Run: what a whole [RunOpti] run guarantees

    The theorems of this file are about [RunOpti] with the real
    evaluator [doExchangeItems]: every committed transfer is valid, the
    caps hold, stock is conserved and stays well formed, the progress
    values are sound, the reported OSA is bounded, the priority phase
    comes first, the loop always terminates within its fuel, under
    every scheduler a run of rounds ends within the same bound without
    getting stuck, every
    interleaving of the goroutines gives the same result when no store
    name contains ['-'], and the example of [opti_test.go] gives the
    expected result.  The examples at the end record behaviours of the
    code that the spec does not promise. *)

From Stdlib Require Import QArith.
From S2P Require Import Prelude Stock Transfer Score Exchange Osa Orchestrator Phases Race.

Module Run.

Lemma RunOpti_inv σ settings :
    ∃ st, run_inv settings σ st ∧
      RunOpti σ settings =
        (mkOptimisation σ (os_stock st) (os_transfers st) settings
           (computeOSA σ (os_stock st)), os_progress st).
  Proof. apply RunOpti_with_inv. apply _. Qed.

  (** C6: termination.  The loop of [RunOpti] always leaves before its
      fuel runs out: the fuel [len(stock) * maxTo + 2] is enough. *)
Theorem run_loop_total σ settings :
    is_Some (run_loop doExchangeItems settings (run_fuel settings σ) (init_state settings σ)).
  Proof.
    destruct (run_loop_some doExchangeItems settings σ (run_fuel settings σ)
                (init_state settings σ)) as (st & -> & _).
    - apply (run_inv_init doExchangeItems).
    - unfold run_measure, run_fuel, init_state. simpl. destruct (_ || _); lia.
    - by eexists.
  Qed.

  (** C3: every committed transfer goes between two distinct stores and
      carries at least [minProducts] items. *)
Theorem RunOpti_transfers_valid σ settings t :
    t ∈ Transfers (RunOpti σ settings).1 →
    FromStore t ≠ ToStore t ∧ effective_minProducts settings <= TotaItemsCount t.
  Proof.
    destruct (RunOpti_inv σ settings) as (st & Hinv & ->). simpl. apply Hinv.
  Qed.

  (** C4: no store sends more than [maxTo] transfers. *)
Theorem RunOpti_outgoing_cap σ settings s :
    Z.of_nat (sent_from (Transfers (RunOpti σ settings).1) s) <= effective_maxTo settings.
  Proof.
    destruct (RunOpti_inv σ settings) as (st & Hinv & ->). simpl.
    rewrite <- (ri_counter _ _ _ Hinv). apply Hinv.
  Qed.

  (** C5: no pair of stores is used by two transfers. *)
Theorem RunOpti_pairs_distinct σ settings :
    NoDup (transfer_pair <$> Transfers (RunOpti σ settings).1).
  Proof. destruct (RunOpti_inv σ settings) as (st & Hinv & ->). apply Hinv. Qed.

  (** At most [len(stock) * maxTo] transfers are committed. *)
Theorem RunOpti_count_bound σ settings :
    Z.of_nat (length (Transfers (RunOpti σ settings).1)) <= nstores σ * effective_maxTo settings.
  Proof.
    destruct (RunOpti_inv σ settings) as (st & Hinv & ->). simpl.
    rewrite <- (ri_loop _ _ _ Hinv). apply Hinv.
  Qed.

  (** C1: conservation over the run: the final stock holds, for every
      product, the same total quantity as the input. *)
Theorem RunOpti_conserves σ settings p :
    stock_sum p (AfterStock (RunOpti σ settings).1) = stock_sum p σ.
  Proof. destruct (RunOpti_inv σ settings) as (st & Hinv & ->). apply Hinv. Qed.

  (** C2: a well-formed input (no negative [Has] or [Needs]) gives a
      well-formed final stock: no stock ever becomes negative. *)
Theorem RunOpti_wf σ settings :
    stock_wf σ → stock_wf (AfterStock (RunOpti σ settings).1).
  Proof. destruct (RunOpti_inv σ settings) as (st & Hinv & ->). apply Hinv. Qed.

  (** C13: one progress value is sent per commit; the values are
      non-decreasing and lie between 0 and 100. *)
Theorem RunOpti_progress σ settings :
    let '(opt, prog) := RunOpti σ settings in
    length prog = length (Transfers opt) ∧
    (∀ i j x y, (i <= j)%nat → prog !! i = Some x → prog !! j = Some y → x <= y) ∧
    Forall (λ v, 0 <= v <= 100) prog.
  Proof.
    destruct (RunOpti_inv σ settings) as (st & Hinv & ->). simpl.
    rewrite (ri_progress _ _ _ Hinv).
    pose proof (ri_bound _ _ _ Hinv) as Hb. rewrite (ri_loop _ _ _ Hinv) in Hb.
    pose proof (maxTo_pos settings).
    split; [unfold progress_values; by rewrite length_fmap, length_seq|].
    destruct (decide (0 < nstores σ * maxTo settings)) as [HN|HN].
    - by apply progress_values_ok.
    - assert (length (os_transfers st) = 0%nat) as -> by lia.
      unfold progress_values. simpl. split; [intros ????? Hx; by rewrite lookup_nil in Hx|constructor].
  Qed.

(** C14: the reported OSA change is a number of percentage points: a run
    never adds or removes a cell, so [OSAIncrease] lies between -100 and
    100. *)
Theorem RunOpti_osa_bounds σ settings :
  (-100 <= OSAIncrease (RunOpti σ settings).1 <= 100)%Q.
Proof.
  destruct (RunOpti_inv σ settings) as (st & Hinv & ->). simpl.
  apply computeOSA_bounds, total_items_same_cells; intros; symmetry; apply Hinv.
Qed.

(** A round appends to the committed transfers, and never re-enters
    the priority phase. *)
Lemma round_step_prefix settings st st' :
  round_step doExchangeItems settings st st' →
  os_transfers st `prefix_of` os_transfers st' ∧ (os_priori st' = true → os_priori st = true).
Proof.
  destruct 1 as [? arr ? Hg Hp Hr | ? arr ? Hg Hp Hr].
  - destruct (round_commit_winner _ _ _ _ _ Hp Hr) as (s1 & s2 & _ & _ & ->).
    rewrite commit_unfold. simpl. split; [by apply prefix_app_r|done].
  - revert Hr. unfold round_with. destruct (_ =? 0); [|discriminate].
    destruct (os_priori _); [|discriminate]. intros [= <-]. simpl. split; [done|discriminate].
Qed.

Lemma rtc_round_step_prefix settings st st' :
  rtc (round_step doExchangeItems settings) st st' →
  os_transfers st `prefix_of` os_transfers st' ∧ (os_priori st' = true → os_priori st = true).
Proof.
  induction 1 as [|x y z Hxy _ [IH1 IH2]]; [done|].
  destruct (round_step_prefix settings x y Hxy) as [H1 H2].
  split; [by trans (os_transfers y)|auto].
Qed.

(** C10: the priority phase comes first.  In any run (any arrival order
    of the candidates), while [prioriFirst] holds every committed
    transfer leaves a destock store or enters a secure store, and those
    transfers stay the first ones of the run. *)
Theorem priority_phase_first σ settings st st' :
  rtc (round_step doExchangeItems settings) (init_state settings σ) st →
  rtc (round_step doExchangeItems settings) st st' →
  os_priori st = true →
  Forall (priority_ok settings) (os_transfers st) ∧ os_transfers st `prefix_of` os_transfers st'.
Proof.
  intros Hr Hr' Hpri. split.
  - by apply (ri_priority _ _ _ (run_inv_reachable doExchangeItems settings σ st Hr)).
  - by apply (rtc_round_step_prefix settings st st').
Qed.

(** C9: the result does not depend on the interleaving.  When no store
    name contains ['-'], every run of the step relation from the start
    of [RunOpti] that reaches a final state, whatever the order in which
    each round's goroutines deliver their candidates, ends in the
    result the executable model computes. *)
Theorem RunOpti_any_interleaving σ settings st :
  dash_free σ →
  rtc (round_step doExchangeItems settings) (init_state settings σ) st →
  run_final doExchangeItems settings st →
  RunOpti σ settings =
    (mkOptimisation σ (os_stock st) (os_transfers st) settings (computeOSA σ (os_stock st)),
     os_progress st).
Proof.
  intros Hdf Hr Hf. unfold RunOpti.
  destruct (RunOpti_with_run doExchangeItems settings σ) as (st0 & Hr0 & Hf0 & ->).
  by rewrite (run_final_unique doExchangeItems settings σ _ st0 st
                (run_inv_init doExchangeItems settings σ) Hdf Hr0 Hr Hf0 Hf).
Qed.

(** C11: the priority phase exhausts before the normal phase.  In every
    run, whatever the arrival order of each round's candidates, the
    committed transfers are transfers that leave a [DeStockIn] store or
    enter a [SecureStockIn] store, followed by transfers that do
    neither; in particular so are those of [RunOpti]. *)
Theorem RunOpti_phases_separated σ settings :
  (∀ st, rtc (round_step doExchangeItems settings) (init_state settings σ) st →
     phase_split settings (os_transfers st)) ∧
  phase_split settings (Transfers (RunOpti σ settings).1).
Proof.
  assert (H : ∀ st, rtc (round_step doExchangeItems settings) (init_state settings σ) st →
            phase_split settings (os_transfers st))
    by (intros st; apply (phase_split_reachable doExchangeItems settings σ)).
  split; [exact H|]. unfold RunOpti.
  destruct (RunOpti_with_run doExchangeItems settings σ) as (st & Hr & _ & ->). by apply H.
Qed.

(** C15: the race on the reducer does not break the stock.  In every
    run in which each read of the winner (lines 116, 128, 129, 132) may
    see the reducer's value before or after its last fold, independently
    of the other reads, after any [n] rounds that did not panic the
    stock is conserved, a well-formed input stays well formed, the
    stores are those of the input, and [n] is at most
    [len(stock) * maxTo + 1]: racy runs end too. *)
Theorem racy_runs_safe σ settings n st :
  nsteps (racy_step doExchangeItems settings) n (init_state settings σ) st →
  (∀ p, stock_sum p (os_stock st) = stock_sum p σ) ∧
  (stock_wf σ → stock_wf (os_stock st)) ∧
  (∀ s, is_Some (os_stock st !! s) ↔ is_Some (σ !! s)) ∧
  Z.of_nat n <= nstores σ * effective_maxTo settings + 1.
Proof.
  intros Hn.
  destruct (racy_nsteps doExchangeItems settings (λ σ' a, doExchangeItems_same σ' settings a true)
              σ n _ st (run_inv_racy_inv settings σ _
                          (run_inv_init doExchangeItems settings σ)) Hn) as [Hinv Hm].
  split_and!; try apply Hinv. pose proof (run_measure_init settings σ). unfold maxTo in *. lia.
Qed.

(** C12: liveness of the loop under every scheduler.  Whatever order
    each round's goroutines deliver their candidates in, a run of
    rounds from the start of [RunOpti] lasts at most
    [len(stock) * maxTo + 1] rounds, and a state it reaches is either
    final (the loop guard fails or the round breaks) or has a next
    round: no run gets stuck before the loop leaves, and none goes on
    for ever. *)
Theorem round_runs_end σ settings n st :
  nsteps (round_step doExchangeItems settings) n (init_state settings σ) st →
  Z.of_nat n <= nstores σ * effective_maxTo settings + 1 ∧
  (run_final doExchangeItems settings st ∨ ∃ st', round_step doExchangeItems settings st st').
Proof.
  intros Hn. destruct (round_nsteps doExchangeItems settings σ n _ st
                        (run_inv_init doExchangeItems settings σ) Hn) as [_ Hm].
  split; [|apply round_progress].
  pose proof (run_measure_init settings σ). unfold maxTo in *. lia.
Qed.

(** Each round commits a best candidate of the exact selector,
    whatever the arrival order. *)
Lemma round_commits_best_exact settings st arrivals st' :
  arrivals ≡ₚ round_candidates doExchangeItems settings st →
  round_with doExchangeItems settings st arrivals = RCommit st' →
  ∃ s1 s2, (s1, s2) ∈ round_pairs settings st ∧
    let c := (doExchangeItems (os_stock st) settings s1 s2 false).2 in
    reduce_candidates (effective_minProducts settings) best_order arrivals = c ∧
    effective_minProducts settings <= TotaItemsCount c ∧
    os_transfers st' = os_transfers st ++ [(doExchangeItems (os_stock st) settings s1 s2 true).2] ∧
    ∀ x, x ∈ round_candidates doExchangeItems settings st →
      effective_minProducts settings <= TotaItemsCount x →
      score best_order x <= score best_order c ∧
      (score best_order x = score best_order c → String.le (transfer_key c) (transfer_key x)).
Proof.
  intros Hp Hr.
  destruct (round_commit_winner_eq doExchangeItems settings st arrivals st'
              (λ t Ht, proj1 (elem_of_Permutation_proper _ _ _ Hp) Ht) Hr)
    as (s1 & s2 & Hpair & Hbest & Hmin & ->).
  exists s1, s2. split; [done|]. cbv zeta. split; [exact Hbest|]. split; [done|].
  destruct (pe_ends (os_stock st) settings s1 s2 false) as [Hf Ht].
  split; [rewrite commit_unfold, Hf, Ht; reflexivity|].
  intros x Hx Hxm. rewrite <- Hbest.
  apply (reduce_candidates_winner (minProducts settings) best_order arrivals); [|done].
  by rewrite Hp.
Qed.

(** C8: each round commits the float64 winner, and it is a best
    candidate.  Let [best] be what the reducer goroutine computes in
    float64, as Go does, from the arrivals (any order of the round's
    candidates).  When the admitted candidates lie in the grid of
    [Score] and tie exactly only at the same score point, and [best] is
    not empty, the round commits [best]: it is the evaluation of an
    eligible pair with at least [minProducts] items, the transfer
    appended is that pair re-evaluated with [alterStock = true], no
    admitted candidate scores more and one with the same score has a
    key no smaller. *)
Theorem round_commits_best_f64 settings st arrivals :
  arrivals ≡ₚ round_candidates doExchangeItems settings st →
  Forall in_grid (admitted (effective_minProducts settings) arrivals) →
  no_cross_tie (admitted (effective_minProducts settings) arrivals) →
  let best := reduce_candidates_f64 (effective_minProducts settings) order_f64 arrivals in
  TotaItemsCount best ≠ 0 →
  round_with doExchangeItems settings st arrivals = RCommit (commit doExchangeItems settings st best) ∧
  ∃ s1 s2, (s1, s2) ∈ round_pairs settings st ∧
    best = (doExchangeItems (os_stock st) settings s1 s2 false).2 ∧
    effective_minProducts settings <= TotaItemsCount best ∧
    os_transfers (commit doExchangeItems settings st best) =
      os_transfers st ++ [(doExchangeItems (os_stock st) settings s1 s2 true).2] ∧
    ∀ x, x ∈ round_candidates doExchangeItems settings st →
      effective_minProducts settings <= TotaItemsCount x →
      score best_order x <= score best_order best ∧
      (score best_order x = score best_order best → String.le (transfer_key best) (transfer_key x)).
Proof.
  intros Hp Hg Ht best Hnz. unfold best in *. rewrite reduce_f64_exact in * by done.
  assert (Hr : round_with doExchangeItems settings st arrivals =
    RCommit (commit doExchangeItems settings st
               (reduce_candidates (effective_minProducts settings) best_order arrivals))).
  { unfold round_with, minProducts. by rewrite (proj2 (Z.eqb_neq _ _) Hnz). }
  split; [exact Hr|].
  destruct (round_commits_best_exact settings st arrivals _ Hp Hr)
    as (s1 & s2 & Hpair & Hbest & Hmin & Htr & Hmax).
  rewrite Hbest in Htr |- *. exists s1, s2. split_and!; [done|done|done|exact Htr|exact Hmax].
Qed.

(** ** Concrete runs *)

Definition item (h n : Z) : StockItem := mkStockItem h n.

(** The input of [TestOptiSuccess] (opti_test.go 12-28). *)
Definition test_stock : StockMatrix :=
  <["Paris" := <["Apples" := item 7 9]> (<["Corn" := item 0 4]> (<["Sugar" := item 4 4]>
                 (<["Gems" := item 2 0]> {["Roses" := item 6 4]})))]>
  {["Bucharest" := <["Apples" := item 17 3]> (<["Corn" := item 6 2]> (<["Sugar" := item 4 4]>
                     (<["Gems" := item 3 0]> {["Roses" := item 5 2]})))]}.

(** [Settings{MaxTo: 1, MinProducts: 1}] *)
Definition test_settings : Settings := mkSettings 1 1 [] [].

(** A store whose only product is fully given away while the receiver
    already had some. *)
Definition osa_loss_stock : StockMatrix :=
  <["A" := {["P" := item 2 0]}]> {["B" := {["P" := item 1 5]}]}.

(** The same with [DeStockIn = ["A"]], which starts in the priority phase. *)
Definition priority_settings : Settings := mkSettings 1 1 [] ["A"].

(** The end-to-end example of [opti_test.go]: one transfer from
    Bucharest to Paris, Corn 4 and Apples 2 (in stdpp's enumeration of
    the products; Go's map order varies between runs, which
    [doExchangeItems_in_perm] shows does not matter), an OSA increase of
    10 points, and one progress report of 50%. *)
Example RunOpti_test_example :
  let '(opt, prog) := RunOpti test_stock test_settings in
  Transfers opt = [mkTransfer "Bucharest" "Paris"
                     [mkTransferedProduct "Corn" 4; mkTransferedProduct "Apples" 2] 6 1] ∧
  (OSAIncrease opt == 10)%Q ∧ prog = [50].
Proof. vm_compute. split; [reflexivity|split; reflexivity]. Qed.

(** A committed transfer can lower the on-shelf availability: the
    score counts the destinations that come back in stock but not the
    sources that run out, and the run reports an OSA change of -50
    points. *)
Example RunOpti_osa_can_decrease :
  let opt := (RunOpti osa_loss_stock test_settings).1 in
  length (Transfers opt) = 1%nat ∧ (OSAIncrease opt == -50)%Q.
Proof. vm_compute. split; reflexivity. Qed.

(** Three stores: [A] (to destock) has [P] to spare, [B] lacks [P] and
    [Q], [C] has [Q] to spare. *)
Definition phase_stock : StockMatrix :=
  <["A" := {["P" := item 4 0]}]>
  (<["B" := <["P" := item 0 2]> {["Q" := item 0 3]}]> {["C" := {["Q" := item 5 0]}]}).

(** The two phases on a concrete run: with [DeStockIn = ["A"]] the
    run first sends [P] from the destock store [A] to [B], then finds
    no other priority transfer, switches phase, and sends [Q] from [C]
    to [B]. *)
Example RunOpti_two_phases_example :
  Transfers (RunOpti phase_stock priority_settings).1 =
    [mkTransfer "A" "B" [mkTransferedProduct "P" 2] 2 1;
     mkTransfer "C" "B" [mkTransferedProduct "Q" 3] 3 1].
Proof. vm_compute. reflexivity. Qed.

(** The candidates of the first round of the [opti_test.go] run in the
    order in which the reducer receives them in the racy scenario:
    Paris to Bucharest first, Bucharest to Paris last. *)
Definition test_arrivals : list Transfer :=
  reverse (round_candidates doExchangeItems test_settings (init_state test_settings test_stock)).

(** The race can end the run early.  On the input of [opti_test.go],
    if the reducer is still folding the last candidate (the transfer
    Bucharest to Paris) when the winner is read, the round sees no
    transfer and the loop breaks with none committed, whereas the run
    with a joined reducer commits the transfer the test expects. *)
Example race_ends_run_early :
  racy_final doExchangeItems test_settings (init_state test_settings test_stock) ∧
  round_with doExchangeItems test_settings (init_state test_settings test_stock)
    (removelast test_arrivals) = RDone ∧
  os_transfers (init_state test_settings test_stock) = [] ∧
  length (Transfers (RunOpti test_stock test_settings).1) = 1%nat.
Proof.
  assert (Hd : round_with doExchangeItems test_settings (init_state test_settings test_stock)
                 (removelast test_arrivals) = RDone) by (vm_compute; reflexivity).
  split; [|split; [exact Hd|split; [reflexivity|vm_compute; reflexivity]]].
  right. exists test_arrivals, (mkReads false true true true true true). split.
  - unfold test_arrivals. apply reverse_Permutation.
  - vm_compute. reflexivity.
Qed.

(** A stock where [A] can serve [B] or [E] with [P] and [C] can serve
    [D] with [Q]. *)
Definition race_stock : StockMatrix :=
  <["A" := {["P" := item 5 0]}]> (<["B" := {["P" := item 0 2]}]> (<["E" := {["P" := item 0 2]}]>
  (<["C" := {["Q" := item 10 0]}]> {["D" := {["Q" := item 0 10]}]}))).

(** [MaxTo: 1]. *)
Definition race_settings : Settings := mkSettings 1 1 [] [].

(** The first round's candidates with [C] to [D], the best, received last. *)
Definition race_arrivals : list Transfer :=
  let l := round_candidates doExchangeItems race_settings (init_state race_settings race_stock) in
  filter (λ t, transfer_pair t ≠ ("C", "D")) l ++ filter (λ t, ¬ transfer_pair t ≠ ("C", "D")) l.

(** The state after a torn first round (the count, the mark and the
    counter see [C] to [D], the exchange sees [A] to [B]) and a joined
    second round. *)
Definition race_round2 : OptiState :=
  match racy_round doExchangeItems race_settings (init_state race_settings race_stock) race_arrivals
          (mkReads true true true true false false) with
  | Some (RCommit st) =>
      match round_with doExchangeItems race_settings st (round_candidates doExchangeItems race_settings st) with
      | RCommit st' => st'
      | _ => st
      end
  | _ => init_state race_settings race_stock
  end.

(** The race breaks the caps: after two racy rounds [A] has sent two
    transfers although [maxTo] is 1, and [C] to [D], the best transfer
    of the first round, is marked used but never made. *)
Example racy_dup_commit :
  nsteps (racy_step doExchangeItems race_settings) 2 (init_state race_settings race_stock) race_round2 ∧
  sent_from (os_transfers race_round2) "A" = 2%nat ∧ effective_maxTo race_settings = 1 ∧
  (λ t, (FromStore t, ToStore t)) <$> os_transfers race_round2 = [("A", "B"); ("A", "E")].
Proof.
  split; [|vm_compute; auto].
  eapply nsteps_l; [|eapply nsteps_l; [|apply nsteps_O]].
  - eapply (racy_commit _ _ _ race_arrivals (mkReads true true true true false false));
      [vm_compute; reflexivity|apply filter_app_complement|vm_compute; reflexivity].
  - eapply (racy_commit _ _ _ _ fresh_reads); [vm_compute; reflexivity|reflexivity|vm_compute; reflexivity].
Qed.

(** The last candidate the reducer receives in the racy scenario. *)
Definition test_last : Transfer := default zero_transfer (last test_arrivals).

Lemma racy_round_can_panic_witness :
  os_avail (init_state test_settings test_stock) !! "" = None ∧
  Forall (λ x, TotaItemsCount x < minProducts test_settings) (removelast test_arrivals) ∧
  minProducts test_settings <= TotaItemsCount test_last ∧ 0 <= OsaImprouve test_last ∧
  racy_round doExchangeItems test_settings (init_state test_settings test_stock)
    (removelast test_arrivals ++ [test_last]) (mkReads true false true true true true) = None.
Proof.
  assert (H1 : os_avail (init_state test_settings test_stock) !! "" = None) by (vm_compute; reflexivity).
  assert (H2 : Forall (λ x, TotaItemsCount x < minProducts test_settings) (removelast test_arrivals))
    by (vm_compute; repeat constructor).
  assert (H3 : minProducts test_settings <= TotaItemsCount test_last) by (vm_compute; discriminate).
  assert (H4 : 0 <= OsaImprouve test_last) by (vm_compute; discriminate).
  split_and!; [exact H1|exact H2|exact H3|exact H4|].
  exact (racy_round_can_panic doExchangeItems test_settings _ _ _ H1 H2 H3 H4).
Defined.

(** The state after the first round of the [opti_test.go] run. *)
Definition test_round1 : OptiState :=
  match round_with doExchangeItems test_settings (init_state test_settings test_stock)
          (round_candidates doExchangeItems test_settings (init_state test_settings test_stock)) with
  | RCommit st => st
  | _ => init_state test_settings test_stock
  end.

Lemma racy_runs_safe_witness :
  nsteps (racy_step doExchangeItems test_settings) 1 (init_state test_settings test_stock) test_round1 ∧
  length (os_transfers test_round1) = 1%nat ∧
  Z.of_nat 1 <= nstores test_stock * effective_maxTo test_settings + 1.
Proof.
  assert (Hs : nsteps (racy_step doExchangeItems test_settings) 1
                 (init_state test_settings test_stock) test_round1).
  { eapply nsteps_l; [|apply nsteps_O].
    eapply (racy_commit _ _ _ _ fresh_reads); [vm_compute; reflexivity|reflexivity|vm_compute; reflexivity]. }
  split; [exact Hs|split; [vm_compute; reflexivity|]].
  exact (proj2 (proj2 (proj2 (racy_runs_safe test_stock test_settings 1 _ Hs)))).
Defined.

Lemma round_runs_end_witness :
  nsteps (round_step doExchangeItems test_settings) 1 (init_state test_settings test_stock) test_round1 ∧
  Z.of_nat 1 <= nstores test_stock * effective_maxTo test_settings + 1 ∧
  (run_final doExchangeItems test_settings test_round1 ∨
   ∃ st', round_step doExchangeItems test_settings test_round1 st').
Proof.
  assert (Hs : nsteps (round_step doExchangeItems test_settings) 1
                 (init_state test_settings test_stock) test_round1).
  { eapply nsteps_l; [|apply nsteps_O].
    eapply step_commit; [vm_compute; reflexivity|reflexivity|vm_compute; reflexivity]. }
  split; [exact Hs|exact (round_runs_end test_stock test_settings 1 _ Hs)].
Defined.


Lemma RunOpti_transfers_valid_witness :
  let t := mkTransfer "Bucharest" "Paris"
             [mkTransferedProduct "Corn" 4; mkTransferedProduct "Apples" 2] 6 1 in
  t ∈ Transfers (RunOpti test_stock test_settings).1 ∧
  FromStore t ≠ ToStore t ∧ effective_minProducts test_settings <= TotaItemsCount t.
Proof.
  intros t. assert (Hin : t ∈ Transfers (RunOpti test_stock test_settings).1)
    by (vm_compute; left).
  split; [exact Hin|]. exact (RunOpti_transfers_valid test_stock test_settings t Hin).
Defined.

Lemma RunOpti_wf_witness :
  stock_wf test_stock ∧ stock_wf (AfterStock (RunOpti test_stock test_settings).1).
Proof.
  assert (Hwf : stock_wf test_stock) by (apply (bool_decide_unpack (stock_wf test_stock)); vm_compute; exact I).
  split; [exact Hwf|]. exact (RunOpti_wf test_stock test_settings Hwf).
Defined.

Lemma priority_phase_first_witness :
  let st := init_state priority_settings osa_loss_stock in
  os_priori st = true ∧
  Forall (priority_ok priority_settings) (os_transfers st) ∧
  os_transfers st `prefix_of` os_transfers st.
Proof.
  intros st. assert (Hp : os_priori st = true) by reflexivity.
  split; [exact Hp|].
  exact (priority_phase_first osa_loss_stock priority_settings st st
           (rtc_refl _ _) (rtc_refl _ _) Hp).
Defined.

(** The state after the one round of the [opti_test.go] run. *)
Definition test_final : OptiState :=
  default (init_state test_settings test_stock)
    (run_loop doExchangeItems test_settings (run_fuel test_settings test_stock)
       (init_state test_settings test_stock)).

Lemma RunOpti_any_interleaving_witness :
  dash_free test_stock ∧
  rtc (round_step doExchangeItems test_settings) (init_state test_settings test_stock) test_final ∧
  run_final doExchangeItems test_settings test_final ∧
  RunOpti test_stock test_settings =
    (mkOptimisation test_stock (os_stock test_final) (os_transfers test_final) test_settings
       (computeOSA test_stock (os_stock test_final)), os_progress test_final).
Proof.
  assert (Hdf : dash_free test_stock).
  { assert (H : map_Forall (λ s _, has_dash s = false) test_stock)
      by (apply (bool_decide_unpack (map_Forall _ _)); vm_compute; exact I).
    intros s [x Hx]. exact (H s x Hx). }
  assert (Hr : rtc (round_step doExchangeItems test_settings)
                 (init_state test_settings test_stock) test_final).
  { eapply rtc_l; [|apply rtc_refl].
    eapply step_commit; [vm_compute; reflexivity|reflexivity|vm_compute; reflexivity]. }
  assert (Hf : run_final doExchangeItems test_settings test_final)
    by (right; vm_compute; reflexivity).
  split; [exact Hdf|split; [exact Hr|split; [exact Hf|]]].
  exact (RunOpti_any_interleaving test_stock test_settings test_final Hdf Hr Hf).
Defined.

Lemma round_commits_best_f64_witness :
  round_candidates doExchangeItems test_settings (init_state test_settings test_stock) ≡ₚ
    round_candidates doExchangeItems test_settings (init_state test_settings test_stock) ∧
  Forall in_grid (admitted (effective_minProducts test_settings)
    (round_candidates doExchangeItems test_settings (init_state test_settings test_stock))) ∧
  no_cross_tie (admitted (effective_minProducts test_settings)
    (round_candidates doExchangeItems test_settings (init_state test_settings test_stock))) ∧
  TotaItemsCount (reduce_candidates_f64 (effective_minProducts test_settings) order_f64
    (round_candidates doExchangeItems test_settings (init_state test_settings test_stock))) ≠ 0 ∧
  round_with doExchangeItems test_settings (init_state test_settings test_stock)
    (round_candidates doExchangeItems test_settings (init_state test_settings test_stock)) =
  RCommit (commit doExchangeItems test_settings (init_state test_settings test_stock)
    (reduce_candidates_f64 (effective_minProducts test_settings) order_f64
      (round_candidates doExchangeItems test_settings (init_state test_settings test_stock)))).
Proof.
  assert (Hp : round_candidates doExchangeItems test_settings (init_state test_settings test_stock) ≡ₚ
               round_candidates doExchangeItems test_settings (init_state test_settings test_stock))
    by reflexivity.
  assert (Hg : Forall in_grid (admitted (effective_minProducts test_settings)
    (round_candidates doExchangeItems test_settings (init_state test_settings test_stock))))
    by (vm_compute; repeat constructor; vm_compute; congruence).
  assert (Ht : no_cross_tie (admitted (effective_minProducts test_settings)
    (round_candidates doExchangeItems test_settings (init_state test_settings test_stock))))
    by (apply no_cross_tieb_ok; vm_compute; reflexivity).
  assert (Hn : TotaItemsCount (reduce_candidates_f64 (effective_minProducts test_settings) order_f64
    (round_candidates doExchangeItems test_settings (init_state test_settings test_stock))) ≠ 0)
    by (vm_compute; discriminate).
  split; [exact Hp|split; [exact Hg|split; [exact Ht|split; [exact Hn|]]]].
  exact (proj1 (round_commits_best_f64 test_settings _ _ Hp Hg Ht Hn)).
Defined.

End Run.

Export Run.
