(* ===== verification/Terminal.v ===== *)
(** * Terminal: what the [opti] command prints, and in which order

    [optiCmd]'s [Run] (cmd/opti.go 51-69) starts two goroutines: one
    runs [RunOpti] and sends its result on [resp]; the other receives
    the progress values [RunOpti] sends on the unbuffered channel
    [progress] and prints each as ["\rProgress: p%"].  The main
    goroutine waits for [resp], then prints ["\rProgress: 100%\n"] and
    ["OSA increased: +x.xx%\n"], writes the output file and returns,
    which ends the process.

    The model is a step relation on the state of the three goroutines:
    the progress values [RunOpti] still has to send, the value the
    printer has received and not yet printed, the point the main
    goroutine has reached, and what has been printed.  An unbuffered
    send completes only when it is received, and the printer receives
    the next value only after printing the previous one, so every
    progress line but the last is printed before [RunOpti] returns.
    The last one races with the main goroutine: it can come before,
    between or after the main goroutine's two lines, or never, when the
    process exits first.  [term_outputs] lists these outputs and the
    theorem [term_output_exact] shows they are exactly the outputs of
    the model.

    The OSA is printed with [%.2f] from the model's exact rational
    [OSAIncrease] (round half to even on two decimals, as Go's
    formatting rounds the decimal expansion); Go formats the float64
    value, which can differ from the exact one in the last bit. *)

From Stdlib Require Import QArith Ascii.
From S2P Require Import Prelude Stock Transfer Orchestrator Strconv Cli Run.

Module Terminal.

  (** ** The strings printed *)

Definition carriage_return : string := String (ascii_of_nat 13) EmptyString.

  (** [fmt.Printf("\rProgress: %d%%", p)] (opti.go 63). *)
Definition progress_line (p : Z) : string :=
    carriage_return +:+ "Progress: " +:+ Itoa p +:+ "%".

  (** [fmt.Printf("\rProgress: 100%%\n")] (opti.go 68). *)
Definition done_line : string := carriage_return +:+ "Progress: 100%" +:+ newline.

  (** [|q| * 100] rounded to an integer, half to even. *)
Definition round_cents (q : Q) : Z :=
    let a := Z.abs (Qnum q) * 100 in
    let d := Zpos (Qden q) in
    let n := a / d in
    let r := a mod d in
    if 2 * r <? d then n
    else if d <? 2 * r then n + 1
    else if Z.even n then n else n + 1.

  (** [%.2f] of [q]: the sign of [q], the integer part and two
      decimals. *)
Definition format_2f (q : Q) : string :=
    let n := round_cents q in
    let c := n mod 100 in
    (if Qnum q <? 0 then "-" else "") +:+ Itoa (n / 100) +:+ "." +:+
    String (digit_char (c / 10)) (String (digit_char (c mod 10)) EmptyString).

  (** [fmt.Printf("OSA increased: +%.2f%%\n", optim.OSAIncrease)]
      (opti.go 69). *)
Definition osa_line (osa : Q) : string := "OSA increased: +" +:+ format_2f osa +:+ "%" +:+ newline.

  (** ** The three goroutines *)

  (** Where the main goroutine is. *)
Inductive MainPc :=
  | WaitResp      (* [optim := <-resp] *)
  | Print100      (* the 100% line *)
  | PrintOSA      (* the OSA line *)
  | WriteFile     (* the output file, then return *)
  | Exited.       (* [Run] has returned and the process has ended *)

Record TermState := mkTermState {
    ts_rem : list Z;        (* progress values [RunOpti] has still to send *)
    ts_pend : option Z;     (* received by the printer, not yet printed *)
    ts_main : MainPc;
    ts_out : list string    (* what has been printed, in order *)
  }.

Section Steps.
  Context (osa : Q).

  (** One step of one goroutine. *)
Inductive term_step : TermState → TermState → Prop :=
  | step_send v rem m out :
      (* [progress <- v] meets [for p := range progress] *)
      term_step (mkTermState (v :: rem) None m out) (mkTermState rem (Some v) m out)
  | step_print v rem m out :
      (* [fmt.Printf("\rProgress: %d%%", p)], while the process runs *)
      m ≠ Exited →
      term_step (mkTermState rem (Some v) m out) (mkTermState rem None m (out ++ [progress_line v]))
  | step_resp pend out :
      (* [RunOpti] has returned: [resp <- ...] meets [<-resp] *)
      term_step (mkTermState [] pend WaitResp out) (mkTermState [] pend Print100 out)
  | step_100 rem pend out :
      term_step (mkTermState rem pend Print100 out) (mkTermState rem pend PrintOSA (out ++ [done_line]))
  | step_osa rem pend out :
      term_step (mkTermState rem pend PrintOSA out)
        (mkTermState rem pend WriteFile (out ++ [osa_line osa]))
  | step_exit rem pend out :
      term_step (mkTermState rem pend WriteFile out) (mkTermState rem pend Exited out).

End Steps.

  (** The state when the goroutines start. *)
Definition term_init (vs : list Z) : TermState := mkTermState vs None WaitResp [].

  (** What the main goroutine has printed at each point. *)
Definition main_lines (osa : Q) (m : MainPc) : list string :=
    match m with
    | WaitResp | Print100 => []
    | PrintOSA => [done_line]
    | WriteFile | Exited => [done_line; osa_line osa]
    end.

  (** [l] inserted at each position of [M]. *)
Definition inserts (l : string) (M : list string) : list (list string) :=
    (λ i, take i M ++ [l] ++ drop i M) <$> seq 0 (S (length M)).

  (** The outputs of a whole run of the command with progress values
      [vs]: every line but the last in order, then the main goroutine's
      two lines with the last progress line before, between, after or
      nowhere. *)
Definition term_outputs (vs : list Z) (osa : Q) : list (list string) :=
    match last vs with
    | None => [main_lines osa Exited]
    | Some l =>
        (λ t, (progress_line <$> removelast vs) ++ t) <$>
          (main_lines osa Exited :: inserts (progress_line l) (main_lines osa Exited))
    end.

  (** ** The outputs of the model *)

Definition lines (vs : list Z) : list string := progress_line <$> vs.

  (** After [RunOpti] has returned: the main goroutine has printed
      [main_lines osa m]; the last progress line is pending, or was
      printed at some point of the main goroutine's lines. *)
Definition after_resp (vs : list Z) (osa : Q) (m : MainPc) (pend : option Z) (out : list string) : Prop :=
    (vs = [] ∧ pend = None ∧ out = main_lines osa m) ∨
    ∃ init l, vs = init ++ [l] ∧
      ((pend = Some l ∧ out = lines init ++ main_lines osa m) ∨
       (pend = None ∧ ∃ i, (i <= length (main_lines osa m))%nat ∧
          out = lines init ++ take i (main_lines osa m) ++ [progress_line l] ++ drop i (main_lines osa m))).

  (** The invariant of the reachable states. *)
Definition term_inv (vs : list Z) (osa : Q) (st : TermState) : Prop :=
    match ts_main st with
    | WaitResp =>
        ∃ pre, vs = pre ++ ts_rem st ∧
          ((ts_pend st = None ∧ ts_out st = lines pre) ∨
           (∃ pre' v, pre = pre' ++ [v] ∧ ts_pend st = Some v ∧ ts_out st = lines pre'))
    | m => ts_rem st = [] ∧ after_resp vs osa m (ts_pend st) (ts_out st)
    end.

Lemma after_resp_snoc vs osa m m' pend out x :
    main_lines osa m' = main_lines osa m ++ [x] →
    after_resp vs osa m pend out → after_resp vs osa m' pend (out ++ [x]).
  Proof.
    intros HM Ha. unfold after_resp in *. rewrite HM.
    destruct Ha as [(-> & -> & ->)|(init & l & -> & [(-> & ->)|(-> & i & Hi & ->)])].
    - by left.
    - right. exists init, l. split; [done|]. left. by rewrite !app_assoc.
    - right. exists init, l. split; [done|]. right. split; [done|]. exists i.
      rewrite length_app. split; [lia|].
      rewrite take_app_le, drop_app_le by done. by rewrite !app_assoc.
  Qed.

Lemma after_resp_same vs osa m m' pend out :
    main_lines osa m' = main_lines osa m → after_resp vs osa m pend out → after_resp vs osa m' pend out.
  Proof. intros HM. unfold after_resp. by rewrite HM. Qed.

Lemma after_resp_print vs osa m v out :
    after_resp vs osa m (Some v) out → after_resp vs osa m None (out ++ [progress_line v]).
  Proof.
    intros [(_ & ? & _)|(init & l & -> & [([= <-] & ->)|(? & _)])]; [discriminate| |discriminate].
    right. exists init, v. split; [done|]. right. split; [done|].
    exists (length (main_lines osa m)). rewrite take_ge, drop_ge by done.
    split; [done|]. by rewrite app_nil_r, app_assoc.
  Qed.

Lemma term_inv_step vs osa st st' :
    term_inv vs osa st → term_step osa st st' → term_inv vs osa st'.
  Proof.
    intros Hinv Hs. destruct Hs as [v rem m out|v rem m out Hm|pend out|rem pend out|rem pend out|rem pend out];
      unfold term_inv in *; simpl in *.
    - destruct m; [|by destruct Hinv as [? _]..].
      destruct Hinv as (pre & -> & [[_ ->]|(? & ? & _ & ? & _)]); [|discriminate].
      exists (pre ++ [v]). rewrite <- app_assoc. split; [done|]. right. by exists pre, v.
    - destruct m; [|destruct Hinv as [-> Ha]; split; [done|]; by apply after_resp_print..|done].
      destruct Hinv as (pre & -> & [[? _]|(pre' & v' & -> & [= <-] & ->)]); [discriminate|].
      exists (pre' ++ [v]). split; [done|]. left. split; [done|]. unfold lines; by rewrite fmap_app.
    - split; [done|]. destruct Hinv as (pre & Hvs & Hpo). rewrite app_nil_r in Hvs. subst pre.
      destruct Hpo as [[-> ->]|(pre' & v & -> & -> & ->)].
      + destruct vs as [|x vs'] using rev_ind; [by left|]. right. exists vs', x. split; [done|].
        right. split; [done|]. exists 0%nat. unfold lines; by rewrite fmap_app.
      + right. exists pre', v. split; [done|]. left. by rewrite app_nil_r.
    - destruct Hinv as [-> Ha]. split; [done|]. by apply (after_resp_snoc _ _ Print100).
    - destruct Hinv as [-> Ha]. split; [done|]. by apply (after_resp_snoc _ _ PrintOSA).
    - destruct Hinv as [-> Ha]. split; [done|]. by apply (after_resp_same _ _ WriteFile).
  Qed.

Lemma term_inv_reachable vs osa st : rtc (term_step osa) (term_init vs) st → term_inv vs osa st.
  Proof.
    intros Hr. cut (term_inv vs osa (term_init vs)); [|exists []; split; [done|by left]].
    induction Hr as [x|x y z Hxy _ IH]; [done|]. intros Hx. apply IH. by eapply term_inv_step.
  Qed.

Lemma term_outputs_snoc init l osa :
    term_outputs (init ++ [l]) osa =
      (λ t, lines init ++ t) <$> (main_lines osa Exited :: inserts (progress_line l) (main_lines osa Exited)).
  Proof. unfold term_outputs. by rewrite last_snoc, removelast_last. Qed.

  (** Sending and printing the values [xs] before [RunOpti] returns. *)
Lemma term_send_all osa xs rem out :
    rtc (term_step osa) (mkTermState (xs ++ rem) None WaitResp out)
      (mkTermState rem None WaitResp (out ++ lines xs)).
  Proof.
    revert out. induction xs as [|x xs IH]; intros out; simpl; [by rewrite app_nil_r|].
    eapply rtc_l; [apply step_send|]. eapply rtc_l; [by apply step_print|].
    specialize (IH (out ++ [progress_line x])). rewrite <- app_assoc in IH. exact IH.
  Qed.

Lemma term_outputs_sound vs osa st :
    rtc (term_step osa) (term_init vs) st → ts_main st = Exited → ts_out st ∈ term_outputs vs osa.
  Proof.
    intros Hr Hm. pose proof (term_inv_reachable vs osa st Hr) as Hinv. unfold term_inv in Hinv.
    rewrite Hm in Hinv. destruct Hinv as [_ [(-> & _ & ->)|(init & l & -> & Hcase)]]; [by left|].
    rewrite term_outputs_snoc. apply list_elem_of_fmap.
    destruct Hcase as [(_ & ->)|(_ & i & Hi & ->)]; [eexists; split; [done|by left]|].
    eexists; split; [done|]. right. apply list_elem_of_fmap. exists i. split; [done|].
    apply elem_of_seq. simpl in *. lia.
  Qed.

  (** The steps of the main goroutine once [RunOpti] has returned. *)
Ltac main_steps osa :=
  eapply rtc_l; [apply step_resp|]; eapply rtc_l; [apply step_100|];
  eapply rtc_l; [apply step_osa|]; eapply rtc_l; [apply step_exit|]; apply rtc_refl.

Lemma term_outputs_complete vs osa out :
    out ∈ term_outputs vs osa →
    ∃ st, rtc (term_step osa) (term_init vs) st ∧ ts_main st = Exited ∧ ts_out st = out.
  Proof.
    destruct vs as [|l init _] using rev_ind.
    { intros ->%list_elem_of_singleton. eexists. split; [main_steps osa|done]. }
    rewrite term_outputs_snoc. intros (t & -> & Ht)%list_elem_of_fmap.
    pose proof (term_send_all osa init [l] []) as Hpre. simpl in Hpre.
    apply elem_of_cons in Ht as [->|(i & -> & Hi%elem_of_seq)%list_elem_of_fmap].
    { eexists. split.
      - eapply rtc_trans; [exact Hpre|]. eapply rtc_l; [apply step_send|]. main_steps osa.
      - split; [done|]. simpl. by rewrite <- !app_assoc. }
    simpl in Hi. destruct i as [|[|[|i]]]; [..|lia]; eexists; split.
    - eapply rtc_trans; [exact Hpre|].
      eapply rtc_l; [apply step_send|]. eapply rtc_l; [by apply step_print|]. main_steps osa.
    - split; [done|]. simpl. by rewrite <- !app_assoc.
    - eapply rtc_trans; [exact Hpre|].
      eapply rtc_l; [apply step_send|]. eapply rtc_l; [apply step_resp|]. eapply rtc_l; [apply step_100|].
      eapply rtc_l; [by apply step_print|]. eapply rtc_l; [apply step_osa|].
      eapply rtc_l; [apply step_exit|]. apply rtc_refl.
    - split; [done|]. simpl. by rewrite <- !app_assoc.
    - eapply rtc_trans; [exact Hpre|].
      eapply rtc_l; [apply step_send|]. eapply rtc_l; [apply step_resp|]. eapply rtc_l; [apply step_100|].
      eapply rtc_l; [apply step_osa|]. eapply rtc_l; [by apply step_print|].
      eapply rtc_l; [apply step_exit|]. apply rtc_refl.
    - split; [done|]. simpl. by rewrite <- !app_assoc.
  Qed.

  (** C20: the terminal output of the command.  Whatever the scheduler
      does, the output of a run of [opti] whose [RunOpti] sends the
      progress values [vs] and reports [osa] is exactly one of
      [term_outputs vs osa]: the progress lines in order, all but the
      last before ["Progress: 100%"], the last one before, between or
      after the main goroutine's two lines, or lost when the process
      exits first; and each of these outputs happens in some run. *)
Theorem term_output_exact vs osa out :
    (∃ st, rtc (term_step osa) (term_init vs) st ∧ ts_main st = Exited ∧ ts_out st = out) ↔
    out ∈ term_outputs vs osa.
  Proof.
    split; [intros (st & Hr & Hm & <-); by apply term_outputs_sound|apply term_outputs_complete].
  Qed.

  (** ** Concrete outputs *)

  (** The progress display can go backwards.  On the input of
      [opti_test.go] [RunOpti] sends the single value 50 and reports an
      OSA of 10; in some runs of the command the printer goroutine
      prints ["\rProgress: 50%"] after the main goroutine has printed
      ["\rProgress: 100%"] and the OSA line, and in others the process
      exits before it prints it at all. *)
Example term_progress_after_done :
    let r := RunOpti test_stock test_settings in
    r.2 = [50] ∧
    (∃ st, rtc (term_step (OSAIncrease r.1)) (term_init r.2) st ∧ ts_main st = Exited ∧
       ts_out st = [done_line; osa_line (OSAIncrease r.1); progress_line 50]) ∧
    (∃ st, rtc (term_step (OSAIncrease r.1)) (term_init r.2) st ∧ ts_main st = Exited ∧
       ts_out st = [done_line; osa_line (OSAIncrease r.1)]).
  Proof.
    intros r. split; [vm_compute; reflexivity|].
    split; apply term_outputs_complete; apply (bool_decide_unpack _); vm_compute; exact I.
  Qed.

  (** The OSA line prints a negative change as ["+-50.00%"]: the
      format string has a literal [+] before [%.2f], which prints the
      sign of a negative value itself (the run of [osa_loss_stock]
      reports -50 points). *)
Example osa_line_negative :
    osa_line (OSAIncrease (RunOpti osa_loss_stock test_settings).1) =
      "OSA increased: +-50.00%" +:+ newline ∧
    osa_line (OSAIncrease (RunOpti test_stock test_settings).1) = "OSA increased: +10.00%" +:+ newline ∧
    format_2f (1 # 8) = "0.12" ∧ format_2f (3 # 8) = "0.38" ∧ format_2f (- 1 # 1000) = "-0.00".
  Proof. split_and!; vm_compute; reflexivity. Qed.

End Terminal.

Export Terminal.
